(** * The provider registry of podman-desktop

    A shallow embedding of [packages/main/src/plugin/provider-registry.ts]
    (class [ProviderRegistry]) and the properties of its specification.

    Conventions of the embedding:
    - the two [Map]s the registry iterates ([providers], [providerAutostarts])
      are insertion-ordered association lists ([JSMap]); the maps that are only
      read by key are [gmap]s;
    - a method of the class is a computation in the monad [M]: it threads the
      registry, appends what the outside world can observe (listener calls,
      telemetry, calls into provider code) to a trace and may throw;
    - a promise returned by provider code is the instant at which it
      settles and the value or reason it settles to; [await] on a rejected
      promise throws the reason;
    - a method that reads the registry again after an [await] takes what
      runs while it is suspended as an argument ([Interleaving]): firings
      of the timer, calls of other methods. *)

From Stdlib Require Import ZArith Lia Sorting.Sorted Sorting.Permutation.
From Stdlib Require OrdersEx.
From stdpp Require Import base decidable option list strings pretty gmap.

Set Default Proof Using "Type".
Local Open Scope string_scope.
Local Open Scope list_scope.

(** ** JavaScript values that the registry inspects *)

(** A thrown or rejected value, as far as the [catch] clause of
    [runPreflightChecks] tells values apart:
    [err instanceof Error], [typeof err === 'object'] (which includes [null]),
    anything else. *)
Inductive JsValue :=
| JsError (message : string)
| JsObject (toString : string)
| JsNull
| JsPrimitive.

Inductive Settled (A : Type) :=
| Fulfilled (a : A)
| Rejected (reason : JsValue).
Arguments Fulfilled {A} a.
Arguments Rejected {A} reason.

(** A promise handed back by provider code: the instant at which it settles
    and what it settles to. *)
Record Promise (A : Type) := mkPromise {
  settles_at : nat;
  outcome : Settled A;
}.
Arguments mkPromise {A} _ _.
Arguments settles_at {A} _.
Arguments outcome {A} _.

(** How a call completes: it returns a value or throws one. *)
Inductive Completion (A : Type) :=
| Normal (a : A)
| Throw (e : JsValue).
Arguments Normal {A} a.
Arguments Throw {A} e.

(** ** Insertion-ordered maps

    A JavaScript [Map] iterates in insertion order; [set] on a present key
    keeps its position, [delete] followed by [set] moves it to the end. *)
Module JSMap.
Section Ops.
Context {V : Type}.
Definition t := list (string * V).

Definition empty : t := [].

Fixpoint get (k : string) (m : t) : option V :=
  match m with
  | [] => None
  | (k', v) :: m' => if String.eqb k' k then Some v else get k m'
  end.

Definition has (k : string) (m : t) : bool :=
  match get k m with Some _ => true | None => false end.

Fixpoint set (k : string) (v : V) (m : t) : t :=
  match m with
  | [] => [(k, v)]
  | (k', v') :: m' =>
      if String.eqb k' k then (k', v) :: m' else (k', v') :: set k v m'
  end.

Fixpoint delete (k : string) (m : t) : t :=
  match m with
  | [] => []
  | (k', v') :: m' =>
      if String.eqb k' k then m' else (k', v') :: delete k m'
  end.

Definition keys (m : t) : list string := map fst m.
Definition values (m : t) : list V := map snd m.
End Ops.
Arguments t : clear implicits.
End JSMap.

(** ** Types of the extension API *)

(** Modelled from the spec: the [ProviderStatus] union of
    [@tmpwip/extension-api], whose declaration is not part of the sources;
    the eleven literals are those of the data model. *)
Inductive ProviderStatus :=
| NotInstalled | Installed | Configuring | Configured | Ready
| Starting | Started | Stopping | Stopped | ErrorStatus | UnknownStatus.

#[global] Instance ProviderStatus_eq_dec : EqDecision ProviderStatus.
Proof. solve_decision. Defined.

(** Modelled from the spec: the [ProviderConnectionStatus] union. *)
Inductive ProviderConnectionStatus :=
| ConnStarted | ConnStarting | ConnStopping | ConnStopped | ConnUnknown.

(** [new LifecycleContextImpl()] and [new LoggerImpl()]: the registry only
    stores and passes these objects on. *)
Inductive LifecycleContextImpl := NewLifecycleContextImpl.
Inductive LoggerImpl := NewLoggerImpl.

(** [ProviderLifecycle]: [status()] is a synchronous poll of the backend,
    whose answer depends on the instant of the call; [initialize] is
    optional. *)
Record ProviderLifecycle := {
  lc_status : nat -> ProviderStatus;
  lc_initialize : option (LifecycleContextImpl -> Promise unit);
  lc_start : LifecycleContextImpl -> Promise unit;
  lc_stop : LifecycleContextImpl -> Promise unit;
}.

(** [ProviderConnectionLifecycle]: every method is optional. *)
Record ProviderConnectionLifecycle := {
  cl_start : option (LifecycleContextImpl -> Promise unit);
  cl_stop : option (LifecycleContextImpl -> Promise unit);
  cl_delete : option (Promise unit);
}.

(** [ContainerProviderConnection]. [conn_ref] is the identity of the object:
    [connectionLifecycleContexts] is keyed by the object itself.
    [conn_status] is what [status()] currently answers. *)
Record ContainerProviderConnection := {
  conn_ref : nat;
  conn_name : string;
  conn_type : string;
  conn_socketPath : string;
  conn_status : ProviderConnectionStatus;
  conn_lifecycle : option ProviderConnectionLifecycle;
}.

Record KubernetesProviderConnection := {
  kube_name : string;
  kube_apiURL : string;
  kube_status : ProviderConnectionStatus;
}.

Record ContainerProviderConnectionFactory := {
  factory_initialize : Promise unit;
  factory_create : list (string * string) -> Promise unit;
}.

Record CheckResult := {
  successful : bool;
  description : option string;
  docLinks : option (list string);
}.

(** [InstallCheck]: [execute()] is awaited inside a [try], so a synchronous
    throw and a rejection are the same thing to the registry. *)
Record InstallCheck := {
  title : string;
  execute : Promise CheckResult;
}.

Record ProviderInstallation := {
  inst_preflightChecks : option (list InstallCheck);
  install : LoggerImpl -> Promise unit;
}.

Record ProviderUpdate := {
  upd_version : string;
  upd_preflightChecks : option (list InstallCheck);
  update : LoggerImpl -> Promise unit;
}.

(** [ProviderAutostart]: [start] is called inside [Array.map], outside any
    [await] or [try], so it matters whether the call returns its promise or
    throws. *)
Record ProviderAutostart := {
  autostart_start : LoggerImpl -> Completion (Promise unit);
}.

Record ProviderOptions := {
  opt_id : string;
  opt_name : string;
  opt_status : ProviderStatus;
  opt_version : option string;
  opt_images : option string;
  opt_links : list string;
  opt_detectionChecks : list string;
}.

(** Modelled from the spec: the state of a [ProviderImpl]
    ([./provider-impl] is not part of the sources). The constructor receives
    the registry-assigned id as [internalId]; [updateStatus] stores the new
    status. *)
Record ProviderImpl := {
  id : string;
  internalId : string;
  name : string;
  status : ProviderStatus;
  version : option string;
  images : option string;
  links : list string;
  detectionChecks : list string;
  proxy : option string;
  containerConnections : list ContainerProviderConnection;
  kubernetesConnections : list KubernetesProviderConnection;
  containerProviderConnectionFactory : option ContainerProviderConnectionFactory;
}.

Definition newProviderImpl (internal : string) (o : ProviderOptions) : ProviderImpl :=
  {| id := opt_id o; internalId := internal; name := opt_name o;
     status := opt_status o; version := opt_version o;
     images := opt_images o; links := opt_links o;
     detectionChecks := opt_detectionChecks o; proxy := None;
     containerConnections := []; kubernetesConnections := [];
     containerProviderConnectionFactory := None |}.

Definition updateStatus (s : ProviderStatus) (p : ProviderImpl) : ProviderImpl :=
  {| id := id p; internalId := internalId p; name := name p;
     status := s; version := version p;
     images := images p; links := links p;
     detectionChecks := detectionChecks p; proxy := proxy p;
     containerConnections := containerConnections p;
     kubernetesConnections := kubernetesConnections p;
     containerProviderConnectionFactory := containerProviderConnectionFactory p |}.

(** ** [./api/provider-info] *)

Inductive LifecycleMethod := MStart | MStop | MDelete.

Record ProviderContainerConnectionInfo := {
  ci_name : string;
  ci_status : ProviderConnectionStatus;
  ci_type : string;
  ci_socketPath : string;
  ci_lifecycleMethods : option (list LifecycleMethod);
}.

Record ProviderKubernetesConnectionInfo := {
  ki_name : string;
  ki_status : ProviderConnectionStatus;
  ki_apiURL : string;
}.

Record ProviderInfo := {
  pi_id : string;
  pi_internalId : string;
  pi_name : string;
  pi_containerConnections : list ProviderContainerConnectionInfo;
  pi_kubernetesConnections : list ProviderKubernetesConnectionInfo;
  pi_status : ProviderStatus;
  pi_proxySettings : option string;
  pi_containerProviderConnectionCreation : bool;
  pi_links : list string;
  pi_detectionChecks : list string;
  pi_images : option string;
  pi_version : option string;
  pi_installationSupport : bool;
  pi_updateInfo : option string;
  pi_lifecycleMethods : option (list LifecycleMethod);
}.

(** ** The registry *)

(** Listeners are callbacks compared by reference ([indexOf]); a listener is
    identified by a number. *)
Definition Listener := nat.

Record Registry := {
  count : N;
  providers : JSMap.t ProviderImpl;
  providerStatuses : gmap string ProviderStatus;
  providerLifecycles : gmap string ProviderLifecycle;
  providerLifecycleContexts : gmap string LifecycleContextImpl;
  providerInstallations : gmap string ProviderInstallation;
  providerUpdates : gmap string ProviderUpdate;
  providerAutostarts : JSMap.t ProviderAutostart;
  connectionLifecycleContexts : gmap nat LifecycleContextImpl;
  listeners : list Listener;
  lifecycleListeners : list Listener;
  containerConnectionLifecycleListeners : list Listener;
}.

(** The constructor, without its timer (see [tick]). *)
Definition newProviderRegistry : Registry :=
  {| count := 0%N; providers := JSMap.empty; providerStatuses := ∅;
     providerLifecycles := ∅; providerLifecycleContexts := ∅;
     providerInstallations := ∅; providerUpdates := ∅;
     providerAutostarts := JSMap.empty; connectionLifecycleContexts := ∅;
     listeners := []; lifecycleListeners := [];
     containerConnectionLifecycleListeners := [] |}.

(** What the outside world observes of a run. *)
Inductive Event :=
| ProviderEvent (l : Listener) (event : string) (info : ProviderInfo)
| LifecycleEvent (l : Listener) (event : string) (info : ProviderInfo)
    (lifecycle : ProviderLifecycle)
| ContainerConnectionEvent (l : Listener) (event : string) (info : ProviderInfo)
    (connection : ProviderContainerConnectionInfo)
| TelemetryTrack (event : string) (fields : list (string * string))
| ApiSend (channel : string) (data : string)
| ConsoleError (err : JsValue)
| StartCheck (checkName : string)
| EndCheck (checkName : string) (ok : bool) (descr : option string)
    (links : option (list string))
| CallExecute (check : InstallCheck)
| CallLifecycleInitialize (lifecycle : ProviderLifecycle) (ctx : LifecycleContextImpl)
| CallLifecycleStart (lifecycle : ProviderLifecycle) (ctx : LifecycleContextImpl)
| CallLifecycleStop (lifecycle : ProviderLifecycle) (ctx : LifecycleContextImpl)
| CallConnectionStart (connection : ContainerProviderConnection) (ctx : LifecycleContextImpl)
| CallConnectionStop (connection : ContainerProviderConnection) (ctx : LifecycleContextImpl)
| CallConnectionDelete (connection : ContainerProviderConnection)
| CallAutostart (autostart : ProviderAutostart) (logger : LoggerImpl)
| CallFactoryInitialize (factory : ContainerProviderConnectionFactory).

(** ** The monad of registry methods *)

Definition M (A : Type) : Type := Registry -> Completion A * Registry * list Event.

Definition ret {A} (a : A) : M A := fun r => (Normal a, r, []).

Definition bind {A B} (m : M A) (k : A -> M B) : M B := fun r =>
  match m r with
  | (Normal a, r1, t1) => let '(c, r2, t2) := k a r1 in (c, r2, t1 ++ t2)
  | (Throw e, r1, t1) => (Throw e, r1, t1)
  end.

Definition throw {A} (e : JsValue) : M A := fun r => (Throw e, r, []).
Definition throwError {A} (message : string) : M A := throw (JsError message).
Definition read : M Registry := fun r => (Normal r, r, []).
Definition tell (t : list Event) : M unit := fun r => (Normal tt, r, t).

(** [try { body } catch (err) { handler }] *)
Definition try_catch {A} (body : M A) (handler : JsValue -> M A) : M A := fun r =>
  match body r with
  | (Normal a, r1, t1) => (Normal a, r1, t1)
  | (Throw e, r1, t1) => let '(c, r2, t2) := handler e r1 in (c, r2, t1 ++ t2)
  end.

(** [await p], as the call sees it once it resumes; see [suspended] for what
    happens to the registry in between. *)
Definition await {A} (p : Promise A) : M A :=
  match outcome p with
  | Fulfilled a => ret a
  | Rejected e => throw e
  end.

Declare Scope registry_scope.
Delimit Scope registry_scope with registry.
Notation "x <- c1 ;; c2" := (bind c1 (fun x => c2))
  (at level 100, c1 at next level, right associativity) : registry_scope.
Notation "c1 ;; c2" := (bind c1 (fun _ => c2))
  (at level 100, right associativity) : registry_scope.
Local Open Scope registry_scope.

(** [xs.forEach(body)] *)
Fixpoint forEach {A} (xs : list A) (body : A -> M unit) : M unit :=
  match xs with
  | [] => ret tt
  | x :: xs' => body x ;; forEach xs' body
  end.

Definition result {A} (x : Completion A * Registry * list Event) : Completion A := x.1.1.
Definition final {A} (x : Completion A * Registry * list Event) : Registry := x.1.2.
Definition trace {A} (x : Completion A * Registry * list Event) : list Event := x.2.

(** Field updates of [this]. *)
Definition with_count v (r : Registry) :=
  {| count := v; providers := providers r;
     providerStatuses := providerStatuses r;
     providerLifecycles := providerLifecycles r;
     providerLifecycleContexts := providerLifecycleContexts r;
     providerInstallations := providerInstallations r;
     providerUpdates := providerUpdates r;
     providerAutostarts := providerAutostarts r;
     connectionLifecycleContexts := connectionLifecycleContexts r;
     listeners := listeners r; lifecycleListeners := lifecycleListeners r;
     containerConnectionLifecycleListeners := containerConnectionLifecycleListeners r |}.
Definition with_providers v (r : Registry) :=
  {| count := count r; providers := v;
     providerStatuses := providerStatuses r;
     providerLifecycles := providerLifecycles r;
     providerLifecycleContexts := providerLifecycleContexts r;
     providerInstallations := providerInstallations r;
     providerUpdates := providerUpdates r;
     providerAutostarts := providerAutostarts r;
     connectionLifecycleContexts := connectionLifecycleContexts r;
     listeners := listeners r; lifecycleListeners := lifecycleListeners r;
     containerConnectionLifecycleListeners := containerConnectionLifecycleListeners r |}.
Definition with_providerStatuses v (r : Registry) :=
  {| count := count r; providers := providers r; providerStatuses := v;
     providerLifecycles := providerLifecycles r;
     providerLifecycleContexts := providerLifecycleContexts r;
     providerInstallations := providerInstallations r;
     providerUpdates := providerUpdates r;
     providerAutostarts := providerAutostarts r;
     connectionLifecycleContexts := connectionLifecycleContexts r;
     listeners := listeners r; lifecycleListeners := lifecycleListeners r;
     containerConnectionLifecycleListeners := containerConnectionLifecycleListeners r |}.
Definition with_providerLifecycles v (r : Registry) :=
  {| count := count r; providers := providers r;
     providerStatuses := providerStatuses r; providerLifecycles := v;
     providerLifecycleContexts := providerLifecycleContexts r;
     providerInstallations := providerInstallations r;
     providerUpdates := providerUpdates r;
     providerAutostarts := providerAutostarts r;
     connectionLifecycleContexts := connectionLifecycleContexts r;
     listeners := listeners r; lifecycleListeners := lifecycleListeners r;
     containerConnectionLifecycleListeners := containerConnectionLifecycleListeners r |}.
Definition with_providerLifecycleContexts v (r : Registry) :=
  {| count := count r; providers := providers r;
     providerStatuses := providerStatuses r;
     providerLifecycles := providerLifecycles r;
     providerLifecycleContexts := v;
     providerInstallations := providerInstallations r;
     providerUpdates := providerUpdates r;
     providerAutostarts := providerAutostarts r;
     connectionLifecycleContexts := connectionLifecycleContexts r;
     listeners := listeners r; lifecycleListeners := lifecycleListeners r;
     containerConnectionLifecycleListeners := containerConnectionLifecycleListeners r |}.
Definition with_providerInstallations v (r : Registry) :=
  {| count := count r; providers := providers r;
     providerStatuses := providerStatuses r;
     providerLifecycles := providerLifecycles r;
     providerLifecycleContexts := providerLifecycleContexts r;
     providerInstallations := v; providerUpdates := providerUpdates r;
     providerAutostarts := providerAutostarts r;
     connectionLifecycleContexts := connectionLifecycleContexts r;
     listeners := listeners r; lifecycleListeners := lifecycleListeners r;
     containerConnectionLifecycleListeners := containerConnectionLifecycleListeners r |}.
Definition with_providerUpdates v (r : Registry) :=
  {| count := count r; providers := providers r;
     providerStatuses := providerStatuses r;
     providerLifecycles := providerLifecycles r;
     providerLifecycleContexts := providerLifecycleContexts r;
     providerInstallations := providerInstallations r; providerUpdates := v;
     providerAutostarts := providerAutostarts r;
     connectionLifecycleContexts := connectionLifecycleContexts r;
     listeners := listeners r; lifecycleListeners := lifecycleListeners r;
     containerConnectionLifecycleListeners := containerConnectionLifecycleListeners r |}.
Definition with_providerAutostarts v (r : Registry) :=
  {| count := count r; providers := providers r;
     providerStatuses := providerStatuses r;
     providerLifecycles := providerLifecycles r;
     providerLifecycleContexts := providerLifecycleContexts r;
     providerInstallations := providerInstallations r;
     providerUpdates := providerUpdates r; providerAutostarts := v;
     connectionLifecycleContexts := connectionLifecycleContexts r;
     listeners := listeners r; lifecycleListeners := lifecycleListeners r;
     containerConnectionLifecycleListeners := containerConnectionLifecycleListeners r |}.
Definition with_connectionLifecycleContexts v (r : Registry) :=
  {| count := count r; providers := providers r;
     providerStatuses := providerStatuses r;
     providerLifecycles := providerLifecycles r;
     providerLifecycleContexts := providerLifecycleContexts r;
     providerInstallations := providerInstallations r;
     providerUpdates := providerUpdates r;
     providerAutostarts := providerAutostarts r;
     connectionLifecycleContexts := v; listeners := listeners r;
     lifecycleListeners := lifecycleListeners r;
     containerConnectionLifecycleListeners := containerConnectionLifecycleListeners r |}.
Definition with_listeners v (r : Registry) :=
  {| count := count r; providers := providers r;
     providerStatuses := providerStatuses r;
     providerLifecycles := providerLifecycles r;
     providerLifecycleContexts := providerLifecycleContexts r;
     providerInstallations := providerInstallations r;
     providerUpdates := providerUpdates r;
     providerAutostarts := providerAutostarts r;
     connectionLifecycleContexts := connectionLifecycleContexts r;
     listeners := v; lifecycleListeners := lifecycleListeners r;
     containerConnectionLifecycleListeners := containerConnectionLifecycleListeners r |}.
Definition with_lifecycleListeners v (r : Registry) :=
  {| count := count r; providers := providers r;
     providerStatuses := providerStatuses r;
     providerLifecycles := providerLifecycles r;
     providerLifecycleContexts := providerLifecycleContexts r;
     providerInstallations := providerInstallations r;
     providerUpdates := providerUpdates r;
     providerAutostarts := providerAutostarts r;
     connectionLifecycleContexts := connectionLifecycleContexts r;
     listeners := listeners r; lifecycleListeners := v;
     containerConnectionLifecycleListeners := containerConnectionLifecycleListeners r |}.
Definition with_containerConnectionLifecycleListeners v (r : Registry) :=
  {| count := count r; providers := providers r;
     providerStatuses := providerStatuses r;
     providerLifecycles := providerLifecycles r;
     providerLifecycleContexts := providerLifecycleContexts r;
     providerInstallations := providerInstallations r;
     providerUpdates := providerUpdates r;
     providerAutostarts := providerAutostarts r;
     connectionLifecycleContexts := connectionLifecycleContexts r;
     listeners := listeners r; lifecycleListeners := lifecycleListeners r;
     containerConnectionLifecycleListeners := v |}.

Definition modify (f : Registry -> Registry) : M unit :=
  fun r => (Normal tt, f r, []).

(** ** JavaScript built-ins used by the registry *)

(** [n++] on a JavaScript number holding a non-negative integer: exact up to
    [2^53], where adding one rounds back to [2^53]. *)
Definition js_incr (n : N) : N :=
  if (n <? 2 ^ 53)%N then (n + 1)%N else n.

(** [xs.indexOf(x)]; [None] stands for [-1]. *)
Fixpoint indexOf (xs : list Listener) (x : Listener) : option nat :=
  match xs with
  | [] => None
  | y :: xs' => if Nat.eqb y x then Some 0 else S <$> indexOf xs' x
  end.

(** [xs.splice(index, 1)] *)
Definition splice1 (index : nat) (xs : list Listener) : list Listener :=
  take index xs ++ drop (S index) xs.

(** [Promise.all(ps)]: fulfilled with all the values once every promise is
    fulfilled, rejected with the reason of the promise that rejects first. *)
Fixpoint Promise_all {A} (ps : list (Promise A)) : Promise (list A) :=
  match ps with
  | [] => mkPromise 0 (Fulfilled [])
  | p :: ps' =>
      let q := Promise_all ps' in
      match outcome p, outcome q with
      | Fulfilled a, Fulfilled l =>
          mkPromise (Nat.max (settles_at p) (settles_at q)) (Fulfilled (a :: l))
      | Fulfilled _, Rejected e => mkPromise (settles_at q) (Rejected e)
      | Rejected e, Fulfilled _ => mkPromise (settles_at p) (Rejected e)
      | Rejected e, Rejected e' =>
          if Nat.leb (settles_at p) (settles_at q)
          then mkPromise (settles_at p) (Rejected e)
          else mkPromise (settles_at q) (Rejected e')
      end
  end.

(** Truthiness of an optional member. *)
Definition present {A} (o : option A) : bool :=
  match o with Some _ => true | None => false end.

(** [status.toString()] *)
Definition ProviderStatus_toString (s : ProviderStatus) : string :=
  match s with
  | NotInstalled => "not-installed" | Installed => "installed"
  | Configuring => "configuring" | Configured => "configured"
  | Ready => "ready" | Starting => "starting" | Started => "started"
  | Stopping => "stopping" | Stopped => "stopped"
  | ErrorStatus => "error" | UnknownStatus => "unknown"
  end.

(** ** Projections *)

Definition getProviderContainerConnectionInfo (connection : ContainerProviderConnection)
  : ProviderContainerConnectionInfo :=
  {| ci_name := conn_name connection;
     ci_status := conn_status connection;
     ci_type := conn_type connection;
     ci_socketPath := conn_socketPath connection;
     ci_lifecycleMethods :=
       match conn_lifecycle connection with
       | Some lifecycle =>
           Some ((if present (cl_delete lifecycle) then [MDelete] else [])
                 ++ (if present (cl_start lifecycle) then [MStart] else [])
                 ++ (if present (cl_stop lifecycle) then [MStop] else []))
       | None => None
       end |}.

Definition getProviderInfo (r : Registry) (provider : ProviderImpl) : ProviderInfo :=
  {| pi_id := id provider;
     pi_internalId := internalId provider;
     pi_name := name provider;
     pi_containerConnections :=
       map getProviderContainerConnectionInfo (containerConnections provider);
     pi_kubernetesConnections :=
       map (fun connection =>
              {| ki_name := kube_name connection;
                 ki_status := kube_status connection;
                 ki_apiURL := kube_apiURL connection |})
           (kubernetesConnections provider);
     pi_status := status provider;
     pi_proxySettings := proxy provider;
     pi_containerProviderConnectionCreation :=
       present (containerProviderConnectionFactory provider);
     pi_links := links provider;
     pi_detectionChecks := detectionChecks provider;
     pi_images := images provider;
     pi_version := version provider;
     pi_installationSupport :=
       bool_decide (is_Some (providerInstallations r !! internalId provider));
     pi_updateInfo := upd_version <$> providerUpdates r !! internalId provider;
     pi_lifecycleMethods :=
       if bool_decide (is_Some (providerLifecycles r !! internalId provider))
       then Some [MStart; MStop] else None |}.

(** [this.listeners.forEach(listener => listener(event, this.getProviderInfo(provider)))] *)
Definition notifyListeners (event : string) (provider : ProviderImpl) : M unit :=
  r <- read ;;
  tell (map (fun l => ProviderEvent l event (getProviderInfo r provider)) (listeners r)).

Definition notifyLifecycleListeners (event : string) (provider : ProviderImpl)
    (lifecycle : ProviderLifecycle) : M unit :=
  r <- read ;;
  tell (map (fun l => LifecycleEvent l event (getProviderInfo r provider) lifecycle)
            (lifecycleListeners r)).

Definition notifyContainerConnectionListeners (event : string) (provider : ProviderImpl)
    (connection : ContainerProviderConnection) : M unit :=
  r <- read ;;
  tell (map (fun l => ContainerConnectionEvent l event (getProviderInfo r provider)
                        (getProviderContainerConnectionInfo connection))
            (containerConnectionLifecycleListeners r)).

(** ** The status reconciliation timer *)

(** The body of the callback of [forEach] in the [setInterval] handler, run
    at instant [now] for one key. *)
Definition reconcile (now : nat) (providerKey : string) : M unit :=
  r <- read ;;
  match JSMap.get providerKey (providers r), providerLifecycles r !! providerKey with
  | Some provider, Some providerLifecycle =>
      let status := lc_status providerLifecycle now in
      if bool_decide (Some status = providerStatuses r !! providerKey) then ret tt
      else
        let provider := updateStatus status provider in
        modify (fun r => with_providers (JSMap.set providerKey provider (providers r)) r) ;;
        notifyListeners "provider:update-status" provider ;;
        modify (fun r => with_providerStatuses (<[providerKey := status]> (providerStatuses r)) r)
  | _, _ => ret tt
  end.

(** One firing of the [setInterval] handler. *)
Definition tick (now : nat) : M unit :=
  r <- read ;;
  forEach (JSMap.keys (providers r)) (reconcile now).

(** ** Creation and disposal of providers *)

Definition createProvider (providerOptions : ProviderOptions) : M ProviderImpl :=
  r <- read ;;
  let id := pretty (count r) in
  let providerImpl := newProviderImpl id providerOptions in
  modify (fun r => with_count (js_incr (count r)) r) ;;
  modify (fun r => with_providers (JSMap.set id providerImpl (providers r)) r) ;;
  notifyListeners "provider:create" providerImpl ;;
  let trackOpts :=
    [("name", opt_name providerOptions);
     ("status", ProviderStatus_toString (opt_status providerOptions))]
    ++ match opt_version providerOptions with
       | Some v => if String.eqb v "" then [] else [("version", v)]
       | None => []
       end in
  tell [TelemetryTrack "createProvider" trackOpts] ;;
  tell [ApiSend "provider-create" id] ;;
  ret providerImpl.

Definition disposeProvider (providerImpl : ProviderImpl) : M unit :=
  modify (fun r => with_providers (JSMap.delete (internalId providerImpl) (providers r)) r) ;;
  notifyListeners "provider:delete" providerImpl ;;
  tell [ApiSend "provider-delete" (id providerImpl)].

(** ** Registration of capabilities *)

(** [Disposable.create(func)]: an object whose [dispose()] runs [func]. *)
Record Disposable := { dispose : M unit }.

Definition registerLifecycle (providerImpl : ProviderImpl) (lifecycle : ProviderLifecycle)
  : M Disposable :=
  modify (fun r => with_providerLifecycles
            (<[internalId providerImpl := lifecycle]> (providerLifecycles r)) r) ;;
  modify (fun r => with_providerLifecycleContexts
            (<[internalId providerImpl := NewLifecycleContextImpl]>
               (providerLifecycleContexts r)) r) ;;
  notifyLifecycleListeners "provider:register-lifecycle" providerImpl lifecycle ;;
  ret {| dispose :=
           modify (fun r => with_providerLifecycles
                     (delete (internalId providerImpl) (providerLifecycles r)) r) ;;
           modify (fun r => with_providerLifecycleContexts
                     (delete (internalId providerImpl) (providerLifecycleContexts r)) r) ;;
           notifyLifecycleListeners "provider:removal-lifecycle" providerImpl lifecycle |}.

Definition registerInstallation (providerImpl : ProviderImpl)
    (installation : ProviderInstallation) : M Disposable :=
  modify (fun r => with_providerInstallations
            (<[internalId providerImpl := installation]> (providerInstallations r)) r) ;;
  ret {| dispose :=
           modify (fun r => with_providerInstallations
                     (delete (internalId providerImpl) (providerInstallations r)) r) |}.

Definition registerUpdate (providerImpl : ProviderImpl) (upd : ProviderUpdate)
  : M Disposable :=
  modify (fun r => with_providerUpdates
            (<[internalId providerImpl := upd]> (providerUpdates r)) r) ;;
  ret {| dispose :=
           modify (fun r => with_providerUpdates
                     (delete (internalId providerImpl) (providerUpdates r)) r) |}.

Definition registerAutostart (providerImpl : ProviderImpl) (autostart : ProviderAutostart)
  : M Disposable :=
  modify (fun r => with_providerAutostarts
            (JSMap.set (internalId providerImpl) autostart (providerAutostarts r)) r) ;;
  ret {| dispose :=
           modify (fun r => with_providerAutostarts
                     (JSMap.delete (internalId providerImpl) (providerAutostarts r)) r) |}.

(** ** Listeners *)

Definition addProviderListener (listener : Listener) : M unit :=
  modify (fun r => with_listeners (listeners r ++ [listener]) r).

Definition removeProviderListener (listener : Listener) : M unit :=
  r <- read ;;
  match indexOf (listeners r) listener with
  | Some index => modify (fun r => with_listeners (splice1 index (listeners r)) r)
  | None => ret tt
  end.

Definition addProviderLifecycleListener (listener : Listener) : M unit :=
  modify (fun r => with_lifecycleListeners (lifecycleListeners r ++ [listener]) r).

Definition removeProviderLifecycleListener (listener : Listener) : M unit :=
  r <- read ;;
  match indexOf (lifecycleListeners r) listener with
  | Some index =>
      modify (fun r => with_lifecycleListeners (splice1 index (lifecycleListeners r)) r)
  | None => ret tt
  end.

Definition addProviderContainerConnectionLifecycleListener (listener : Listener) : M unit :=
  modify (fun r => with_containerConnectionLifecycleListeners
            (containerConnectionLifecycleListeners r ++ [listener]) r).

(** The index is looked up in [containerConnectionLifecycleListeners]; the
    splice is applied to [lifecycleListeners]. *)
Definition removeProviderContainerConnectionLifecycleListener (listener : Listener) : M unit :=
  r <- read ;;
  match indexOf (containerConnectionLifecycleListeners r) listener with
  | Some index =>
      modify (fun r => with_lifecycleListeners (splice1 index (lifecycleListeners r)) r)
  | None => ret tt
  end.

(** ** Lookup helpers *)

Definition getMatchingProviderLifecycle (providerId : string) : M ProviderLifecycle :=
  r <- read ;;
  match providerLifecycles r !! providerId with
  | Some providerLifecycle => ret providerLifecycle
  | None => throwError ("no provider lifecycle matching provider id " +:+ providerId)
  end.

Definition getMatchingProvider (providerId : string) : M ProviderImpl :=
  r <- read ;;
  match JSMap.get providerId (providers r) with
  | Some provider => ret provider
  | None => throwError ("no provider matching provider id " +:+ providerId)
  end.

Definition getMatchingLifecycleContext (providerId : string) : M LifecycleContextImpl :=
  r <- read ;;
  match providerLifecycleContexts r !! providerId with
  | Some context => ret context
  | None => throwError ("no lifecycle context matching provider id " +:+ providerId)
  end.

Definition getMatchingContainerConnectionFromProvider (internalProviderId : string)
    (providerContainerConnectionInfo : ProviderContainerConnectionInfo)
  : M ContainerProviderConnection :=
  provider <- getMatchingProvider internalProviderId ;;
  match find (fun connection =>
                String.eqb (conn_socketPath connection)
                           (ci_socketPath providerContainerConnectionInfo))
             (containerConnections provider) with
  | Some containerConnection => ret containerConnection
  | None =>
      throwError ("no container connection matching provider id " +:+ internalProviderId)
  end.

Definition getMatchingContainerLifecycleContext (providerId : string)
    (providerContainerConnectionInfo : ProviderContainerConnectionInfo)
  : M LifecycleContextImpl :=
  connection <- getMatchingContainerConnectionFromProvider
                  providerId providerContainerConnectionInfo ;;
  r <- read ;;
  match connectionLifecycleContexts r !! conn_ref connection with
  | Some context => ret context
  | None => throwError "The connection does not have context to start"
  end.

Definition getProviderLifecycle (r : Registry) (providerInternalId : string)
  : option ProviderLifecycle :=
  providerLifecycles r !! providerInternalId.

(** ** Suspended calls

    An [await] suspends the call until the promise settles, and the
    registry goes on meanwhile: its timer fires and other methods are
    called. The three methods of the provider lifecycle read the registry
    again once they resume, so what ran meanwhile is an argument of their
    model: the runs of the timer handler and of other methods, one per turn
    of the event loop, in order. What such a run returns or throws goes to
    its own caller. A lifecycle method that throws instead of returning a
    promise is a rejected promise with nothing run meanwhile. *)
Definition Interleaving := list (M unit).

(** A run on behalf of another caller. *)
Definition detached (run : M unit) : M unit := fun r =>
  let '(_, r1, t1) := run r in (Normal tt, r1, t1).

(** The provider is an object, which the timer handler changes in place
    ([provider.updateStatus]); the handler reaches it through
    [this.providers]. The suspended call holds the same object: after each
    run it is as the registry has it under its [internalId], and from the
    moment it is disposed, out of reach of the registry, it stays as it
    is. *)
Fixpoint suspended (meanwhile : Interleaving) (provider : ProviderImpl) : M ProviderImpl :=
  match meanwhile with
  | [] => ret provider
  | run :: rest =>
      detached run ;;
      r <- read ;;
      suspended rest (default provider (JSMap.get (internalId provider) (providers r)))
  end.

(** ** Provider lifecycle *)

Definition intializeProviderLifecycle (meanwhile : Interleaving) (providerId : string)
  : M unit :=
  provider <- getMatchingProvider providerId ;;
  providerLifecycle <- getMatchingProviderLifecycle providerId ;;
  context <- getMatchingLifecycleContext providerId ;;
  match lc_initialize providerLifecycle with
  | None => ret tt
  | Some initialize =>
      notifyLifecycleListeners "provider:before-initialize-lifecycle" provider providerLifecycle ;;
      tell [CallLifecycleInitialize providerLifecycle context] ;;
      provider <- suspended meanwhile provider ;;
      await (initialize context) ;;
      notifyLifecycleListeners "provider:after-initialize-lifecycle" provider providerLifecycle
  end.

Definition startProviderLifecycle (meanwhile : Interleaving) (providerId : string)
  : M unit :=
  provider <- getMatchingProvider providerId ;;
  providerLifecycle <- getMatchingProviderLifecycle providerId ;;
  context <- getMatchingLifecycleContext providerId ;;
  notifyLifecycleListeners "provider:before-start-lifecycle" provider providerLifecycle ;;
  tell [CallLifecycleStart providerLifecycle context] ;;
  provider <- suspended meanwhile provider ;;
  await (lc_start providerLifecycle context) ;;
  notifyLifecycleListeners "provider:after-start-lifecycle" provider providerLifecycle.

Definition stopProviderLifecycle (meanwhile : Interleaving) (providerId : string)
  : M unit :=
  provider <- getMatchingProvider providerId ;;
  providerLifecycle <- getMatchingProviderLifecycle providerId ;;
  context <- getMatchingLifecycleContext providerId ;;
  notifyLifecycleListeners "provider:before-stop-lifecycle" provider providerLifecycle ;;
  tell [CallLifecycleStop providerLifecycle context] ;;
  provider <- suspended meanwhile provider ;;
  await (lc_stop providerLifecycle context) ;;
  notifyLifecycleListeners "provider:after-stop-lifecycle" provider providerLifecycle.

(** ** Autostart *)

(** [autostartValues.map(autoStart => autoStart.start(new LoggerImpl()))]:
    the calls are made in order, before any promise is awaited; a call that
    throws ends the [map], and the elements after it are not visited. *)
Fixpoint startAll (autostartValues : list ProviderAutostart) : M (list (Promise unit)) :=
  match autostartValues with
  | [] => ret []
  | autoStart :: rest =>
      tell [CallAutostart autoStart NewLoggerImpl] ;;
      promise <- match autostart_start autoStart NewLoggerImpl with
                 | Normal promise => ret promise
                 | Throw e => throw e
                 end ;;
      promises <- startAll rest ;;
      ret (promise :: promises)
  end.

(** [runAutostart] is an [async] method: what its body throws is the
    rejection of the promise it returns. *)
Definition runAutostart : M (list unit) :=
  r <- read ;;
  let autostartValues := JSMap.values (providerAutostarts r) in
  promises <- startAll autostartValues ;;
  await (Promise_all promises).

(** ** Pre-flight checks *)

(** The [description] computed in the [catch] clause. *)
Definition describeError (err : JsValue) : option string :=
  match err with
  | JsError message => Some message
  | JsObject toString => Some toString
  | JsNull => None
  | JsPrimitive => Some "unknown error"
  end.

(** The [for (const check of checks)] loop; a [return false] in its body
    leaves the loop. [statusCallback] is an observer: its calls are recorded
    in the trace. *)
Fixpoint runChecks (checks : list InstallCheck) : M bool :=
  match checks with
  | [] => ret true
  | check :: rest =>
      tell [StartCheck (title check)] ;;
      goOn <- try_catch
        (tell [CallExecute check] ;;
         checkResult <- await (execute check) ;;
         tell [EndCheck (title check) (successful checkResult)
                 (description checkResult) (docLinks checkResult)] ;;
         ret (successful checkResult))
        (fun err =>
           tell [ConsoleError err] ;;
           tell [EndCheck (title check) false (describeError err) None] ;;
           ret false) ;;
      if goOn : bool then runChecks rest else ret false
  end.

(** The union [ProviderInstallation | ProviderUpdate] of [installOrUpdate]. *)
Inductive InstallOrUpdate :=
| AnInstallation (installation : ProviderInstallation)
| AnUpdate (upd : ProviderUpdate).

Definition preflightChecks (installOrUpdate : InstallOrUpdate) : option (list InstallCheck) :=
  match installOrUpdate with
  | AnInstallation installation => inst_preflightChecks installation
  | AnUpdate upd => upd_preflightChecks upd
  end.

Definition runPreflightChecks (providerInternalId : string) (runUpdateChecks : bool)
  : M bool :=
  r <- read ;;
  let installOrUpdate :=
    if runUpdateChecks
    then AnUpdate <$> providerUpdates r !! providerInternalId
    else AnInstallation <$> providerInstallations r !! providerInternalId in
  match installOrUpdate with
  | None => throwError ("No matching installation for provider " +:+ providerInternalId)
  | Some installOrUpdate =>
      match preflightChecks installOrUpdate with
      | None => ret false
      | Some checks => runChecks checks
      end
  end.

(** ** Install, update, start, initialize *)

Definition installProvider (providerInternalId : string) : M unit :=
  provider <- getMatchingProvider providerInternalId ;;
  r <- read ;;
  match providerInstallations r !! providerInternalId with
  | None => throwError ("No matching installation for provider " +:+ internalId provider)
  | Some providerInstall =>
      tell [TelemetryTrack "installProvider" [("name", name provider)]] ;;
      await (install providerInstall NewLoggerImpl)
  end.

Definition updateProvider (providerInternalId : string) : M unit :=
  provider <- getMatchingProvider providerInternalId ;;
  r <- read ;;
  match providerUpdates r !! providerInternalId with
  | None => throwError ("No matching update for provider " +:+ internalId provider)
  | Some providerUpdate =>
      tell [TelemetryTrack "updateProvider" [("name", name provider)]] ;;
      await (update providerUpdate NewLoggerImpl)
  end.

(** The branch of [startProvider] taken when no lifecycle is attached. *)
Definition startFirstContainerConnection (provider : ProviderImpl) : M unit :=
  match containerConnections provider with
  | connection :: _ =>
      match conn_lifecycle connection ≫= cl_start with
      | None => throwError "The container connection does not support start lifecycle"
      | Some start =>
          r <- read ;;
          match connectionLifecycleContexts r !! conn_ref connection with
          | None => throwError "The connection does not have context to start"
          | Some context =>
              tell [CallConnectionStart connection context] ;;
              await (start context)
          end
      end
  | [] => throwError "No container connection found for provider"
  end.

(** [meanwhile] is what runs while [startProviderLifecycle] is suspended. *)
Definition startProvider (meanwhile : Interleaving) (providerInternalId : string)
  : M unit :=
  provider <- getMatchingProvider providerInternalId ;;
  r <- read ;;
  if bool_decide (is_Some (providerLifecycles r !! providerInternalId))
  then startProviderLifecycle meanwhile providerInternalId
  else startFirstContainerConnection provider.

(** [meanwhile] is what runs while [intializeProviderLifecycle] is
    suspended. *)
Definition initializeProvider (meanwhile : Interleaving) (providerInternalId : string)
  : M unit :=
  provider <- getMatchingProvider providerInternalId ;;
  r <- read ;;
  if present (providerLifecycles r !! providerInternalId ≫= lc_initialize)
  then intializeProviderLifecycle meanwhile providerInternalId
  else
    match containerProviderConnectionFactory provider with
    | Some factory =>
        tell [TelemetryTrack "initializeProvider" [("name", name provider)]] ;;
        tell [CallFactoryInitialize factory] ;;
        await (factory_initialize factory)
    | None => throwError "No initialize implementation found for this provider"
    end.

(** ** Container connections *)

Definition createProviderConnection (internalProviderId : string)
    (params : list (string * string)) : M unit :=
  provider <- getMatchingProvider internalProviderId ;;
  match containerProviderConnectionFactory provider with
  | None => throwError "The provider does not support container connection creation"
  | Some factory => await (factory_create factory params)
  end.

Definition startProviderConnection (internalProviderId : string)
    (providerContainerConnectionInfo : ProviderContainerConnectionInfo) : M unit :=
  connection <- getMatchingContainerConnectionFromProvider
                  internalProviderId providerContainerConnectionInfo ;;
  match conn_lifecycle connection ≫= cl_start with
  | None => throwError "The container connection does not support start lifecycle"
  | Some start =>
      r <- read ;;
      match connectionLifecycleContexts r !! conn_ref connection with
      | None => throwError "The connection does not have context to start"
      | Some context =>
          tell [CallConnectionStart connection context] ;;
          await (start context)
      end
  end.

Definition stopProviderConnection (internalProviderId : string)
    (providerContainerConnectionInfo : ProviderContainerConnectionInfo) : M unit :=
  connection <- getMatchingContainerConnectionFromProvider
                  internalProviderId providerContainerConnectionInfo ;;
  match conn_lifecycle connection ≫= cl_stop with
  | None => throwError "The container connection does not support stop lifecycle"
  | Some stop =>
      r <- read ;;
      match connectionLifecycleContexts r !! conn_ref connection with
      | None => throwError "The connection does not have context to start"
      | Some context =>
          tell [CallConnectionStop connection context] ;;
          await (stop context)
      end
  end.

Definition deleteProviderConnection (internalProviderId : string)
    (providerContainerConnectionInfo : ProviderContainerConnectionInfo) : M unit :=
  connection <- getMatchingContainerConnectionFromProvider
                  internalProviderId providerContainerConnectionInfo ;;
  match conn_lifecycle connection ≫= cl_delete with
  | None => throwError "The container connection does not support delete lifecycle"
  | Some deletion =>
      tell [TelemetryTrack "deleteProviderConnection"
              [("name", ci_name providerContainerConnectionInfo)]] ;;
      tell [CallConnectionDelete connection] ;;
      await deletion
  end.

Definition onDidRegisterContainerConnection (provider : ProviderImpl)
    (containerProviderConnection : ContainerProviderConnection) : M unit :=
  modify (fun r => with_connectionLifecycleContexts
            (<[conn_ref containerProviderConnection := NewLifecycleContextImpl]>
               (connectionLifecycleContexts r)) r) ;;
  notifyContainerConnectionListeners "provider-container-connection:register"
    provider containerProviderConnection.

Definition onDidChangeContainerProviderConnectionStatus (provider : ProviderImpl)
    (containerConnection : ContainerProviderConnection) : M unit :=
  notifyContainerConnectionListeners "provider-container-connection:update-status"
    provider containerConnection.

Definition onDidUnregisterContainerConnection (provider : ProviderImpl)
    (containerConnection : ContainerProviderConnection) : M unit :=
  notifyContainerConnectionListeners "provider-container-connection:unregister"
    provider containerConnection.

(** ** Provider descriptors *)

(** [xs.sort(compareFn)]: the sort of the language is stable; for a
    consistent comparator its result is the one of a stable insertion
    sort. *)
Fixpoint sort_insert {A} (compareFn : A -> A -> Z) (x : A) (xs : list A) : list A :=
  match xs with
  | [] => [x]
  | y :: xs' =>
      if (compareFn x y <=? 0)%Z then x :: y :: xs'
      else y :: sort_insert compareFn x xs'
  end.

Definition Array_sort {A} (compareFn : A -> A -> Z) (xs : list A) : list A :=
  foldr (sort_insert compareFn) [] xs.

Section ProviderInfos.
(** [String.prototype.localeCompare]: the collation of the host locale. *)
Variable localeCompare : string -> string -> Z.

Definition getProviderInfos (r : Registry) : list ProviderInfo :=
  Array_sort
    (fun provider1 provider2 => localeCompare (pi_name provider2) (pi_name provider1))
    (map (getProviderInfo r) (JSMap.values (providers r))).
End ProviderInfos.

(** * Vocabulary of the properties *)

(** ** Pre-flight checks *)

(** The capability that [runPreflightChecks] reads [preflightChecks] from. *)
Definition selectedCapability (r : Registry) (providerInternalId : string)
    (runUpdateChecks : bool) : option InstallOrUpdate :=
  if runUpdateChecks
  then AnUpdate <$> providerUpdates r !! providerInternalId
  else AnInstallation <$> providerInstallations r !! providerInternalId.

(** A check signals success when [execute()] resolves to a result whose
    [successful] is true. *)
Definition signalsSuccess (check : InstallCheck) : bool :=
  match outcome (execute check) with
  | Fulfilled checkResult => successful checkResult
  | Rejected _ => false
  end.

(** What the status callback and the check see when one check is run. *)
Definition report (check : InstallCheck) : list Event :=
  StartCheck (title check) :: CallExecute check ::
  match outcome (execute check) with
  | Fulfilled checkResult =>
      [EndCheck (title check) (successful checkResult)
         (description checkResult) (docLinks checkResult)]
  | Rejected err =>
      [ConsoleError err; EndCheck (title check) false (describeError err) None]
  end.

(** The checks that are run: all of them up to the first one that does not
    signal success, that one included. *)
Fixpoint executed (checks : list InstallCheck) : list InstallCheck :=
  match checks with
  | [] => []
  | check :: rest => check :: (if signalsSuccess check then executed rest else [])
  end.

(** ** Awaited calls *)

(** How an awaited call completes. *)
Definition settle (p : Promise unit) : Completion unit :=
  match outcome p with
  | Fulfilled _ => Normal tt
  | Rejected e => Throw e
  end.

(** The predicate of [containerConnections.find]. *)
Definition matchesEndpoint (info : ProviderContainerConnectionInfo)
    (connection : ContainerProviderConnection) : bool :=
  String.eqb (conn_socketPath connection) (ci_socketPath info).

(** ** Autostart *)





(** The capabilities whose [start] is called: all of them up to the first
    one whose [start] throws, that one included. *)
Fixpoint started (autostartValues : list ProviderAutostart) : list ProviderAutostart :=
  match autostartValues with
  | [] => []
  | autoStart :: rest =>
      autoStart :: match autostart_start autoStart NewLoggerImpl with
                   | Normal _ => started rest
                   | Throw _ => []
                   end
  end.

(** The promises handed to [Promise.all], when no [start] throws. *)
Fixpoint startPromises (autostartValues : list ProviderAutostart)
  : Completion (list (Promise unit)) :=
  match autostartValues with
  | [] => Normal []
  | autoStart :: rest =>
      match autostart_start autoStart NewLoggerImpl with
      | Normal promise =>
          match startPromises rest with
          | Normal promises => Normal (promise :: promises)
          | Throw e => Throw e
          end
      | Throw e => Throw e
      end
  end.

(** ** Sorting *)

(** [x] may stand before [y] in an array sorted with [compareFn]. *)
Definition inOrder {A} (compareFn : A -> A -> Z) (x y : A) : Prop :=
  (compareFn x y <= 0)%Z.

(** [provider1] may stand before [provider2] in descending order of names:
    the name of [provider2] is not greater than the name of [provider1]. *)
Definition descending (localeCompare : string -> string -> Z)
    (provider1 provider2 : ProviderInfo) : Prop :=
  (localeCompare (pi_name provider2) (pi_name provider1) <= 0)%Z.

(** ** Frames *)

(** Method [m] leaves [field] of the registry as it was. *)
Definition preserves {X A} (field : Registry -> X) (m : M A) : Prop :=
  forall r, field (final (m r)) = field r.

(** ** Sessions *)

(** A call of a public method of the registry. *)
Inductive Call :=
| DoCreateProvider (providerOptions : ProviderOptions)
| DoDisposeProvider (providerImpl : ProviderImpl)
| DoRegisterLifecycle (providerImpl : ProviderImpl) (lifecycle : ProviderLifecycle)
| DoRegisterAutostart (providerImpl : ProviderImpl) (autostart : ProviderAutostart)
| DoStartProvider (providerInternalId : string)
| DoTick (now : nat).

(** One call; the provider it creates, if any. *)
Definition perform (c : Call) : M (option ProviderImpl) :=
  match c with
  | DoCreateProvider providerOptions =>
      providerImpl <- createProvider providerOptions ;; ret (Some providerImpl)
  | DoDisposeProvider providerImpl => disposeProvider providerImpl ;; ret None
  | DoRegisterLifecycle providerImpl lifecycle =>
      registerLifecycle providerImpl lifecycle ;; ret None
  | DoRegisterAutostart providerImpl autostart =>
      registerAutostart providerImpl autostart ;; ret None
  | DoStartProvider providerInternalId => startProvider [] providerInternalId ;; ret None
  | DoTick now => tick now ;; ret None
  end.

(** A sequence of calls, each one made when the one before it is over; a
    call that throws leaves the registry as it is at the throw and the
    session goes on. Returns the final registry and the
    providers created, in order of creation. *)
Fixpoint session (calls : list Call) (r : Registry) : Registry * list ProviderImpl :=
  match calls with
  | [] => (r, [])
  | c :: rest =>
      let run := perform c r in
      let '(r', created) := session rest (final run) in
      (r', match result run with
           | Normal (Some providerImpl) => providerImpl :: created
           | _ => created
           end)
  end.

(** The number of [createProvider] calls of a session. *)
Fixpoint creations (calls : list Call) : nat :=
  match calls with
  | [] => 0
  | DoCreateProvider _ :: rest => S (creations rest)
  | _ :: rest => creations rest
  end.

(** ** Status reconciliation *)

(** The registry as [createProvider] builds it: one entry per key, each
    provider stored under its own [internalId]. *)
Definition wellFormed (r : Registry) : Prop :=
  List.NoDup (JSMap.keys (providers r))
  /\ forall k p, JSMap.get k (providers r) = Some p -> internalId p = k.

(** The [provider:update-status] notifications about provider [k] in a
    trace. *)
Definition isStatusUpdate (k : string) (ev : Event) : bool :=
  match ev with
  | ProviderEvent _ event info =>
      String.eqb event "provider:update-status" && String.eqb (pi_internalId info) k
  | _ => false
  end.

Definition statusUpdates (k : string) (t : list Event) : list Event :=
  List.filter (isStatusUpdate k) t.

(** One [provider:update-status] notification per listener. *)
Definition statusUpdateEvents (r : Registry) (provider : ProviderImpl) : list Event :=
  map (fun l => ProviderEvent l "provider:update-status" (getProviderInfo r provider))
      (listeners r).

(** [reconcile] as a function of the registry. *)
Definition reconciled (now : nat) (key : string) (r : Registry) : Registry * list Event :=
  match JSMap.get key (providers r), providerLifecycles r !! key with
  | Some provider, Some lifecycle =>
      let status := lc_status lifecycle now in
      if bool_decide (Some status = providerStatuses r !! key) then (r, [])
      else
        let provider := updateStatus status provider in
        let r1 := with_providers (JSMap.set key provider (providers r)) r in
        (with_providerStatuses (<[key := status]> (providerStatuses r1)) r1,
         statusUpdateEvents r1 provider)
  | _, _ => (r, [])
  end.

(** The [forEach] of the timer handler as a function of the registry. *)
Fixpoint reconciledAll (now : nat) (keys : list string) (r : Registry)
  : Registry * list Event :=
  match keys with
  | [] => (r, [])
  | key :: rest =>
      let '(r1, t1) := reconciled now key r in
      let '(r2, t2) := reconciledAll now rest r1 in
      (r2, t1 ++ t2)
  end.

(** Every tracked provider is stored under its own [internalId]. *)
Definition idsOk (r : Registry) : Prop :=
  forall k p, JSMap.get k (providers r) = Some p -> internalId p = k.

(** What [getProviderInfo] and the notifications read besides the provider. *)
Definition sameCapabilities (r r' : Registry) : Prop :=
  providerLifecycles r' = providerLifecycles r
  /\ providerInstallations r' = providerInstallations r
  /\ providerUpdates r' = providerUpdates r
  /\ listeners r' = listeners r.

(** What one pass over provider [k] does, from registry [r] to registry
    [r1] with trace [t]: nothing when the polled status is the recorded
    one; otherwise the status is stored in the provider, every listener is
    notified once, and the status is recorded. *)
Definition reconcilesAt (now : nat) (k : string) (provider : ProviderImpl)
    (lifecycle : ProviderLifecycle) (r r1 : Registry) (t : list Event) : Prop :=
  let status := lc_status lifecycle now in
  if bool_decide (Some status = providerStatuses r !! k)
  then JSMap.get k (providers r1) = Some provider
       /\ providerStatuses r1 !! k = providerStatuses r !! k
       /\ statusUpdates k t = []
  else JSMap.get k (providers r1) = Some (updateStatus status provider)
       /\ providerStatuses r1 !! k = Some status
       /\ statusUpdates k t = statusUpdateEvents r (updateStatus status provider).

(** ** Concrete registries *)

Definition podmanOptions : ProviderOptions :=
  {| opt_id := "podman"; opt_name := "Podman"; opt_status := Installed;
     opt_version := Some "4.3.0"; opt_images := None; opt_links := [];
     opt_detectionChecks := [] |}.

Definition dockerOptions : ProviderOptions :=
  {| opt_id := "docker"; opt_name := "Docker"; opt_status := Installed;
     opt_version := None; opt_images := None; opt_links := [];
     opt_detectionChecks := [] |}.

Definition resolves : Promise unit := mkPromise 1 (Fulfilled tt).
Definition fails (message : string) : Promise unit :=
  mkPromise 1 (Rejected (JsError message)).

(** A lifecycle whose [status()] answers "ready" up to instant 2 and
    "started" from instant 3 on. *)
Definition machineLifecycle : ProviderLifecycle :=
  {| lc_status := fun instant => if Nat.leb instant 2 then Ready else Started;
     lc_initialize := None;
     lc_start := fun _ => resolves;
     lc_stop := fun _ => resolves |}.

(** A new registry with one listener, one provider and its lifecycle. *)
Definition setUp : M ProviderImpl :=
  addProviderListener 7 ;;
  providerImpl <- createProvider podmanOptions ;;
  registerLifecycle providerImpl machineLifecycle ;;
  ret providerImpl.

Definition freshRegistry : Registry := final (setUp newProviderRegistry).

Definition podman : ProviderImpl := newProviderImpl "0" podmanOptions.

(** The same registry once the timer has fired at instant 0. *)
Definition observedRegistry : Registry := final (tick 0 freshRegistry).

(** [freshRegistry] with a lifecycle listener. *)
Definition listeningRegistry : Registry :=
  final (addProviderLifecycleListener 9 freshRegistry).

(** [machineLifecycle] with an [initialize] method. *)
Definition initializingLifecycle : ProviderLifecycle :=
  {| lc_status := lc_status machineLifecycle;
     lc_initialize := Some (fun _ => resolves);
     lc_start := lc_start machineLifecycle;
     lc_stop := lc_stop machineLifecycle |}.

(** [listeningRegistry] after the provider has registered
    [initializingLifecycle] instead. *)
Definition initializingRegistry : Registry :=
  final (registerLifecycle podman initializingLifecycle listeningRegistry).

(** A container connection with [start] and [delete] methods; [deletion] is
    what [delete()] returns. *)
Definition machine (deletion : Promise unit) : ContainerProviderConnection :=
  {| conn_ref := 1; conn_name := "podman-machine-default"; conn_type := "podman";
     conn_socketPath := "/run/podman.sock"; conn_status := ConnStarted;
     conn_lifecycle :=
       Some {| cl_start := Some (fun _ => resolves);
               cl_stop := None;
               cl_delete := Some deletion |} |}.

Definition withConnections (connections : list ContainerProviderConnection)
    (p : ProviderImpl) : ProviderImpl :=
  {| id := id p; internalId := internalId p; name := name p; status := status p;
     version := version p; images := images p; links := links p;
     detectionChecks := detectionChecks p; proxy := proxy p;
     containerConnections := connections;
     kubernetesConnections := kubernetesConnections p;
     containerProviderConnectionFactory := containerProviderConnectionFactory p |}.

(** A registry whose only provider has no lifecycle and has registered the
    connection [machine deletion]: the provider holds the connection in its
    [containerConnections] and has told the registry through
    [onDidRegisterContainerConnection]. *)
Definition connectionRegistry (deletion : Promise unit) : Registry :=
  let providerImpl := withConnections [machine deletion] podman in
  final ((createProvider podmanOptions ;;
          modify (fun r => with_providers
                    (JSMap.set "0" providerImpl (providers r)) r) ;;
          onDidRegisterContainerConnection providerImpl (machine deletion))
           newProviderRegistry).

Definition machineInfo (deletion : Promise unit) : ProviderContainerConnectionInfo :=
  getProviderContainerConnectionInfo (machine deletion).

Definition passingCheck (checkTitle : string) : InstallCheck :=
  {| title := checkTitle;
     execute := mkPromise 1 (Fulfilled {| successful := true; description := None;
                                          docLinks := None |}) |}.

Definition throwingCheck (checkTitle message : string) : InstallCheck :=
  {| title := checkTitle; execute := mkPromise 1 (Rejected (JsError message)) |}.

Definition threeChecks : list InstallCheck :=
  [passingCheck "cpu"; throwingCheck "memory" "not enough memory"; passingCheck "disk"].

Definition installation : ProviderInstallation :=
  {| inst_preflightChecks := Some threeChecks; install := fun _ => resolves |}.

Definition installRegistry : Registry :=
  final ((providerImpl <- createProvider podmanOptions ;;
          registerInstallation providerImpl installation) newProviderRegistry).

(** Two providers, created in ascending order of names. *)
Definition twoProviders : Registry :=
  final ((createProvider dockerOptions ;; createProvider podmanOptions)
           newProviderRegistry).

(** Comparison of strings by code units, as an instance of
    [localeCompare]. *)
Definition codeUnitCompare (a b : string) : Z :=
  match String.compare a b with
  | Lt => (-1)%Z
  | Eq => 0%Z
  | Gt => 1%Z
  end.




Definition createDisposeCreate : list Call :=
  [DoCreateProvider podmanOptions; DoDisposeProvider podman;
   DoCreateProvider dockerOptions; DoTick 0].

(** ** The handles returned by the registration methods *)

(** The [Disposable] built by [registerLifecycle]. *)
Definition lifecycleHandle (providerImpl : ProviderImpl) (lifecycle : ProviderLifecycle)
  : Disposable :=
  {| dispose :=
       modify (fun r => with_providerLifecycles
                 (delete (internalId providerImpl) (providerLifecycles r)) r) ;;
       modify (fun r => with_providerLifecycleContexts
                 (delete (internalId providerImpl) (providerLifecycleContexts r)) r) ;;
       notifyLifecycleListeners "provider:removal-lifecycle" providerImpl lifecycle |}.

(** The [Disposable] built by [registerInstallation]. *)
Definition installationHandle (providerImpl : ProviderImpl) : Disposable :=
  {| dispose :=
       modify (fun r => with_providerInstallations
                 (delete (internalId providerImpl) (providerInstallations r)) r) |}.

(** The [Disposable] built by [registerUpdate]. *)
Definition updateHandle (providerImpl : ProviderImpl) : Disposable :=
  {| dispose :=
       modify (fun r => with_providerUpdates
                 (delete (internalId providerImpl) (providerUpdates r)) r) |}.

(** The [Disposable] built by [registerAutostart]. *)
Definition autostartHandle (providerImpl : ProviderImpl) : Disposable :=
  {| dispose :=
       modify (fun r => with_providerAutostarts
                 (JSMap.delete (internalId providerImpl) (providerAutostarts r)) r) |}.

(** ** Reachable registries *)

(** A call of a method of the registry, the timer included; disposing a
    handle is a call of its own. *)
Inductive Method :=
| CreateProvider (providerOptions : ProviderOptions)
| DisposeProvider (providerImpl : ProviderImpl)
| RegisterLifecycle (providerImpl : ProviderImpl) (lifecycle : ProviderLifecycle)
| DisposeLifecycle (providerImpl : ProviderImpl) (lifecycle : ProviderLifecycle)
| RegisterInstallation (providerImpl : ProviderImpl) (installation : ProviderInstallation)
| DisposeInstallation (providerImpl : ProviderImpl)
| RegisterUpdate (providerImpl : ProviderImpl) (upd : ProviderUpdate)
| DisposeUpdate (providerImpl : ProviderImpl)
| RegisterAutostart (providerImpl : ProviderImpl) (autostart : ProviderAutostart)
| DisposeAutostart (providerImpl : ProviderImpl)
| AddProviderListener (listener : Listener)
| RemoveProviderListener (listener : Listener)
| AddProviderLifecycleListener (listener : Listener)
| RemoveProviderLifecycleListener (listener : Listener)
| AddProviderContainerConnectionLifecycleListener (listener : Listener)
| RemoveProviderContainerConnectionLifecycleListener (listener : Listener)
| IntializeProviderLifecycle (providerId : string)
| StartProviderLifecycle (providerId : string)
| StopProviderLifecycle (providerId : string)
| RunAutostart
| RunPreflightChecks (providerInternalId : string) (runUpdateChecks : bool)
| InstallProvider (providerInternalId : string)
| UpdateProvider (providerInternalId : string)
| StartProvider (providerInternalId : string)
| InitializeProvider (providerInternalId : string)
| CreateProviderConnection (internalProviderId : string) (params : list (string * string))
| StartProviderConnection (internalProviderId : string)
    (info : ProviderContainerConnectionInfo)
| StopProviderConnection (internalProviderId : string)
    (info : ProviderContainerConnectionInfo)
| DeleteProviderConnection (internalProviderId : string)
    (info : ProviderContainerConnectionInfo)
| OnDidRegisterContainerConnection (provider : ProviderImpl)
    (connection : ContainerProviderConnection)
| OnDidChangeContainerProviderConnectionStatus (provider : ProviderImpl)
    (connection : ContainerProviderConnection)
| OnDidUnregisterContainerConnection (provider : ProviderImpl)
    (connection : ContainerProviderConnection)
| Tick (now : nat).

(** The registry after a call, whether the call returns or throws. What runs
    while a call is suspended is a call of its own in the sequence. *)
Definition after (m : Method) (r : Registry) : Registry :=
  match m with
  | CreateProvider o => final (createProvider o r)
  | DisposeProvider p => final (disposeProvider p r)
  | RegisterLifecycle p lifecycle => final (registerLifecycle p lifecycle r)
  | DisposeLifecycle p lifecycle => final (dispose (lifecycleHandle p lifecycle) r)
  | RegisterInstallation p installation => final (registerInstallation p installation r)
  | DisposeInstallation p => final (dispose (installationHandle p) r)
  | RegisterUpdate p upd => final (registerUpdate p upd r)
  | DisposeUpdate p => final (dispose (updateHandle p) r)
  | RegisterAutostart p autostart => final (registerAutostart p autostart r)
  | DisposeAutostart p => final (dispose (autostartHandle p) r)
  | AddProviderListener l => final (addProviderListener l r)
  | RemoveProviderListener l => final (removeProviderListener l r)
  | AddProviderLifecycleListener l => final (addProviderLifecycleListener l r)
  | RemoveProviderLifecycleListener l => final (removeProviderLifecycleListener l r)
  | AddProviderContainerConnectionLifecycleListener l =>
      final (addProviderContainerConnectionLifecycleListener l r)
  | RemoveProviderContainerConnectionLifecycleListener l =>
      final (removeProviderContainerConnectionLifecycleListener l r)
  | IntializeProviderLifecycle i => final (intializeProviderLifecycle [] i r)
  | StartProviderLifecycle i => final (startProviderLifecycle [] i r)
  | StopProviderLifecycle i => final (stopProviderLifecycle [] i r)
  | RunAutostart => final (runAutostart r)
  | RunPreflightChecks i flag => final (runPreflightChecks i flag r)
  | InstallProvider i => final (installProvider i r)
  | UpdateProvider i => final (updateProvider i r)
  | StartProvider i => final (startProvider [] i r)
  | InitializeProvider i => final (initializeProvider [] i r)
  | CreateProviderConnection i params => final (createProviderConnection i params r)
  | StartProviderConnection i info => final (startProviderConnection i info r)
  | StopProviderConnection i info => final (stopProviderConnection i info r)
  | DeleteProviderConnection i info => final (deleteProviderConnection i info r)
  | OnDidRegisterContainerConnection p c =>
      final (onDidRegisterContainerConnection p c r)
  | OnDidChangeContainerProviderConnectionStatus p c =>
      final (onDidChangeContainerProviderConnectionStatus p c r)
  | OnDidUnregisterContainerConnection p c =>
      final (onDidUnregisterContainerConnection p c r)
  | Tick now => final (tick now r)
  end.

(** The registries that a new registry can become through its own methods.
    What a provider changes in itself (its status, its connections) happens
    outside the registry and touches neither keys nor [internalId]s. *)
Inductive reachable : Registry -> Prop :=
| reachable_new : reachable newProviderRegistry
| reachable_after (m : Method) (r : Registry) :
    reachable r -> reachable (after m r).

(** A lifecycle is registered for exactly the ids that have a lifecycle
    context. *)
Definition lifecyclesHaveContexts (r : Registry) : Prop :=
  forall k, is_Some (providerLifecycles r !! k) <-> is_Some (providerLifecycleContexts r !! k).

(** While the counter is exact, every tracked key is the decimal string of
    a number below the counter. *)
Definition keysBelowCount (r : Registry) : Prop :=
  (count r < 2 ^ 53)%N ->
  forall k, In k (JSMap.keys (providers r)) -> exists n, (n < count r)%N /\ k = pretty n.

(** ** Suspended calls *)

(** What a suspended call that holds [provider] finds when it resumes: the
    provider, the registry, and what the runs of [meanwhile] have shown to
    the outside. *)
Fixpoint interleaved (meanwhile : Interleaving) (provider : ProviderImpl) (r : Registry)
  : ProviderImpl * Registry * list Event :=
  match meanwhile with
  | [] => (provider, r, [])
  | run :: rest =>
      let r1 := final (run r) in
      let '(live, r2, t2) :=
        interleaved rest
          (default provider (JSMap.get (internalId provider) (providers r1))) r1 in
      (live, r2, trace (run r) ++ t2)
  end.

(** ** Notifications *)

(** [ev] is a call of the provider listener [l]. *)
Definition callsProviderListener (l : Listener) (ev : Event) : Prop :=
  match ev with
  | ProviderEvent l' _ _ => l' = l
  | _ => False
  end.

(** [ev] is a call of the lifecycle listener [l]. *)
Definition callsLifecycleListener (l : Listener) (ev : Event) : Prop :=
  match ev with
  | LifecycleEvent l' _ _ _ => l' = l
  | _ => False
  end.

(** The calls of [notifyListeners]. *)
Definition providerEvents (r : Registry) (event : string) (provider : ProviderImpl)
  : list Event :=
  map (fun l => ProviderEvent l event (getProviderInfo r provider)) (listeners r).

(** The calls of [notifyLifecycleListeners]. *)
Definition lifecycleEvents (r : Registry) (event : string) (provider : ProviderImpl)
    (lifecycle : ProviderLifecycle) : list Event :=
  map (fun l => LifecycleEvent l event (getProviderInfo r provider) lifecycle)
      (lifecycleListeners r).

(** The status recorded for [k] is the one its lifecycle answers at instant
    [now], if [k] is tracked and has a lifecycle. *)
Definition statusRecorded (now : nat) (k : string) (r : Registry) : Prop :=
  forall provider lifecycle,
    JSMap.get k (providers r) = Some provider ->
    providerLifecycles r !! k = Some lifecycle ->
    providerStatuses r !! k = Some (lc_status lifecycle now).

(** * The image registry

    [packages/main/src/plugin/image-registry.ts], class [ImageRegistry]: the
    registries (server, user, secret) that extensions register, and the
    credentials looked up for an image name. Its methods are functions from
    the state of the object to a result, the new state and the events sent
    to telemetry, to the API sender and to the three emitters. *)
Module ImageRegistry.

(** [containerDesktopAPI.Registry] *)
Record Registry := {
  source : string;
  serverUrl : string;
  username : string;
  secret : string;
}.

(** [containerDesktopAPI.RegistryCreateOptions] *)
Record RegistryCreateOptions := {
  opt_serverUrl : string;
  opt_username : string;
  opt_secret : string;
}.

(** [containerDesktopAPI.RegistryProvider]; [create] is taken to return a
    registry. *)
Record RegistryProvider := {
  provider_name : string;
  create : RegistryCreateOptions -> Registry;
}.

(** [Dockerode.AuthConfig], as far as it is filled in. *)
Record AuthConfig := {
  auth_username : string;
  auth_password : string;
  auth_serveraddress : string;
}.

Record State := {
  registries : list Registry;
  providers : JSMap.t RegistryProvider;
}.

Definition newImageRegistry : State := {| registries := []; providers := JSMap.empty |}.

Inductive Event :=
| Track (event hashField hash : string) (total : nat)
| Send (channel : string) (registry : Registry)
| Fire (emitter : string) (registry : Registry).

(** [s.split('/')] *)
Fixpoint split (s : string) : list string :=
  match s with
  | EmptyString => [EmptyString]
  | String c s' =>
      match split s' with
      | segment :: segments =>
          if Ascii.eqb c (Ascii.ascii_of_nat 47) then EmptyString :: segment :: segments
          else String c segment :: segments
      | [] => []
      end
  end.

Section Host.
(** [crypto.createHash('sha512').update(s).digest('hex')] and
    [String.prototype.toLowerCase], both supplied by the host. *)
Variable sha512hex : string -> string.
Variable toLowerCase : string -> string.

Definition getRegistryHash (url : string) : string := sha512hex url.

Definition getRegistries (s : State) : list Registry := registries s.

(** The server whose credentials an image name asks for. *)
Definition registryServer (imageName : string) : option string :=
  if present (String.index 0 "/" imageName) then
    if Nat.eqb (length (split imageName)) 2 then Some "docker.io"
    else if Nat.eqb (length (split imageName)) 3 then head (split imageName)
    else None
  else Some "docker.io".

Definition getAuthconfigForImage (imageName : string) (s : State) : option AuthConfig :=
  match registryServer imageName with
  | Some matchingUrl =>
      if String.eqb matchingUrl "" then None
      else
        match find (fun registry =>
                      String.eqb (toLowerCase (serverUrl registry)) (toLowerCase matchingUrl))
                   (getRegistries s) with
        | Some matchingRegistry =>
            let serveraddress := toLowerCase (serverUrl matchingRegistry) in
            let serveraddress :=
              if String.eqb serveraddress "docker.io"
              then "https://index.docker.io/v2/" else serveraddress in
            Some {| auth_username := username matchingRegistry;
                    auth_password := secret matchingRegistry;
                    auth_serveraddress := serveraddress |}
        | None => None
        end
  | None => None
  end.

(** The predicate of the [filter] of [unregisterRegistry]. *)
Definition kept (registry registryItem : Registry) : bool :=
  negb (String.eqb (serverUrl registryItem) (serverUrl registry))
  || negb (String.eqb (source registry) (source registryItem)).

Definition unregisterRegistry (registry : Registry) (s : State) : State * list Event :=
  let filtered := List.filter (kept registry) (registries s) in
  let changed := negb (Nat.eqb (length filtered) (length (registries s))) in
  let s' := if changed then {| registries := filtered; providers := providers s |} else s in
  (s',
   (if changed
    then [Fire "onDidUnregisterRegistry" registry; Send "registry-unregister" registry]
    else [])
   ++ [Track "unregisterRegistry" "serverUrl" (getRegistryHash (serverUrl registry))
         (length (registries s'))]).

(** [registerRegistry]; the handle it returns unregisters the registry it
    was given, so the handle is that registry. *)
Definition registerRegistry (registry : Registry) (s : State)
  : Registry * State * list Event :=
  let s' := {| registries := registries s ++ [registry]; providers := providers s |} in
  (registry, s',
   [Track "registerRegistry" "serverUrl" (getRegistryHash (serverUrl registry))
      (length (registries s'));
    Send "registry-register" registry;
    Fire "onDidRegisterRegistry" registry]).

Definition getProviderNames (s : State) : list string := JSMap.keys (providers s).

(** [registerRegistryProvider]; the handle deletes the provider's name. *)
Definition registerRegistryProvider (registryProvider : RegistryProvider) (s : State)
  : State :=
  {| registries := registries s;
     providers := JSMap.set (provider_name registryProvider) registryProvider (providers s) |}.

Definition unregisterRegistryProvider (registryProvider : RegistryProvider) (s : State)
  : State :=
  {| registries := registries s;
     providers := JSMap.delete (provider_name registryProvider) (providers s) |}.

Definition createRegistry (providerName : string)
    (registryCreateOptions : RegistryCreateOptions) (s : State)
  : Completion Registry * State * list Event :=
  match JSMap.get providerName (providers s) with
  | None => (Throw (JsError ("Provider " +:+ providerName +:+ " not found")), s, [])
  | Some provider =>
      match find (fun registry =>
                    String.eqb (serverUrl registry) (opt_serverUrl registryCreateOptions)
                    && String.eqb (source registry) providerName)
                 (registries s) with
      | Some _ =>
          (Throw (JsError ("Registry " +:+ opt_serverUrl registryCreateOptions
                           +:+ " already exists")), s, [])
      | None =>
          let registry := create provider registryCreateOptions in
          let '(handle, s', t) := registerRegistry registry s in
          (Normal handle, s',
           Track "createRegistry" "serverUrlHash"
             (getRegistryHash (opt_serverUrl registryCreateOptions))
             (length (registries s)) :: t)
      end
  end.

(** ** Registries as shared objects

    [updateRegistry] assigns to the object it finds in [this.registries] and
    freezes the object it is given. Whoever holds these objects sees both:
    the same object may be stored more than once, since [registerRegistry]
    appends what it is given, and the object given may be one of those
    stored. For this method the registries are therefore objects in a
    store, each with its fields and with the mark that [Object.freeze]
    leaves, and [this.registries] is the list of the references it
    holds. *)
Record Object := {
  content : Registry;
  frozen : bool;
}.

Record Store := {
  object : nat -> Object;
  held : list nat;
}.

(** What [getRegistries()] shows. *)
Definition contents (s : Store) : list Registry :=
  map (fun ref => content (object s ref)) (held s).

(** [ref.field = value], seen through every reference to the object. *)
Definition assign (ref : nat) (change : Object -> Object) (s : Store) : Store :=
  {| object := fun ref' => if Nat.eqb ref' ref then change (object s ref') else object s ref';
     held := held s |}.

Definition set_username (value : string) (o : Object) : Object :=
  {| content := {| source := source (content o); serverUrl := serverUrl (content o);
                   username := value; secret := secret (content o) |};
     frozen := frozen o |}.

Definition set_secret (value : string) (o : Object) : Object :=
  {| content := {| source := source (content o); serverUrl := serverUrl (content o);
                   username := username (content o); secret := value |};
     frozen := frozen o |}.

(** [Object.freeze(o)] *)
Definition freeze (o : Object) : Object := {| content := content o; frozen := true |}.

(** The body of a class is strict mode code: an assignment to a property of
    a frozen object throws a [TypeError], here with the message of V8. *)
Definition readOnlyProperty (property : string) : JsValue :=
  JsError ("Cannot assign to read only property '" +:+ property
           +:+ "' of object '#<Object>'").

(** The predicate of the [find] of [updateRegistry]: the first conjunct
    compares the url of the argument with itself. *)
Definition matchesForUpdate (registry existringRegistry : Registry) : bool :=
  String.eqb (serverUrl registry) (serverUrl registry)
  && String.eqb (source registry) (source existringRegistry).

Definition updateRegistry (registryUrl : string) (registry : nat) (s : Store)
  : Completion unit * Store * list Event :=
  match find (fun existringRegistry =>
                matchesForUpdate (content (object s registry))
                  (content (object s existringRegistry)))
             (held s) with
  | None => (Throw (JsError ("Registry " +:+ registryUrl +:+ " was not found")), s, [])
  | Some matchingRegistry =>
      if frozen (object s matchingRegistry) then (Throw (readOnlyProperty "username"), s, [])
      else
        let s1 := assign matchingRegistry
                    (set_username (username (content (object s registry)))) s in
        let s2 := assign matchingRegistry
                    (set_secret (secret (content (object s1 registry)))) s1 in
        let s3 := assign registry freeze s2 in
        (Normal tt, s3,
         [Track "updateRegistry" "serverUrl"
            (getRegistryHash (serverUrl (content (object s2 matchingRegistry))))
            (length (held s2));
          Send "registry-update" (content (object s2 registry));
          Fire "onDidUpdateRegistry" (content (object s3 registry))])
  end.
End Host.

End ImageRegistry.

(** * The CRC extension

    The extension for CRC (OpenShift Local): the lifecycle that its
    [activate] registers for its provider, and the two conversions of the
    status reported by the CRC daemon. *)

(** [convertToConnectionStatus(crcStatus?.CrcStatus)]; [None] stands for
    [undefined]. *)
Definition convertToConnectionStatus (crcStatus : option string)
  : ProviderConnectionStatus :=
  match crcStatus with
  | Some "Running" => ConnStarted
  | Some "Starting" => ConnStarting
  | Some "Stopping" => ConnStopping
  | Some "Stopped" => ConnStopped
  | Some "No Cluster" => ConnStopped
  | _ => ConnUnknown
  end.

(** [convertToProviderStatus(crcStatus?.CrcStatus)] *)
Definition convertToProviderStatus (crcStatus : option string) : ProviderStatus :=
  match crcStatus with
  | Some "Running" => Started
  | Some "Starting" => Starting
  | Some "Stopping" => Stopping
  | Some "Stopped" => Stopped
  | Some "No Cluster" => Configured
  | _ => UnknownStatus
  end.

(** [try { await p } catch (err) { console.error(err) }] as the body of an
    [async] function: the promise of the function resolves in any case. *)
Definition caught (p : Promise unit) : Promise unit :=
  mkPromise (settles_at p) (Fulfilled tt).

(** The [providerLifecycle] of [activate]: [crcStatus] is the status last
    fetched from the daemon, as a function of the instant; [commanderStart]
    and [commanderStop] are what [commander.start()] and [commander.stop()]
    return. *)
Definition crcProviderLifecycle (crcStatus : nat -> option string)
    (commanderStart commanderStop : Promise unit) : ProviderLifecycle :=
  {| lc_status := fun now => convertToProviderStatus (crcStatus now);
     lc_initialize := None;
     lc_start := fun _ => caught commanderStart;
     lc_stop := fun _ => caught commanderStop |}.

(** ** Concrete image registries *)

(** Lower case of the letters A to Z, as an instance of [toLowerCase]. *)
Definition asciiLower (s : string) : string :=
  string_rec (fun _ => string) EmptyString
    (fun c _ rest =>
       let n := Ascii.nat_of_ascii c in
       String (if Nat.leb 65 n && Nat.leb n 90 then Ascii.ascii_of_nat (n + 32) else c) rest)
    s.

(** Stands for the hash function in the concrete runs. *)
Definition noHash (s : string) : string := s.

Definition dockerHub : ImageRegistry.Registry :=
  {| ImageRegistry.source := "docker"; ImageRegistry.serverUrl := "Docker.io";
     ImageRegistry.username := "alice"; ImageRegistry.secret := "s3cret" |}.

Definition quay : ImageRegistry.Registry :=
  {| ImageRegistry.source := "podman"; ImageRegistry.serverUrl := "quay.io";
     ImageRegistry.username := "bob"; ImageRegistry.secret := "hunter2" |}.

Definition quayProvider : ImageRegistry.RegistryProvider :=
  {| ImageRegistry.provider_name := "podman";
     ImageRegistry.create := fun options =>
       {| ImageRegistry.source := "podman";
          ImageRegistry.serverUrl := ImageRegistry.opt_serverUrl options;
          ImageRegistry.username := ImageRegistry.opt_username options;
          ImageRegistry.secret := ImageRegistry.opt_secret options |} |}.

Definition quayOptions : ImageRegistry.RegistryCreateOptions :=
  {| ImageRegistry.opt_serverUrl := "quay.io"; ImageRegistry.opt_username := "bob";
     ImageRegistry.opt_secret := "hunter2" |}.

Definition imageState : ImageRegistry.State :=
  {| ImageRegistry.registries := [dockerHub; quay];
     ImageRegistry.providers := [("podman", quayProvider)] |}.

(** Three objects: [quay], which the list holds twice, [dockerHub], and a
    registry of source "podman" for another url that nobody has
    registered. *)
Definition sharedStore : ImageRegistry.Store :=
  {| ImageRegistry.object := fun ref =>
       {| ImageRegistry.content :=
            match ref with
            | 0 => quay
            | 1 => dockerHub
            | _ => {| ImageRegistry.source := "podman"; ImageRegistry.serverUrl := "ghcr.io";
                      ImageRegistry.username := "carol"; ImageRegistry.secret := "new" |}
            end;
          ImageRegistry.frozen := false |};
     ImageRegistry.held := [0; 0; 1] |}.

(** * Properties *)

(** ** Listener lists *)

Lemma remove_container_listener_keeps_list (r : Registry) (listener : Listener) :
  containerConnectionLifecycleListeners
    (final (removeProviderContainerConnectionLifecycleListener listener r))
  = containerConnectionLifecycleListeners r.
Proof.
  unfold removeProviderContainerConnectionLifecycleListener, bind, read, final; simpl.
  destruct (indexOf (containerConnectionLifecycleListeners r) listener); reflexivity.
Qed.

Lemma indexOf_app_last (xs : list Listener) (x : Listener) :
  exists index, indexOf (xs ++ [x]) x = Some index /\ index <= length xs.
Proof.
  induction xs as [|y xs IH]; simpl.
  - rewrite Nat.eqb_refl. exists 0. split; [reflexivity | lia].
  - destruct (Nat.eqb y x).
    + exists 0. split; [reflexivity | lia].
    + destruct IH as (i & -> & Hi). exists (S i). split; [reflexivity | lia].
Qed.

(** C10. A listener added with
    [addProviderContainerConnectionLifecycleListener] and then removed with
    [removeProviderContainerConnectionLifecycleListener] is still in the
    container-connection listener list: the removal finds its index there
    and splices the provider-lifecycle listener list at that index instead.
    The listener is therefore still called on the register, update-status
    and unregister notifications of a container connection. *)
Theorem remove_container_connection_listener_ineffective
    (r : Registry) (listener : Listener)
    (provider : ProviderImpl) (connection : ContainerProviderConnection) :
  let r1 := final (addProviderContainerConnectionLifecycleListener listener r) in
  let r2 := final (removeProviderContainerConnectionLifecycleListener listener r1) in
  let delivered event :=
    ContainerConnectionEvent listener event (getProviderInfo r2 provider)
      (getProviderContainerConnectionInfo connection) in
  containerConnectionLifecycleListeners r2
    = containerConnectionLifecycleListeners r ++ [listener]
  /\ (exists index,
        indexOf (containerConnectionLifecycleListeners r1) listener = Some index
        /\ lifecycleListeners r2 = splice1 index (lifecycleListeners r))
  /\ In (delivered "provider-container-connection:register")
        (trace (onDidRegisterContainerConnection provider connection r2))
  /\ In (delivered "provider-container-connection:update-status")
        (trace (onDidChangeContainerProviderConnectionStatus provider connection r2))
  /\ In (delivered "provider-container-connection:unregister")
        (trace (onDidUnregisterContainerConnection provider connection r2)).
Proof.
  intros r1 r2 delivered.
  assert (Hlist : containerConnectionLifecycleListeners r2
                  = containerConnectionLifecycleListeners r ++ [listener]).
  { subst r2. rewrite remove_container_listener_keeps_list. reflexivity. }
  split; [exact Hlist |].
  split.
  { destruct (indexOf_app_last (containerConnectionLifecycleListeners r) listener)
      as (index & Hindex & _).
    exists index. split; [exact Hindex |].
    subst r2. unfold removeProviderContainerConnectionLifecycleListener, bind, read, final.
    simpl. rewrite Hindex. reflexivity. }
  assert (Hin : forall event,
             In (delivered event)
                (map (fun l => ContainerConnectionEvent l event (getProviderInfo r2 provider)
                                 (getProviderContainerConnectionInfo connection))
                     (containerConnectionLifecycleListeners r2))).
  { intros event. rewrite Hlist, map_app. apply in_or_app. right. left. reflexivity. }
  repeat split; apply Hin.
Qed.

(** ** Pre-flight checks *)

Lemma runChecks_spec (checks : list InstallCheck) (r : Registry) :
  runChecks checks r
  = (Normal (forallb signalsSuccess checks), r, flat_map report (executed checks)).
Proof.
  induction checks as [|check rest IH]; [reflexivity |].
  cbn [runChecks forallb executed flat_map].
  unfold bind at 1. cbn [tell].
  unfold bind at 1, try_catch, report, signalsSuccess, await.
  unfold bind at 3. cbn [tell].
  unfold bind at 3.
  destruct (outcome (execute check)) as [checkResult | err]; cbn.
  - destruct (successful checkResult); cbn.
    + rewrite IH. reflexivity.
    + reflexivity.
  - reflexivity.
Qed.

Lemma executed_all (checks : list InstallCheck) :
  forallb signalsSuccess checks = true -> executed checks = checks.
Proof.
  induction checks as [|check rest IH]; cbn; [reflexivity |].
  intros [H1 H2]%andb_prop. rewrite H1, IH by exact H2. reflexivity.
Qed.

Lemma executed_app_failure (pre post : list InstallCheck) (check : InstallCheck) :
  forallb signalsSuccess pre = true ->
  signalsSuccess check = false ->
  executed (pre ++ check :: post) = pre ++ [check].
Proof.
  intros Hpre Hcheck. induction pre as [|c pre IH]; cbn.
  - rewrite Hcheck. reflexivity.
  - cbn in Hpre. apply andb_prop in Hpre as [H1 H2].
    rewrite H1, IH by exact H2. reflexivity.
Qed.

Lemma runPreflightChecks_selected (r : Registry) (providerInternalId : string)
    (runUpdateChecks : bool) :
  runPreflightChecks providerInternalId runUpdateChecks r
  = match selectedCapability r providerInternalId runUpdateChecks with
    | None =>
        (Throw (JsError ("No matching installation for provider " +:+ providerInternalId)),
         r, [])
    | Some installOrUpdate =>
        match preflightChecks installOrUpdate with
        | None => (Normal false, r, [])
        | Some checks => runChecks checks r
        end
    end.
Proof.
  unfold runPreflightChecks, selectedCapability, bind, read; cbn.
  destruct runUpdateChecks.
  - destruct (providerUpdates r !! providerInternalId) as [u|]; cbn; [|reflexivity].
    destruct (upd_preflightChecks u); [|reflexivity].
    destruct (runChecks l r) as [[c r'] t]. reflexivity.
  - destruct (providerInstallations r !! providerInternalId) as [i|]; cbn; [|reflexivity].
    destruct (inst_preflightChecks i); [|reflexivity].
    destruct (runChecks l r) as [[c r'] t]. reflexivity.
Qed.

(** C3. [runPreflightChecks] runs the checks one after the other in the
    declared order, with [startCheck] and [endCheck] around each. When the
    checks before [check] all signal success and [check] throws an error
    with message [message], the checks before it are reported in order, the
    failure is reported through [endCheck] as unsuccessful with [message],
    no later check is started or executed, and the result is [false]
    (with three checks of which the second throws: the first is reported
    successful and the third is never invoked). In general the result is
    [true] exactly when every check signals success. *)
Theorem runPreflightChecks_sequential_short_circuit
    (r : Registry) (providerInternalId : string) (runUpdateChecks : bool)
    (installOrUpdate : InstallOrUpdate)
    (Hselected : selectedCapability r providerInternalId runUpdateChecks
                 = Some installOrUpdate) :
  (forall (pre post : list InstallCheck) (check : InstallCheck) (message : string),
      preflightChecks installOrUpdate = Some (pre ++ check :: post) ->
      forallb signalsSuccess pre = true ->
      outcome (execute check) = Rejected (JsError message) ->
      runPreflightChecks providerInternalId runUpdateChecks r
      = (Normal false, r,
         flat_map report pre
         ++ [StartCheck (title check); CallExecute check;
             ConsoleError (JsError message);
             EndCheck (title check) false (Some message) None]))
  /\ (forall checks,
        preflightChecks installOrUpdate = Some checks ->
        runPreflightChecks providerInternalId runUpdateChecks r
        = (Normal (forallb signalsSuccess checks), r,
           flat_map report (executed checks))
        /\ (forallb signalsSuccess checks = true -> executed checks = checks)).
Proof.
  split.
  - intros pre post check message Hchecks Hpre Hthrows.
    rewrite runPreflightChecks_selected, Hselected, Hchecks, runChecks_spec.
    assert (Hfail : signalsSuccess check = false).
    { unfold signalsSuccess. rewrite Hthrows. reflexivity. }
    rewrite executed_app_failure by assumption.
    rewrite forallb_app. cbn [forallb]. rewrite Hfail, andb_false_r.
    rewrite flat_map_app. cbn [flat_map]. unfold report at 2.
    rewrite Hthrows. reflexivity.
  - intros checks Hchecks.
    rewrite runPreflightChecks_selected, Hselected, Hchecks, runChecks_spec.
    split; [reflexivity | apply executed_all].
Qed.

(** C8. With [runUpdateChecks] set, [runPreflightChecks] looks the capability
    up among the registered updates, otherwise among the registered
    installations. When the capability it finds has no [preflightChecks], it
    returns [false] at once: nothing is called, nothing changes, nothing is
    thrown. *)
Theorem runPreflightChecks_capability_selection
    (r : Registry) (providerInternalId : string) :
  runPreflightChecks providerInternalId true r
  = match providerUpdates r !! providerInternalId with
    | None =>
        (Throw (JsError ("No matching installation for provider " +:+ providerInternalId)),
         r, [])
    | Some upd =>
        match upd_preflightChecks upd with
        | None => (Normal false, r, [])
        | Some checks => runChecks checks r
        end
    end
  /\ runPreflightChecks providerInternalId false r
     = match providerInstallations r !! providerInternalId with
       | None =>
           (Throw (JsError ("No matching installation for provider " +:+ providerInternalId)),
            r, [])
       | Some installation =>
           match inst_preflightChecks installation with
           | None => (Normal false, r, [])
           | Some checks => runChecks checks r
           end
       end.
Proof.
  split; rewrite runPreflightChecks_selected; unfold selectedCapability.
  - destruct (providerUpdates r !! providerInternalId); reflexivity.
  - destruct (providerInstallations r !! providerInternalId); reflexivity.
Qed.

(** ** Lifecycle registration *)

Lemma getMatchingProvider_tracked (r : Registry) (providerId : string)
    (provider : ProviderImpl) :
  JSMap.get providerId (providers r) = Some provider ->
  getMatchingProvider providerId r = (Normal provider, r, []).
Proof. intros H. unfold getMatchingProvider, bind, read. cbn. rewrite H. reflexivity. Qed.

Lemma startProviderLifecycle_no_lifecycle (meanwhile : Interleaving) (r : Registry)
    (providerId : string) (provider : ProviderImpl) :
  JSMap.get providerId (providers r) = Some provider ->
  providerLifecycles r !! providerId = None ->
  startProviderLifecycle meanwhile providerId r
  = (Throw (JsError ("no provider lifecycle matching provider id " +:+ providerId)), r, []).
Proof.
  intros Hp Hl. unfold startProviderLifecycle.
  unfold bind at 1. rewrite (getMatchingProvider_tracked _ _ _ Hp).
  unfold bind at 1, getMatchingProviderLifecycle, bind, read. cbn.
  rewrite Hl. reflexivity.
Qed.

(** C6. For a provider tracked by the registry, [registerLifecycle] stores
    the lifecycle and a fresh context under the provider's [internalId];
    disposing the handle it returns removes both, and a
    [startProviderLifecycle] on that provider then throws
    "no provider lifecycle matching provider id ...", before it calls or
    awaits anything. *)
Theorem registerLifecycle_dispose_roundtrip
    (r : Registry) (providerImpl tracked : ProviderImpl) (lifecycle : ProviderLifecycle)
    (Htracked : JSMap.get (internalId providerImpl) (providers r) = Some tracked) :
  exists handle r1 t1,
    registerLifecycle providerImpl lifecycle r = (Normal handle, r1, t1)
    /\ providerLifecycles r1 !! internalId providerImpl = Some lifecycle
    /\ providerLifecycleContexts r1 !! internalId providerImpl
       = Some NewLifecycleContextImpl
    /\ let r2 := final (dispose handle r1) in
       providerLifecycles r2 !! internalId providerImpl = None
       /\ providerLifecycleContexts r2 !! internalId providerImpl = None
       /\ forall meanwhile,
            startProviderLifecycle meanwhile (internalId providerImpl) r2
            = (Throw (JsError ("no provider lifecycle matching provider id "
                               +:+ internalId providerImpl)), r2, []).
Proof.
  eexists _, _, _. split; [reflexivity |].
  cbn. rewrite !lookup_insert_eq. split; [reflexivity |]. split; [reflexivity |].
  assert (Hgone : forall V (m : gmap string V) k v, delete k (<[k:=v]> m) !! k = None).
  { intros. apply lookup_delete_eq. }
  split; [apply Hgone |]. split; [apply Hgone |].
  intros meanwhile. eapply startProviderLifecycle_no_lifecycle.
  - cbn. exact Htracked.
  - cbn. apply Hgone.
Qed.

(** ** Starting a provider *)

Lemma await_settle (p : Promise unit) (r : Registry) :
  await p r = (settle p, r, []).
Proof. unfold await, settle. destruct (outcome p) as [[]|]; reflexivity. Qed.

Lemma startFirstContainerConnection_spec (r : Registry) (provider : ProviderImpl) :
  startFirstContainerConnection provider r
  = match containerConnections provider with
    | [] => (Throw (JsError "No container connection found for provider"), r, [])
    | connection :: _ =>
        match conn_lifecycle connection ≫= cl_start with
        | None =>
            (Throw (JsError "The container connection does not support start lifecycle"),
             r, [])
        | Some start =>
            match connectionLifecycleContexts r !! conn_ref connection with
            | None =>
                (Throw (JsError "The connection does not have context to start"), r, [])
            | Some context =>
                (settle (start context), r, [CallConnectionStart connection context])
            end
        end
    end.
Proof.
  unfold startFirstContainerConnection.
  destruct (containerConnections provider) as [|connection rest]; [reflexivity |].
  destruct (conn_lifecycle connection ≫= cl_start) as [start|]; [|reflexivity].
  unfold bind at 1, read.
  destruct (connectionLifecycleContexts r !! conn_ref connection) as [context|];
    [|reflexivity].
  unfold bind, tell. rewrite await_settle. reflexivity.
Qed.

(** C2. For a tracked provider, [startProvider] is [startProviderLifecycle]
    exactly when a lifecycle is registered under its id, whatever runs
    while the call is suspended. Without a registered lifecycle it starts
    the first container connection, which must have a [start] method and a
    lifecycle context, and throws when the provider has no container
    connection; in that case no lifecycle listener is called and the run
    differs from the one of [startProviderLifecycle]. *)
Theorem startProvider_dispatch
    (meanwhile : Interleaving)
    (r : Registry) (providerInternalId : string) (provider : ProviderImpl)
    (Htracked : JSMap.get providerInternalId (providers r) = Some provider) :
  (is_Some (providerLifecycles r !! providerInternalId) ->
   startProvider meanwhile providerInternalId r
   = startProviderLifecycle meanwhile providerInternalId r)
  /\ (providerLifecycles r !! providerInternalId = None ->
      startProvider meanwhile providerInternalId r
      <> startProviderLifecycle meanwhile providerInternalId r
      /\ startProvider meanwhile providerInternalId r
         = match containerConnections provider with
           | [] => (Throw (JsError "No container connection found for provider"), r, [])
           | connection :: _ =>
               match conn_lifecycle connection ≫= cl_start with
               | None =>
                   (Throw (JsError
                      "The container connection does not support start lifecycle"), r, [])
               | Some start =>
                   match connectionLifecycleContexts r !! conn_ref connection with
                   | None =>
                       (Throw (JsError "The connection does not have context to start"),
                        r, [])
                   | Some context =>
                       (settle (start context), r,
                        [CallConnectionStart connection context])
                   end
               end
           end).
Proof.
  assert (Hrun : startProvider meanwhile providerInternalId r
                 = if bool_decide (is_Some (providerLifecycles r !! providerInternalId))
                   then startProviderLifecycle meanwhile providerInternalId r
                   else startFirstContainerConnection provider r).
  { unfold startProvider. unfold bind at 1.
    rewrite (getMatchingProvider_tracked _ _ _ Htracked).
    unfold bind at 1, read.
    destruct (bool_decide (is_Some (providerLifecycles r !! providerInternalId))).
    - destruct (startProviderLifecycle meanwhile providerInternalId r) as [[c r'] t].
      reflexivity.
    - destruct (startFirstContainerConnection provider r) as [[c r'] t]. reflexivity. }
  split.
  - intros Hsome. rewrite Hrun, bool_decide_eq_true_2 by exact Hsome. reflexivity.
  - intros Hnone. rewrite Hrun, bool_decide_eq_false_2
      by (rewrite Hnone; intros [? ?]; discriminate).
    rewrite startFirstContainerConnection_spec.
    split; [| reflexivity].
    rewrite (startProviderLifecycle_no_lifecycle _ _ _ _ Htracked Hnone).
    destruct (containerConnections provider) as [|connection rest]; [discriminate |].
    destruct (conn_lifecycle connection ≫= cl_start) as [start|]; [|discriminate].
    destruct (connectionLifecycleContexts r !! conn_ref connection); discriminate.
Qed.

(** ** Deleting a container connection *)

Lemma getMatchingContainerConnectionFromProvider_spec
    (r : Registry) (internalProviderId : string) (provider : ProviderImpl)
    (info : ProviderContainerConnectionInfo) :
  JSMap.get internalProviderId (providers r) = Some provider ->
  getMatchingContainerConnectionFromProvider internalProviderId info r
  = match find (matchesEndpoint info) (containerConnections provider) with
    | Some connection => (Normal connection, r, [])
    | None =>
        (Throw (JsError ("no container connection matching provider id "
                         +:+ internalProviderId)), r, [])
    end.
Proof.
  intros Hp. unfold getMatchingContainerConnectionFromProvider.
  unfold bind. rewrite (getMatchingProvider_tracked _ _ _ Hp).
  unfold matchesEndpoint.
  destruct (find _ (containerConnections provider)); reflexivity.
Qed.

(** C7, as the code has it. For a tracked provider,
    [deleteProviderConnection] takes the first container connection whose
    socket path equals the one of the descriptor and throws when there is
    none or when its lifecycle has no [delete] method. It never consults
    the lifecycle contexts. The [deleteProviderConnection] telemetry event
    is recorded before [delete()] is called, whatever [delete()] then
    settles to. *)
Theorem deleteProviderConnection_spec
    (r : Registry) (internalProviderId : string) (provider : ProviderImpl)
    (info : ProviderContainerConnectionInfo)
    (Htracked : JSMap.get internalProviderId (providers r) = Some provider) :
  deleteProviderConnection internalProviderId info r
  = match find (matchesEndpoint info) (containerConnections provider) with
    | None =>
        (Throw (JsError ("no container connection matching provider id "
                         +:+ internalProviderId)), r, [])
    | Some connection =>
        match conn_lifecycle connection ≫= cl_delete with
        | None =>
            (Throw (JsError "The container connection does not support delete lifecycle"),
             r, [])
        | Some deletion =>
            (settle deletion, r,
             [TelemetryTrack "deleteProviderConnection" [("name", ci_name info)];
              CallConnectionDelete connection])
        end
    end
  /\ (forall contexts,
        let r' := with_connectionLifecycleContexts contexts r in
        result (deleteProviderConnection internalProviderId info r')
        = result (deleteProviderConnection internalProviderId info r)
        /\ trace (deleteProviderConnection internalProviderId info r')
           = trace (deleteProviderConnection internalProviderId info r)).
Proof.
  assert (Hrun : forall r0,
             JSMap.get internalProviderId (providers r0) = Some provider ->
             deleteProviderConnection internalProviderId info r0
             = match find (matchesEndpoint info) (containerConnections provider) with
               | None =>
                   (Throw (JsError ("no container connection matching provider id "
                                    +:+ internalProviderId)), r0, [])
               | Some connection =>
                   match conn_lifecycle connection ≫= cl_delete with
                   | None =>
                       (Throw (JsError
                          "The container connection does not support delete lifecycle"),
                        r0, [])
                   | Some deletion =>
                       (settle deletion, r0,
                        [TelemetryTrack "deleteProviderConnection" [("name", ci_name info)];
                         CallConnectionDelete connection])
                   end
               end).
  { intros r0 Hp. unfold deleteProviderConnection. unfold bind at 1.
    rewrite (getMatchingContainerConnectionFromProvider_spec _ _ _ _ Hp).
    destruct (find _ (containerConnections provider)) as [connection|]; [|reflexivity].
    destruct (conn_lifecycle connection ≫= cl_delete) as [deletion|]; [|reflexivity].
    unfold bind, tell. rewrite await_settle. reflexivity. }
  split; [apply Hrun, Htracked |].
  intros contexts r'. rewrite (Hrun r Htracked), (Hrun r' Htracked).
  destruct (find _ (containerConnections provider)) as [connection|];
    [| split; reflexivity].
  destruct (conn_lifecycle connection ≫= cl_delete); split; reflexivity.
Qed.

(** ** Autostart *)

Lemma startAll_spec (autostartValues : list ProviderAutostart) (r : Registry) :
  startAll autostartValues r
  = (startPromises autostartValues, r,
     map (fun autoStart => CallAutostart autoStart NewLoggerImpl) (started autostartValues)).
Proof.
  induction autostartValues as [|autoStart rest IH]; [reflexivity |].
  cbn [startAll startPromises started map]. unfold bind at 1, tell.
  destruct (autostart_start autoStart NewLoggerImpl) as [promise|e]; [| reflexivity].
  unfold bind at 1, ret. unfold bind at 1. rewrite IH.
  destruct (startPromises rest); cbn; rewrite ?app_nil_r; reflexivity.
Qed.

Lemma runAutostart_run (r : Registry) :
  runAutostart r
  = (match startPromises (JSMap.values (providerAutostarts r)) with
     | Normal promises =>
         match outcome (Promise_all promises) with
         | Fulfilled l => Normal l
         | Rejected e => Throw e
         end
     | Throw e => Throw e
     end, r,
     map (fun autoStart => CallAutostart autoStart NewLoggerImpl)
       (started (JSMap.values (providerAutostarts r)))).
Proof.
  unfold runAutostart. unfold bind at 1, read. unfold bind at 1.
  rewrite startAll_spec.
  destruct (startPromises _) as [promises|e]; [| reflexivity].
  unfold await. destruct (outcome (Promise_all promises)); cbn; rewrite app_nil_r;
    reflexivity.
Qed.









(** ** Ordering of the provider descriptors *)

Section SortFacts.
Context {A : Type} (compareFn : A -> A -> Z).

Hypothesis compareFn_total : forall x y, (0 < compareFn x y)%Z -> (compareFn y x <= 0)%Z.
Hypothesis compareFn_trans :
  forall x y z, (compareFn x y <= 0)%Z -> (compareFn y z <= 0)%Z -> (compareFn x z <= 0)%Z.

Lemma sort_insert_perm (x : A) (xs : list A) :
  Permutation (sort_insert compareFn x xs) (x :: xs).
Proof using Type.
  induction xs as [|y xs IH]; cbn; [reflexivity |].
  destruct (compareFn x y <=? 0)%Z; [reflexivity |].
  rewrite IH. apply perm_swap.
Qed.

Lemma Array_sort_perm (xs : list A) : Permutation (Array_sort compareFn xs) xs.
Proof using Type.
  induction xs as [|x xs IH]; cbn; [reflexivity |].
  rewrite sort_insert_perm. constructor. exact IH.
Qed.

Lemma sort_insert_sorted (x : A) (xs : list A) :
  StronglySorted (inOrder compareFn) xs -> StronglySorted (inOrder compareFn) (sort_insert compareFn x xs).
Proof using compareFn_total compareFn_trans.
  induction 1 as [|y xs Hsorted IH Hall]; cbn.
  - repeat constructor.
  - destruct (compareFn x y <=? 0)%Z eqn:Hxy.
    + apply Z.leb_le in Hxy.
      constructor; [constructor; assumption |].
      constructor; [exact Hxy |].
      eapply Forall_impl; [exact Hall |].
      intros z Hyz. exact (compareFn_trans _ _ _ Hxy Hyz).
    + apply Z.leb_gt in Hxy.
      constructor; [exact IH |].
      eapply Permutation_Forall; [symmetry; apply sort_insert_perm |].
      constructor; [apply compareFn_total, Hxy | exact Hall].
Qed.

Lemma Array_sort_sorted (xs : list A) : StronglySorted (inOrder compareFn) (Array_sort compareFn xs).
Proof using compareFn_total compareFn_trans.
  induction xs as [|x xs IH]; cbn; [constructor |].
  apply sort_insert_sorted, IH.
Qed.
End SortFacts.

(** C5. Whatever the registry holds and in whatever order its providers were
    created, [getProviderInfos()] returns the descriptors of exactly the
    tracked providers, sorted by name in descending order: every descriptor
    has a name that is greater than or equal to the names of all those after
    it. The order on names is the one of [localeCompare], taken to be a
    total preorder. *)
Theorem getProviderInfos_sorted_descending
    (localeCompare : string -> string -> Z)
    (Htotal : forall a b, (0 < localeCompare a b)%Z -> (localeCompare b a <= 0)%Z)
    (Htrans : forall a b c,
        (localeCompare a b <= 0)%Z -> (localeCompare b c <= 0)%Z ->
        (localeCompare a c <= 0)%Z)
    (r : Registry) :
  StronglySorted (descending localeCompare) (getProviderInfos localeCompare r)
  /\ Permutation (getProviderInfos localeCompare r)
       (map (getProviderInfo r) (JSMap.values (providers r))).
Proof.
  unfold getProviderInfos. split.
  - apply (Array_sort_sorted
             (fun provider1 provider2 =>
                localeCompare (pi_name provider2) (pi_name provider1))).
    + intros x y. apply Htotal.
    + intros x y z Hxy Hyz. exact (Htrans _ _ _ Hyz Hxy).
  - apply Array_sort_perm.
Qed.

(** ** Frame reasoning: what a method leaves unchanged *)

Section Preserves.
Context {X : Type} (field : Registry -> X).

Lemma preserves_ret {A} (a : A) : preserves field (ret a).
Proof. intros r. reflexivity. Qed.

Lemma preserves_read : preserves field read.
Proof. intros r. reflexivity. Qed.

Lemma preserves_tell (t : list Event) : preserves field (tell t).
Proof. intros r. reflexivity. Qed.

Lemma preserves_throw {A} (e : JsValue) : preserves field (@throw A e).
Proof. intros r. reflexivity. Qed.

Lemma preserves_throwError {A} (message : string) : preserves field (@throwError A message).
Proof. intros r. reflexivity. Qed.

Lemma preserves_await {A} (p : Promise A) : preserves field (await p).
Proof. intros r. unfold await. destruct (outcome p); reflexivity. Qed.

Lemma preserves_modify (f : Registry -> Registry) :
  (forall r, field (f r) = field r) -> preserves field (modify f).
Proof. intros Hf r. apply Hf. Qed.

Lemma preserves_bind {A B} (m : M A) (k : A -> M B) :
  preserves field m -> (forall a, preserves field (k a)) -> preserves field (bind m k).
Proof.
  intros Hm Hk r. unfold bind, final. specialize (Hm r). unfold final in Hm.
  destruct (m r) as [[[a|e] r1] t1]; cbn in *; [| exact Hm].
  specialize (Hk a r1). unfold final in Hk.
  destruct (k a r1) as [[c r2] t2]; cbn in *. congruence.
Qed.

Lemma preserves_try_catch {A} (body : M A) (handler : JsValue -> M A) :
  preserves field body -> (forall e, preserves field (handler e)) ->
  preserves field (try_catch body handler).
Proof.
  intros Hm Hk r. unfold try_catch, final. specialize (Hm r). unfold final in Hm.
  destruct (body r) as [[[a|e] r1] t1]; cbn in *; [exact Hm |].
  specialize (Hk e r1). unfold final in Hk.
  destruct (handler e r1) as [[c r2] t2]; cbn in *. congruence.
Qed.

Lemma preserves_forEach {A} (xs : list A) (body : A -> M unit) :
  (forall x, preserves field (body x)) -> preserves field (forEach xs body).
Proof.
  intros Hbody. induction xs as [|x xs IH]; cbn.
  - apply preserves_ret.
  - apply preserves_bind; [apply Hbody | intros _; exact IH].
Qed.
End Preserves.

(** Closes a goal [preserves field m] for a method [m] made of the monad's
    operations and of field updates that leave [field] alone. *)
Ltac frame :=
  repeat first
    [ match goal with |- forall _, _ => intro end
    | progress cbv zeta
    | apply preserves_bind
    | apply preserves_forEach
    | apply preserves_try_catch
    | apply preserves_ret | apply preserves_read | apply preserves_tell
    | apply preserves_throw | apply preserves_throwError | apply preserves_await
    | apply preserves_modify; intros; reflexivity
    | match goal with
      | |- preserves _ (match ?x with _ => _ end) => destruct x
      | |- preserves _ (if ?x then _ else _) => destruct x
      end ].

Lemma notifyListeners_preserves {X} (field : Registry -> X) event provider :
  preserves field (notifyListeners event provider).
Proof. unfold notifyListeners. frame. Qed.

Lemma notifyLifecycleListeners_preserves {X} (field : Registry -> X) event provider lc :
  preserves field (notifyLifecycleListeners event provider lc).
Proof. unfold notifyLifecycleListeners. frame. Qed.

Lemma reconcile_preserves_count now providerKey :
  preserves count (reconcile now providerKey).
Proof. unfold reconcile, notifyListeners. frame. Qed.

Lemma tick_preserves_count now : preserves count (tick now).
Proof. unfold tick. frame. Qed.

Lemma disposeProvider_preserves_count providerImpl :
  preserves count (disposeProvider providerImpl).
Proof. unfold disposeProvider, notifyListeners. frame. Qed.

Lemma registerLifecycle_preserves_count providerImpl lifecycle :
  preserves count (registerLifecycle providerImpl lifecycle).
Proof. unfold registerLifecycle, notifyLifecycleListeners. frame. Qed.

Lemma registerAutostart_preserves_count providerImpl autostart :
  preserves count (registerAutostart providerImpl autostart).
Proof. unfold registerAutostart. frame. Qed.

Lemma startProvider_preserves_count providerInternalId :
  preserves count (startProvider [] providerInternalId).
Proof.
  unfold startProvider, startProviderLifecycle, startFirstContainerConnection,
    getMatchingProvider, getMatchingProviderLifecycle, getMatchingLifecycleContext,
    notifyLifecycleListeners.
  cbn [suspended]. frame.
Qed.

(** ** Sessions: the registry driven through its public methods *)

Lemma createProvider_run (providerOptions : ProviderOptions) (r : Registry) :
  result (createProvider providerOptions r)
  = Normal (newProviderImpl (pretty (count r)) providerOptions)
  /\ count (final (createProvider providerOptions r)) = js_incr (count r).
Proof. split; reflexivity. Qed.

Lemma result_then_none {A B} (m : M A) (r : Registry) (b : B) :
  result (bind m (fun _ => ret (@None B)) r) <> Normal (Some b).
Proof. unfold bind, result. destruct (m r) as [[[?|?] ?] ?]; cbn; discriminate. Qed.

Lemma perform_other (c : Call) (r : Registry) :
  (forall providerOptions, c <> DoCreateProvider providerOptions) ->
  count (final (perform c r)) = count r
  /\ forall providerImpl, result (perform c r) <> Normal (Some providerImpl).
Proof.
  intros Hc. destruct c as [o|p|p lc|p a|i|now]; [destruct (Hc o); reflexivity | | | | |].
  all: split;
    [ apply (preserves_bind count);
      [ first [ apply disposeProvider_preserves_count
              | apply registerLifecycle_preserves_count
              | apply registerAutostart_preserves_count
              | apply startProvider_preserves_count
              | apply tick_preserves_count ]
      | intros; apply preserves_ret ]
    | intros providerImpl; apply result_then_none ].
Qed.

Lemma session_ids (calls : list Call) (r : Registry) :
  (count r + N.of_nat (creations calls) <= 2 ^ 53)%N ->
  count (session calls r).1 = (count r + N.of_nat (creations calls))%N
  /\ map internalId (session calls r).2
     = map (fun n => pretty (count r + N.of_nat n)%N) (seq 0 (creations calls)).
Proof.
  revert r. induction calls as [|c rest IH]; intros r Hbound.
  - cbn. split; [lia | reflexivity].
  - cbn [session].
    destruct (session rest (final (perform c r))) as [r' created] eqn:Hrest.
    assert (Hcases : (exists o, c = DoCreateProvider o)
                     \/ forall o, c <> DoCreateProvider o).
    { destruct c; eauto; right; intros; discriminate. }
    destruct Hcases as [[o ->] | Hother].
    + cbn [creations] in *.
      assert (Hlt : (count r < 2 ^ 53)%N) by lia.
      assert (Hcount : count (final (perform (DoCreateProvider o) r)) = (count r + 1)%N).
      { change (js_incr (count r) = (count r + 1)%N). unfold js_incr.
        apply N.ltb_lt in Hlt. rewrite Hlt. reflexivity. }
      specialize (IH (final (perform (DoCreateProvider o) r))).
      rewrite Hrest, Hcount in IH. destruct IH as [IH1 IH2]; [lia |].
      cbn [fst snd] in *. split; [lia |].
      change (result (perform (DoCreateProvider o) r))
        with (Normal (Some (newProviderImpl (pretty (count r)) o))).
      cbn [map seq internalId newProviderImpl]. f_equal.
      * f_equal. lia.
      * rewrite IH2, <- seq_shift, map_map. apply map_ext. intros n. f_equal. lia.
    + destruct (perform_other c r Hother) as [Hcount Hnone].
      assert (Hcreations : creations (c :: rest) = creations rest).
      { destruct c; try reflexivity. destruct (Hother providerOptions). reflexivity. }
      rewrite Hcreations in *.
      specialize (IH (final (perform c r))). rewrite Hrest, Hcount in IH.
      destruct (IH Hbound) as [IH1 IH2]. cbn [fst snd] in *.
      split; [exact IH1 |].
      destruct (result (perform c r)) as [[providerImpl|]|] eqn:Hres;
        [destruct (Hnone providerImpl); reflexivity | exact IH2 | exact IH2].
Qed.

(** C9. Every [createProvider] takes the provider's [internalId] from the
    counter and advances the counter; no other method touches the counter,
    [disposeProvider] included. In a session started on a new registry the
    [internalId]s of the providers created are therefore 0, 1, 2, ... in
    order of creation, and no two of them are equal, whatever was disposed
    in between. (The counter is a JavaScript number: this holds while it
    stays below 2^53, where increments are exact.) *)
Theorem internalId_unique (calls : list Call)
    (Hexact : (N.of_nat (creations calls) <= 2 ^ 53)%N) :
  let created := (session calls newProviderRegistry).2 in
  map internalId created
  = map (fun n => pretty (N.of_nat n)) (seq 0 (creations calls))
  /\ List.NoDup (map internalId created)
  /\ count (session calls newProviderRegistry).1 = N.of_nat (creations calls).
Proof.
  destruct (session_ids calls newProviderRegistry) as [Hcount Hids]; [cbn; lia |].
  cbn [count newProviderRegistry] in *. cbn zeta.
  assert (Hids' : map internalId (session calls newProviderRegistry).2
                  = map (fun n => pretty (N.of_nat n)) (seq 0 (creations calls))).
  { rewrite Hids. apply map_ext. intros n. reflexivity. }
  split; [exact Hids' |]. split; [| rewrite Hcount; lia].
  rewrite Hids'. apply Finite.Injective_map_NoDup; [| apply List.seq_NoDup].
  intros n m Hnm. apply (inj pretty) in Hnm. lia.
Qed.

(** ** Status reconciliation *)

Lemma JSMap_get_set_eq {V} (k : string) (v : V) (m : JSMap.t V) :
  is_Some (JSMap.get k m) -> JSMap.get k (JSMap.set k v m) = Some v.
Proof.
  induction m as [|[k' v'] m IH]; cbn; [intros [? [=]] |].
  destruct (String.eqb k' k) eqn:Hk; cbn; rewrite Hk; [reflexivity | exact IH].
Qed.

Lemma JSMap_get_set_ne {V} (k k' : string) (v : V) (m : JSMap.t V) :
  k <> k' -> JSMap.get k' (JSMap.set k v m) = JSMap.get k' m.
Proof.
  intros Hne. induction m as [|[k0 v0] m IH]; cbn.
  - destruct (String.eqb k k') eqn:Hk; [apply String.eqb_eq in Hk; contradiction |].
    reflexivity.
  - destruct (String.eqb k0 k) eqn:Hk0; cbn.
    + apply String.eqb_eq in Hk0 as ->.
      destruct (String.eqb k k') eqn:Hk; [apply String.eqb_eq in Hk; contradiction |].
      reflexivity.
    + rewrite IH. reflexivity.
Qed.

Lemma JSMap_get_in_keys {V} (k : string) (m : JSMap.t V) :
  is_Some (JSMap.get k m) -> In k (JSMap.keys m).
Proof.
  induction m as [|[k' v'] m IH]; cbn; [intros [? [=]] |].
  destruct (String.eqb k' k) eqn:Hk.
  - apply String.eqb_eq in Hk. left. exact Hk.
  - intros H. right. exact (IH H).
Qed.

Lemma reconcile_run (now : nat) (key : string) (r : Registry) :
  reconcile now key r = (Normal tt, (reconciled now key r).1, (reconciled now key r).2).
Proof.
  unfold reconcile, reconciled, bind, read. cbn.
  destruct (JSMap.get key (providers r)) as [provider|]; [|reflexivity].
  destruct (providerLifecycles r !! key) as [lifecycle|]; [|reflexivity].
  destruct (bool_decide _); [reflexivity |].
  cbn. unfold statusUpdateEvents. cbn. rewrite !app_nil_r. reflexivity.
Qed.

Lemma tick_run (now : nat) (r : Registry) :
  tick now r
  = (Normal tt,
     (reconciledAll now (JSMap.keys (providers r)) r).1,
     (reconciledAll now (JSMap.keys (providers r)) r).2).
Proof.
  unfold tick, bind, read. cbn.
  generalize (JSMap.keys (providers r)) as keys. intros keys.
  assert (H : forall r0, forEach keys (reconcile now) r0
                         = (Normal tt, (reconciledAll now keys r0).1,
                            (reconciledAll now keys r0).2)).
  { induction keys as [|key rest IH]; intros r0; [reflexivity |].
    cbn [forEach reconciledAll]. unfold bind. rewrite reconcile_run.
    destruct (reconciled now key r0) as [r1 t1]. cbn [fst snd].
    rewrite IH. destruct (reconciledAll now rest r1) as [r2 t2]. reflexivity. }
  rewrite H. destruct (reconciledAll now keys r) as [r2 t2]. reflexivity.
Qed.

Lemma sameCapabilities_refl (r : Registry) : sameCapabilities r r.
Proof. repeat split. Qed.

Lemma sameCapabilities_trans (r1 r2 r3 : Registry) :
  sameCapabilities r1 r2 -> sameCapabilities r2 r3 -> sameCapabilities r1 r3.
Proof. intros (?&?&?&?) (?&?&?&?). repeat split; congruence. Qed.

Lemma statusUpdateEvents_sameCapabilities (r r' : Registry) (provider : ProviderImpl) :
  sameCapabilities r r' -> statusUpdateEvents r' provider = statusUpdateEvents r provider.
Proof.
  intros (Hl & Hi & Hu & Hls). unfold statusUpdateEvents, getProviderInfo.
  rewrite Hl, Hi, Hu, Hls. reflexivity.
Qed.

Lemma statusUpdates_other (k : string) (r : Registry) (provider : ProviderImpl) :
  internalId provider <> k -> statusUpdates k (statusUpdateEvents r provider) = [].
Proof.
  intros Hne. unfold statusUpdates, statusUpdateEvents.
  induction (listeners r) as [|l ls IH]; cbn; [reflexivity |].
  destruct (String.eqb (internalId provider) k) eqn:Hk;
    [apply String.eqb_eq in Hk; contradiction | exact IH].
Qed.

Lemma statusUpdates_same (r : Registry) (provider : ProviderImpl) :
  statusUpdates (internalId provider) (statusUpdateEvents r provider)
  = statusUpdateEvents r provider.
Proof.
  unfold statusUpdates, statusUpdateEvents.
  induction (listeners r) as [|l ls IH]; cbn; [reflexivity |].
  rewrite String.eqb_refl. f_equal. exact IH.
Qed.

Lemma statusUpdates_app (k : string) (t1 t2 : list Event) :
  statusUpdates k (t1 ++ t2) = statusUpdates k t1 ++ statusUpdates k t2.
Proof. apply List.filter_app. Qed.

Lemma reconciled_frame (now : nat) (key : string) (r : Registry) :
  sameCapabilities r (reconciled now key r).1
  /\ (idsOk r -> idsOk (reconciled now key r).1).
Proof.
  unfold reconciled.
  destruct (JSMap.get key (providers r)) as [provider|] eqn:Hp;
    [| split; [apply sameCapabilities_refl | trivial]].
  destruct (providerLifecycles r !! key) as [lifecycle|];
    [| split; [apply sameCapabilities_refl | trivial]].
  destruct (bool_decide _); [split; [apply sameCapabilities_refl | trivial] |].
  cbn. split; [repeat split |].
  intros Hids k p. cbn. destruct (decide (key = k)) as [<- | Hne].
  - rewrite JSMap_get_set_eq by (rewrite Hp; eauto).
    intros [= <-]. cbn. apply Hids, Hp.
  - rewrite JSMap_get_set_ne by exact Hne. apply Hids.
Qed.

Lemma reconciled_other (now : nat) (key k : string) (r : Registry) :
  k <> key -> idsOk r ->
  JSMap.get k (providers (reconciled now key r).1) = JSMap.get k (providers r)
  /\ providerStatuses (reconciled now key r).1 !! k = providerStatuses r !! k
  /\ statusUpdates k (reconciled now key r).2 = [].
Proof.
  intros Hne Hids. unfold reconciled.
  destruct (JSMap.get key (providers r)) as [provider|] eqn:Hp; [| repeat split].
  destruct (providerLifecycles r !! key) as [lifecycle|]; [| repeat split].
  destruct (bool_decide _); [repeat split |].
  cbn -[statusUpdates statusUpdateEvents]. split; [| split].
  - apply JSMap_get_set_ne. congruence.
  - apply lookup_insert_ne. congruence.
  - apply statusUpdates_other. cbn. rewrite (Hids _ _ Hp). congruence.
Qed.

Lemma reconciled_here (now : nat) (k : string) (provider : ProviderImpl)
    (lifecycle : ProviderLifecycle) (r : Registry) :
  idsOk r ->
  JSMap.get k (providers r) = Some provider ->
  providerLifecycles r !! k = Some lifecycle ->
  reconcilesAt now k provider lifecycle r (reconciled now k r).1 (reconciled now k r).2.
Proof.
  intros Hids Hp Hl. unfold reconcilesAt, reconciled. rewrite Hp, Hl. cbn zeta.
  destruct (bool_decide _); [repeat split; exact Hp |].
  cbn -[statusUpdates statusUpdateEvents]. split; [| split].
  - apply JSMap_get_set_eq. rewrite Hp. eauto.
  - apply lookup_insert_eq.
  - rewrite (statusUpdateEvents_sameCapabilities r) by repeat split.
    rewrite <- (Hids _ _ Hp) at 1.
    apply (statusUpdates_same r (updateStatus (lc_status lifecycle now) provider)).
Qed.

Lemma reconciledAll_frame (now : nat) (keys : list string) (r : Registry) :
  sameCapabilities r (reconciledAll now keys r).1
  /\ (idsOk r -> idsOk (reconciledAll now keys r).1).
Proof.
  revert r. induction keys as [|key rest IH]; intros r; cbn.
  - split; [apply sameCapabilities_refl | trivial].
  - destruct (reconciled_frame now key r) as [Hs1 Hi1].
    destruct (reconciled now key r) as [r1 t1]. cbn [fst] in *.
    destruct (IH r1) as [Hs2 Hi2].
    destruct (reconciledAll now rest r1) as [r2 t2]. cbn [fst] in *.
    split; [eapply sameCapabilities_trans; eassumption | auto].
Qed.

Lemma reconciledAll_other (now : nat) (keys : list string) (k : string) (r : Registry) :
  ~ In k keys -> idsOk r ->
  JSMap.get k (providers (reconciledAll now keys r).1) = JSMap.get k (providers r)
  /\ providerStatuses (reconciledAll now keys r).1 !! k = providerStatuses r !! k
  /\ statusUpdates k (reconciledAll now keys r).2 = [].
Proof.
  revert r. induction keys as [|key rest IH]; intros r Hnotin Hids; cbn.
  - repeat split.
  - assert (Hne : k <> key) by (intros ->; apply Hnotin; left; reflexivity).
    destruct (reconciled_other now key k r Hne Hids) as (Hp1 & Hs1 & Ht1).
    destruct (reconciled_frame now key r) as [_ Hi1].
    destruct (reconciled now key r) as [r1 t1]. cbn [fst snd] in *.
    destruct (IH r1) as (Hp2 & Hs2 & Ht2); [intros H; apply Hnotin; right; exact H | auto |].
    destruct (reconciledAll now rest r1) as [r2 t2]. cbn [fst snd] in *.
    rewrite statusUpdates_app, Ht1, Ht2. repeat split; congruence.
Qed.

Lemma reconcilesAt_transport (now : nat) (k : string) (provider : ProviderImpl)
    (lifecycle : ProviderLifecycle) (r r1 r2 : Registry) (t1 t2 : list Event) :
  sameCapabilities r r1 ->
  providerStatuses r1 !! k = providerStatuses r !! k ->
  statusUpdates k t1 = [] ->
  reconcilesAt now k provider lifecycle r1 r2 t2 ->
  reconcilesAt now k provider lifecycle r r2 (t1 ++ t2).
Proof.
  intros Hsame Hstatus Ht1. unfold reconcilesAt. cbn zeta.
  rewrite statusUpdates_app, Ht1, Hstatus.
  rewrite (statusUpdateEvents_sameCapabilities r r1) by exact Hsame.
  trivial.
Qed.

Lemma reconcilesAt_extend (now : nat) (k : string) (provider : ProviderImpl)
    (lifecycle : ProviderLifecycle) (r r1 r2 : Registry) (t1 t2 : list Event) :
  JSMap.get k (providers r2) = JSMap.get k (providers r1) ->
  providerStatuses r2 !! k = providerStatuses r1 !! k ->
  statusUpdates k t2 = [] ->
  reconcilesAt now k provider lifecycle r r1 t1 ->
  reconcilesAt now k provider lifecycle r r2 (t1 ++ t2).
Proof.
  intros Hp Hs Ht2. unfold reconcilesAt. cbn zeta.
  rewrite statusUpdates_app, Ht2, app_nil_r, Hp, Hs. trivial.
Qed.

Lemma reconciledAll_here (now : nat) (keys : list string) (k : string)
    (provider : ProviderImpl) (lifecycle : ProviderLifecycle) (r : Registry) :
  List.NoDup keys -> In k keys -> idsOk r ->
  JSMap.get k (providers r) = Some provider ->
  providerLifecycles r !! k = Some lifecycle ->
  reconcilesAt now k provider lifecycle r
    (reconciledAll now keys r).1 (reconciledAll now keys r).2.
Proof.
  revert r. induction keys as [|key rest IH]; intros r Hnodup Hin Hids Hp Hl; [destruct Hin |].
  apply List.NoDup_cons_iff in Hnodup as [Hfresh Hnodup].
  cbn [reconciledAll].
  destruct (decide (key = k)) as [-> | Hne].
  - pose proof (reconciled_here now k provider lifecycle r Hids Hp Hl) as Hhere.
    destruct (reconciled_frame now k r) as [_ Hids1].
    destruct (reconciled now k r) as [r1 t1]. cbn [fst snd] in *.
    destruct (reconciledAll_other now rest k r1 Hfresh (Hids1 Hids)) as (Hp2 & Hs2 & Ht2).
    destruct (reconciledAll now rest r1) as [r2 t2]. cbn [fst snd] in *.
    eapply reconcilesAt_extend; eassumption.
  - destruct Hin as [-> | Hin]; [contradiction |].
    assert (Hne' : k <> key) by congruence.
    destruct (reconciled_other now key k r Hne' Hids) as (Hp1 & Hs1 & Ht1).
    destruct (reconciled_frame now key r) as [Hsame Hids1].
    destruct (reconciled now key r) as [r1 t1]. cbn [fst snd] in *.
    assert (Hl1 : providerLifecycles r1 !! k = Some lifecycle).
    { destruct Hsame as (-> & _). exact Hl. }
    specialize (IH r1 Hnodup Hin (Hids1 Hids)). rewrite Hp1 in IH.
    specialize (IH Hp Hl1).
    destruct (reconciledAll now rest r1) as [r2 t2]. cbn [fst snd] in *.
    eapply reconcilesAt_transport; eassumption.
Qed.

Lemma JSMap_keys_set_present {V} (k : string) (v : V) (m : JSMap.t V) :
  is_Some (JSMap.get k m) -> JSMap.keys (JSMap.set k v m) = JSMap.keys m.
Proof.
  induction m as [|[k' v'] m IH]; cbn; [intros [? [=]] |].
  destruct (String.eqb k' k) eqn:Hk; cbn; [reflexivity |].
  intros H. f_equal. exact (IH H).
Qed.

Lemma reconciledAll_keys (now : nat) (keys : list string) (r : Registry) :
  JSMap.keys (providers (reconciledAll now keys r).1) = JSMap.keys (providers r).
Proof.
  revert r. induction keys as [|key rest IH]; intros r; [reflexivity |].
  cbn [reconciledAll].
  assert (H1 : JSMap.keys (providers (reconciled now key r).1) = JSMap.keys (providers r)).
  { unfold reconciled.
    destruct (JSMap.get key (providers r)) as [provider|] eqn:Hp; [|reflexivity].
    destruct (providerLifecycles r !! key); [|reflexivity].
    destruct (bool_decide _); [reflexivity |].
    cbn. apply JSMap_keys_set_present. rewrite Hp. eauto. }
  destruct (reconciled now key r) as [r1 t1]. cbn [fst] in H1.
  specialize (IH r1). destruct (reconciledAll now rest r1) as [r2 t2]. cbn [fst] in *.
  congruence.
Qed.

(** One firing of the timer, seen from a provider with a lifecycle. *)
Lemma tick_reconciles (now : nat) (k : string) (provider : ProviderImpl)
    (lifecycle : ProviderLifecycle) (r : Registry) :
  wellFormed r ->
  JSMap.get k (providers r) = Some provider ->
  providerLifecycles r !! k = Some lifecycle ->
  result (tick now r) = Normal tt
  /\ reconcilesAt now k provider lifecycle r (final (tick now r)) (trace (tick now r))
  /\ sameCapabilities r (final (tick now r))
  /\ wellFormed (final (tick now r)).
Proof.
  intros [Hnodup Hids] Hp Hl. rewrite tick_run. unfold result, final, trace. cbn [fst snd].
  split; [reflexivity |]. split; [| split].
  - apply reconciledAll_here; try assumption.
    apply JSMap_get_in_keys. rewrite Hp. eauto.
  - apply reconciledAll_frame.
  - split.
    + rewrite reconciledAll_keys. exact Hnodup.
    + exact (proj2 (reconciledAll_frame now _ r) Hids).
Qed.

Lemma tick_wellFormed (now : nat) (r : Registry) :
  wellFormed r -> wellFormed (final (tick now r)).
Proof.
  intros [Hnodup Hids]. rewrite tick_run. unfold final. cbn [fst snd]. split.
  - rewrite reconciledAll_keys. exact Hnodup.
  - exact (proj2 (reconciledAll_frame now _ r) Hids).
Qed.

Lemma JSMap_get_set {V} (k k' : string) (v : V) (m : JSMap.t V) :
  JSMap.get k' (JSMap.set k v m)
  = if String.eqb k k' then Some v else JSMap.get k' m.
Proof.
  induction m as [|[k0 v0] m IH]; cbn; [reflexivity |].
  destruct (String.eqb k0 k) eqn:Hk0; cbn.
  - apply String.eqb_eq in Hk0 as ->. destruct (String.eqb k k'); reflexivity.
  - rewrite IH. destruct (String.eqb k0 k') eqn:Hk0'; [| reflexivity].
    apply String.eqb_eq in Hk0' as ->. rewrite String.eqb_sym, Hk0. reflexivity.
Qed.

Lemma JSMap_in_keys_set {V} (k x : string) (v : V) (m : JSMap.t V) :
  In x (JSMap.keys (JSMap.set k v m)) -> x = k \/ In x (JSMap.keys m).
Proof.
  induction m as [|[k0 v0] m IH]; cbn.
  - intros [<- | []]. left. reflexivity.
  - destruct (String.eqb k0 k); cbn.
    + intros H. right. exact H.
    + intros [<- | H]; [right; left; reflexivity |].
      destruct (IH H) as [-> | Hin]; [left; reflexivity | right; right; exact Hin].
Qed.

Lemma JSMap_set_NoDup {V} (k : string) (v : V) (m : JSMap.t V) :
  List.NoDup (JSMap.keys m) -> List.NoDup (JSMap.keys (JSMap.set k v m)).
Proof.
  induction m as [|[k0 v0] m IH]; cbn.
  - intros _. constructor; [intros [] | constructor].
  - intros [Hfresh Hnodup]%List.NoDup_cons_iff.
    destruct (String.eqb k0 k) eqn:Hk0; cbn.
    + constructor; assumption.
    + constructor; [| exact (IH Hnodup)].
      intros [-> | Hin]%JSMap_in_keys_set; [| contradiction].
      rewrite String.eqb_refl in Hk0. discriminate.
Qed.

Lemma JSMap_in_keys_delete {V} (k x : string) (m : JSMap.t V) :
  In x (JSMap.keys (JSMap.delete k m)) -> In x (JSMap.keys m).
Proof.
  induction m as [|[k0 v0] m IH]; cbn; [trivial |].
  destruct (String.eqb k0 k); cbn; [intros H; right; exact H |].
  intros [<- | H]; [left; reflexivity | right; exact (IH H)].
Qed.

Lemma JSMap_delete_NoDup {V} (k : string) (m : JSMap.t V) :
  List.NoDup (JSMap.keys m) -> List.NoDup (JSMap.keys (JSMap.delete k m)).
Proof.
  induction m as [|[k0 v0] m IH]; cbn; [trivial |].
  intros [Hfresh Hnodup]%List.NoDup_cons_iff.
  destruct (String.eqb k0 k); cbn; [exact Hnodup |].
  constructor; [| exact (IH Hnodup)].
  intros Hin%JSMap_in_keys_delete. contradiction.
Qed.

Lemma JSMap_get_delete {V} (k k' : string) (v : V) (m : JSMap.t V) :
  List.NoDup (JSMap.keys m) ->
  JSMap.get k' (JSMap.delete k m) = Some v -> JSMap.get k' m = Some v.
Proof.
  induction m as [|[k0 v0] m IH]; cbn; [trivial |].
  intros [Hfresh Hnodup]%List.NoDup_cons_iff.
  destruct (String.eqb k0 k) eqn:Hk0; cbn.
  - intros Hget. destruct (String.eqb k0 k') eqn:Hk0'; [| exact Hget].
    apply String.eqb_eq in Hk0' as ->. destruct Hfresh.
    apply JSMap_get_in_keys. rewrite Hget. eauto.
  - destruct (String.eqb k0 k'); [trivial | exact (IH Hnodup)].
Qed.

Lemma wellFormed_same_providers (r r' : Registry) :
  providers r' = providers r -> wellFormed r -> wellFormed r'.
Proof. unfold wellFormed. intros ->. trivial. Qed.

Lemma perform_wellFormed (c : Call) (r : Registry) :
  wellFormed r -> wellFormed (final (perform c r)).
Proof.
  intros Hwf. destruct c as [o|p|p lc|p a|i|now].
  - destruct Hwf as [Hnodup Hids].
    unfold wellFormed.
    change (providers (final (perform (DoCreateProvider o) r)))
      with (JSMap.set (pretty (count r)) (newProviderImpl (pretty (count r)) o)
              (providers r)).
    split; [apply JSMap_set_NoDup, Hnodup |].
    intros k p. rewrite JSMap_get_set.
    destruct (String.eqb (pretty (count r)) k) eqn:Hk; [| apply Hids].
    apply String.eqb_eq in Hk. intros [= <-]. exact Hk.
  - destruct Hwf as [Hnodup Hids]. unfold wellFormed.
    change (providers (final (perform (DoDisposeProvider p) r)))
      with (JSMap.delete (internalId p) (providers r)).
    split; [apply JSMap_delete_NoDup, Hnodup |].
    intros k p' Hget. apply Hids. exact (JSMap_get_delete _ _ _ _ Hnodup Hget).
  - apply (wellFormed_same_providers r); [| exact Hwf].
    apply (preserves_bind providers); [| intros; apply preserves_ret].
    unfold registerLifecycle, notifyLifecycleListeners. frame.
  - apply (wellFormed_same_providers r); [| exact Hwf].
    apply (preserves_bind providers); [| intros; apply preserves_ret].
    unfold registerAutostart. frame.
  - apply (wellFormed_same_providers r); [| exact Hwf].
    apply (preserves_bind providers); [| intros; apply preserves_ret].
    unfold startProvider, startProviderLifecycle, startFirstContainerConnection,
      getMatchingProvider, getMatchingProviderLifecycle, getMatchingLifecycleContext,
      notifyLifecycleListeners.
    cbn [suspended]. frame.
  - apply (wellFormed_same_providers (final (tick now r))); [| apply tick_wellFormed, Hwf].
    unfold perform, bind, final. destruct (tick now r) as [[[[]|e] r1] t1]; reflexivity.
Qed.

(** Every registry reached from a new one through its methods is well
    formed. *)
Lemma session_wellFormed (calls : list Call) (r : Registry) :
  wellFormed r -> wellFormed (session calls r).1.
Proof.
  revert r. induction calls as [|c rest IH]; intros r Hwf; [exact Hwf |].
  cbn [session]. specialize (IH _ (perform_wellFormed c r Hwf)).
  destruct (session rest (final (perform c r))) as [r' created]. exact IH.
Qed.

Lemma newProviderRegistry_wellFormed : wellFormed newProviderRegistry.
Proof. split; [constructor | intros k p [=]]. Qed.

(** C1, as the code has it. On every firing of the timer the registry polls
    [status()] of each tracked provider that has a lifecycle; when the
    status differs from the one recorded for the provider it stores it in
    the provider, notifies every listener with [provider:update-status]
    and records it, and otherwise does nothing. So when the status recorded
    for the provider is already ["A"] and [status()] returns ["A"], ["A"]
    and then ["B"] on three successive firings, the first two firings send
    nothing about this provider and the third sends one notification to
    each listener, carrying ["B"]. *)
Theorem status_reconciliation
    (r : Registry) (k : string) (provider : ProviderImpl)
    (lifecycle : ProviderLifecycle) (now : nat) (A B : ProviderStatus)
    (Hwf : wellFormed r)
    (Htracked : JSMap.get k (providers r) = Some provider)
    (Hlifecycle : providerLifecycles r !! k = Some lifecycle)
    (Hbaseline : providerStatuses r !! k = Some A)
    (Hfirst : lc_status lifecycle now = A)
    (Hsecond : lc_status lifecycle (S now) = A)
    (Hthird : lc_status lifecycle (S (S now)) = B)
    (Hchange : A <> B) :
  let run1 := tick now r in
  let run2 := tick (S now) (final run1) in
  let run3 := tick (S (S now)) (final run2) in
  (forall instant,
      reconcilesAt instant k provider lifecycle r
        (final (tick instant r)) (trace (tick instant r)))
  /\ statusUpdates k (trace run1) = []
  /\ statusUpdates k (trace run2) = []
  /\ statusUpdates k (trace run3) = statusUpdateEvents r (updateStatus B provider)
  /\ JSMap.get k (providers (final run3)) = Some (updateStatus B provider)
  /\ providerStatuses (final run3) !! k = Some B.
Proof.
  intros run1 run2 run3.
  split; [intros instant; apply tick_reconciles; assumption |].
  destruct (tick_reconciles now k provider lifecycle r Hwf Htracked Hlifecycle)
    as (_ & Hrun1 & Hsame1 & Hwf1).
  fold run1 in Hrun1, Hsame1, Hwf1.
  unfold reconcilesAt in Hrun1. cbn zeta in Hrun1.
  rewrite Hfirst, Hbaseline, bool_decide_eq_true_2 in Hrun1 by reflexivity.
  destruct Hrun1 as (Hp1 & Hs1 & Ht1).
  assert (Hl1 : providerLifecycles (final run1) !! k = Some lifecycle).
  { destruct Hsame1 as (-> & _). exact Hlifecycle. }
  destruct (tick_reconciles (S now) k provider lifecycle (final run1) Hwf1 Hp1 Hl1)
    as (_ & Hrun2 & Hsame2 & Hwf2).
  fold run2 in Hrun2, Hsame2, Hwf2.
  unfold reconcilesAt in Hrun2. cbn zeta in Hrun2.
  rewrite Hsecond, Hs1, bool_decide_eq_true_2 in Hrun2 by reflexivity.
  destruct Hrun2 as (Hp2 & Hs2 & Ht2).
  assert (Hl2 : providerLifecycles (final run2) !! k = Some lifecycle).
  { destruct Hsame2 as (-> & _). exact Hl1. }
  destruct (tick_reconciles (S (S now)) k provider lifecycle (final run2) Hwf2 Hp2 Hl2)
    as (_ & Hrun3 & _ & _).
  fold run3 in Hrun3.
  unfold reconcilesAt in Hrun3. cbn zeta in Hrun3.
  rewrite Hthird, Hs2, bool_decide_eq_false_2 in Hrun3 by congruence.
  destruct Hrun3 as (Hp3 & Hs3 & Ht3).
  rewrite (statusUpdateEvents_sameCapabilities r (final run2)) in Ht3
    by (eapply sameCapabilities_trans; eassumption).
  repeat split; assumption.
Qed.

(** * Concrete runs *)

Lemma observedRegistry_wellFormed : wellFormed observedRegistry.
Proof.
  split.
  - vm_compute. constructor; [intros [] | constructor].
  - intros k p.
    change (providers observedRegistry) with [("0", updateStatus Ready podman)].
    cbn [JSMap.get]. destruct (String.eqb "0" k) eqn:Hk; [| discriminate].
    apply String.eqb_eq in Hk. intros [= <-]. exact Hk.
Defined.

(** C1 as stated fails on a registry that has not yet polled the provider:
    no status is recorded, so the first firing already notifies. With
    [status()] returning "ready", "ready", "started" at instants 1, 2, 3 the
    listener is notified twice, at instants 1 and 3. *)
Lemma status_reconciliation_first_poll_notifies :
  let run1 := tick 1 freshRegistry in
  let run2 := tick 2 (final run1) in
  let run3 := tick 3 (final run2) in
  providerStatuses freshRegistry !! "0" = None
  /\ map (lc_status machineLifecycle) [1; 2; 3] = [Ready; Ready; Started]
  /\ length (statusUpdates "0" (trace run1)) = 1
  /\ length (statusUpdates "0" (trace run2)) = 0
  /\ length (statusUpdates "0" (trace run3)) = 1
  /\ length (statusUpdates "0" (trace run1 ++ trace run2 ++ trace run3)) <> 1.
Proof. vm_compute. repeat split; discriminate. Qed.

Lemma status_reconciliation_witness :
  let run1 := tick 1 observedRegistry in
  let run2 := tick 2 (final run1) in
  let run3 := tick 3 (final run2) in
  statusUpdates "0" (trace run1) = []
  /\ statusUpdates "0" (trace run2) = []
  /\ statusUpdates "0" (trace run3)
     = statusUpdateEvents observedRegistry (updateStatus Started (updateStatus Ready podman))
  /\ JSMap.get "0" (providers (final run3))
     = Some (updateStatus Started (updateStatus Ready podman))
  /\ providerStatuses (final run3) !! "0" = Some Started.
Proof.
  refine (proj2 (status_reconciliation observedRegistry "0" (updateStatus Ready podman)
                   machineLifecycle 1 Ready Started observedRegistry_wellFormed
                   _ _ _ _ _ _ _)).
  all: try (vm_compute; reflexivity).
  discriminate.
Defined.

Lemma startProvider_dispatch_witness :
  startProvider [tick 1] "0" (connectionRegistry resolves)
  = (Normal tt, connectionRegistry resolves,
     [CallConnectionStart (machine resolves) NewLifecycleContextImpl]).
Proof.
  assert (Htracked : JSMap.get "0" (providers (connectionRegistry resolves))
                     = Some (withConnections [machine resolves] podman))
    by (vm_compute; reflexivity).
  destruct (startProvider_dispatch [tick 1] _ _ _ Htracked) as [_ H].
  destruct H as [_ H]; [vm_compute; reflexivity |].
  rewrite H. vm_compute. reflexivity.
Defined.

Lemma runPreflightChecks_witness :
  runPreflightChecks "0" false installRegistry
  = (Normal false, installRegistry,
     [StartCheck "cpu"; CallExecute (passingCheck "cpu");
      EndCheck "cpu" true None None;
      StartCheck "memory"; CallExecute (throwingCheck "memory" "not enough memory");
      ConsoleError (JsError "not enough memory");
      EndCheck "memory" false (Some "not enough memory") None]).
Proof.
  assert (Hselected : selectedCapability installRegistry "0" false
                      = Some (AnInstallation installation))
    by (vm_compute; reflexivity).
  destruct (runPreflightChecks_sequential_short_circuit _ _ _ _ Hselected) as [H _].
  exact (H [passingCheck "cpu"] [passingCheck "disk"]
           (throwingCheck "memory" "not enough memory") "not enough memory"
           eq_refl eq_refl eq_refl).
Defined.

Lemma registerLifecycle_dispose_witness :
  exists handle r1 t1,
    registerLifecycle podman machineLifecycle freshRegistry = (Normal handle, r1, t1)
    /\ providerLifecycles r1 !! "0" = Some machineLifecycle
    /\ providerLifecycleContexts r1 !! "0" = Some NewLifecycleContextImpl
    /\ let r2 := final (dispose handle r1) in
       providerLifecycles r2 !! "0" = None
       /\ providerLifecycleContexts r2 !! "0" = None
       /\ forall meanwhile,
            startProviderLifecycle meanwhile "0" r2
            = (Throw (JsError "no provider lifecycle matching provider id 0"), r2, []).
Proof.
  refine (registerLifecycle_dispose_roundtrip freshRegistry podman podman
            machineLifecycle _).
  vm_compute. reflexivity.
Defined.

(** C7 as stated fails where [delete()] rejects: the telemetry event has
    already been recorded. It is recorded, and [delete()] is called, also
    when the connection has no lifecycle context. *)
Lemma deleteProviderConnection_telemetry_before_delete :
  let r := connectionRegistry (fails "machine is running") in
  let info := machineInfo (fails "machine is running") in
  let event := TelemetryTrack "deleteProviderConnection" [("name", "podman-machine-default")] in
  result (deleteProviderConnection "0" info r) = Throw (JsError "machine is running")
  /\ In event (trace (deleteProviderConnection "0" info r))
  /\ let r' := with_connectionLifecycleContexts ∅ r in
     connectionLifecycleContexts r' !! 1 = None
     /\ trace (deleteProviderConnection "0" info r')
        = [event; CallConnectionDelete (machine (fails "machine is running"))].
Proof. vm_compute. repeat split. left. reflexivity. Qed.

Lemma deleteProviderConnection_witness :
  deleteProviderConnection "0" (machineInfo resolves) (connectionRegistry resolves)
  = (Normal tt, connectionRegistry resolves,
     [TelemetryTrack "deleteProviderConnection" [("name", "podman-machine-default")];
      CallConnectionDelete (machine resolves)]).
Proof.
  assert (Htracked : JSMap.get "0" (providers (connectionRegistry resolves))
                     = Some (withConnections [machine resolves] podman))
    by (vm_compute; reflexivity).
  destruct (deleteProviderConnection_spec _ _ _ (machineInfo resolves) Htracked) as [H _].
  rewrite H. vm_compute. reflexivity.
Defined.

Lemma codeUnitCompare_total (a b : string) :
  (0 < codeUnitCompare a b)%Z -> (codeUnitCompare b a <= 0)%Z.
Proof.
  unfold codeUnitCompare. rewrite (String.compare_antisym b a).
  destruct (String.compare a b); cbn; lia.
Defined.

Lemma codeUnitCompare_le (a b : string) :
  (codeUnitCompare a b <= 0)%Z <-> a = b \/ OrdersEx.String_as_OT.lt a b.
Proof.
  unfold codeUnitCompare.
  pose proof (OrdersEx.String_as_OT.compare_spec a b) as Hspec.
  change (OrdersEx.String_as_OT.compare a b) with (String.compare a b) in Hspec.
  destruct Hspec as [Heq | Hlt | Hgt].
  - split; [left; exact Heq | lia].
  - split; [right; exact Hlt | lia].
  - split; [lia |]. intros [-> | Hlt].
    + destruct (StrictOrder_Irreflexive _ Hgt).
    + destruct (StrictOrder_Irreflexive _ (StrictOrder_Transitive _ _ _ Hlt Hgt)).
Defined.

Lemma codeUnitCompare_trans (a b c : string) :
  (codeUnitCompare a b <= 0)%Z -> (codeUnitCompare b c <= 0)%Z ->
  (codeUnitCompare a c <= 0)%Z.
Proof.
  rewrite !codeUnitCompare_le. intros [-> | Hab] [-> | Hbc]; auto.
  right. exact (StrictOrder_Transitive _ _ _ Hab Hbc).
Defined.

Lemma getProviderInfos_witness :
  StronglySorted (descending codeUnitCompare) (getProviderInfos codeUnitCompare twoProviders)
  /\ Permutation (getProviderInfos codeUnitCompare twoProviders)
       (map (getProviderInfo twoProviders) (JSMap.values (providers twoProviders))).
Proof.
  exact (getProviderInfos_sorted_descending codeUnitCompare
           codeUnitCompare_total codeUnitCompare_trans twoProviders).
Defined.

Example getProviderInfos_two_providers :
  map pi_name (map (getProviderInfo twoProviders) (JSMap.values (providers twoProviders)))
  = ["Docker"; "Podman"]
  /\ map pi_name (getProviderInfos codeUnitCompare twoProviders) = ["Podman"; "Docker"].
Proof. vm_compute. split; reflexivity. Qed.

Lemma internalId_unique_witness :
  let created := (session createDisposeCreate newProviderRegistry).2 in
  map internalId created = ["0"; "1"]
  /\ List.NoDup (map internalId created)
  /\ count (session createDisposeCreate newProviderRegistry).1 = 2%N.
Proof.
  refine (internalId_unique createDisposeCreate _).
  vm_compute. discriminate.
Defined.



(** * Further properties of the registry *)

(** ** Listener lists *)

Lemma indexOf_absent (xs : list Listener) (x : Listener) :
  ~ In x xs -> indexOf xs x = None.
Proof.
  induction xs as [|y xs IH]; cbn; [reflexivity |].
  intros Hnotin. destruct (Nat.eqb y x) eqn:Hy.
  - apply Nat.eqb_eq in Hy. destruct Hnotin. left. exact Hy.
  - rewrite IH; [reflexivity |]. intros Hin. apply Hnotin. right. exact Hin.
Qed.

Lemma indexOf_appended (xs : list Listener) (x : Listener) :
  ~ In x xs -> indexOf (xs ++ [x]) x = Some (length xs).
Proof.
  induction xs as [|y xs IH]; cbn.
  - intros _. rewrite Nat.eqb_refl. reflexivity.
  - intros Hnotin. destruct (Nat.eqb y x) eqn:Hy.
    + apply Nat.eqb_eq in Hy. destruct Hnotin. left. exact Hy.
    + rewrite IH; [reflexivity |]. intros Hin. apply Hnotin. right. exact Hin.
Qed.

Lemma splice1_appended (xs : list Listener) (x : Listener) :
  splice1 (length xs) (xs ++ [x]) = xs.
Proof.
  unfold splice1. rewrite take_app_length.
  rewrite drop_ge by (rewrite length_app; cbn; lia).
  apply app_nil_r.
Qed.

Lemma with_listeners_same (r : Registry) : with_listeners (listeners r) r = r.
Proof. destruct r. reflexivity. Qed.

Lemma with_lifecycleListeners_same (r : Registry) :
  with_lifecycleListeners (lifecycleListeners r) r = r.
Proof. destruct r. reflexivity. Qed.

(** X1. Removing a provider listener that is not registered does nothing;
    adding such a listener and removing it again gives the registry back;
    and a listener that is not registered is not called when a provider is
    created. *)
Theorem removeProviderListener_roundtrip (r : Registry) (listener : Listener)
    (Hfresh : ~ In listener (listeners r)) :
  removeProviderListener listener r = (Normal tt, r, [])
  /\ final (removeProviderListener listener (final (addProviderListener listener r))) = r
  /\ (forall providerOptions ev,
        In ev (trace (createProvider providerOptions r)) ->
        ~ callsProviderListener listener ev).
Proof.
  split; [| split].
  - unfold removeProviderListener, bind, read. cbn.
    rewrite (indexOf_absent _ _ Hfresh). reflexivity.
  - unfold removeProviderListener, addProviderListener, bind, read, modify, final. cbn.
    rewrite (indexOf_appended _ _ Hfresh). cbn.
    rewrite splice1_appended. destruct r. reflexivity.
  - intros o ev. unfold createProvider, notifyListeners, bind, read, modify, tell, trace.
    cbn. rewrite in_app_iff, in_map_iff.
    intros [(l & <- & Hl) | Hin].
    + cbn. intros ->. exact (Hfresh Hl).
    + cbn in Hin. destruct Hin as [<- | [<- | []]]; cbn; intros [].
Qed.

(** X2. The same for lifecycle listeners: removing one that is not
    registered does nothing, adding and removing it gives the registry back,
    and it is not called when a lifecycle is registered. *)
Theorem removeProviderLifecycleListener_roundtrip (r : Registry) (listener : Listener)
    (Hfresh : ~ In listener (lifecycleListeners r)) :
  removeProviderLifecycleListener listener r = (Normal tt, r, [])
  /\ final (removeProviderLifecycleListener listener
              (final (addProviderLifecycleListener listener r))) = r
  /\ (forall providerImpl lifecycle ev,
        In ev (trace (registerLifecycle providerImpl lifecycle r)) ->
        ~ callsLifecycleListener listener ev).
Proof.
  split; [| split].
  - unfold removeProviderLifecycleListener, bind, read. cbn.
    rewrite (indexOf_absent _ _ Hfresh). reflexivity.
  - unfold removeProviderLifecycleListener, addProviderLifecycleListener, bind, read,
      modify, final. cbn.
    rewrite (indexOf_appended _ _ Hfresh). cbn.
    rewrite splice1_appended. destruct r. reflexivity.
  - intros p lifecycle ev.
    unfold registerLifecycle, notifyLifecycleListeners, bind, read, modify, tell, trace.
    cbn. rewrite app_nil_r, in_map_iff.
    intros (l & <- & Hl). cbn. intros ->. exact (Hfresh Hl).
Qed.

(** ** Creating and disposing providers *)

Lemma JSMap_get_delete_same {V} (k : string) (m : JSMap.t V) :
  List.NoDup (JSMap.keys m) -> JSMap.get k (JSMap.delete k m) = None.
Proof.
  induction m as [|[k0 v0] m IH]; cbn; [reflexivity |].
  intros [Hfresh Hnodup]%List.NoDup_cons_iff.
  destruct (String.eqb k0 k) eqn:Hk0; cbn.
  - apply String.eqb_eq in Hk0 as ->.
    destruct (JSMap.get k m) eqn:Hget; [| reflexivity].
    destruct Hfresh. apply JSMap_get_in_keys. rewrite Hget. eauto.
  - rewrite Hk0. exact (IH Hnodup).
Qed.

Lemma runAutostart_calls (r : Registry) :
  trace (runAutostart r)
  = map (fun autoStart => CallAutostart autoStart NewLoggerImpl)
      (started (JSMap.values (providerAutostarts r))).
Proof. rewrite runAutostart_run. reflexivity. Qed.

(** X3. [createProvider] never throws. The provider it returns carries the
    decimal string of the counter as [internalId] and is what
    [getMatchingProvider] finds under that id afterwards; the providers
    stored under other ids are untouched. Every provider listener is called
    with [provider:create], then the telemetry event is recorded, then the
    id is sent on the [provider-create] channel. *)
Theorem createProvider_lookup (r : Registry) (providerOptions : ProviderOptions) :
  let run := createProvider providerOptions r in
  let providerImpl := newProviderImpl (pretty (count r)) providerOptions in
  result run = Normal providerImpl
  /\ getMatchingProvider (pretty (count r)) (final run)
     = (Normal providerImpl, final run, [])
  /\ (forall k, k <> pretty (count r) ->
        JSMap.get k (providers (final run)) = JSMap.get k (providers r))
  /\ exists fields,
       trace run
       = providerEvents (final run) "provider:create" providerImpl
         ++ [TelemetryTrack "createProvider" fields;
             ApiSend "provider-create" (pretty (count r))]
       /\ In ("name", opt_name providerOptions) fields
       /\ In ("status", ProviderStatus_toString (opt_status providerOptions)) fields.
Proof.
  intros run providerImpl.
  assert (Hproviders : providers (final run)
                       = JSMap.set (pretty (count r)) providerImpl (providers r))
    by reflexivity.
  split; [reflexivity |]. split; [| split].
  - apply getMatchingProvider_tracked. rewrite Hproviders, JSMap_get_set.
    rewrite String.eqb_refl. reflexivity.
  - intros k Hk. rewrite Hproviders. apply JSMap_get_set_ne. congruence.
  - eexists. split; [reflexivity |]. split; [left; reflexivity | right; left; reflexivity].
Qed.

(** X4. [disposeProvider] on a well-formed registry removes the provider, so
    that [getMatchingProvider] throws for its id, notifies every provider
    listener with [provider:delete] and sends the business id on the
    [provider-delete] channel. It leaves everything registered under the
    provider's id in place: lifecycle, context, installation, update,
    autostart and recorded status; [runAutostart] makes the same calls as
    before. *)
Theorem disposeProvider_keeps_capabilities (r : Registry) (providerImpl : ProviderImpl)
    (Hwf : wellFormed r) :
  let run := disposeProvider providerImpl r in
  let r' := final run in
  result run = Normal tt
  /\ trace run
     = providerEvents r' "provider:delete" providerImpl
       ++ [ApiSend "provider-delete" (id providerImpl)]
  /\ getMatchingProvider (internalId providerImpl) r'
     = (Throw (JsError ("no provider matching provider id " +:+ internalId providerImpl)),
        r', [])
  /\ providerLifecycles r' = providerLifecycles r
  /\ providerLifecycleContexts r' = providerLifecycleContexts r
  /\ providerInstallations r' = providerInstallations r
  /\ providerUpdates r' = providerUpdates r
  /\ providerAutostarts r' = providerAutostarts r
  /\ providerStatuses r' = providerStatuses r
  /\ trace (runAutostart r') = trace (runAutostart r).
Proof.
  intros run r'. destruct Hwf as [Hnodup _].
  split; [reflexivity |]. split; [reflexivity |]. split.
  - unfold getMatchingProvider, bind, read. cbn.
    rewrite (JSMap_get_delete_same _ _ Hnodup). reflexivity.
  - repeat split; try reflexivity. rewrite !runAutostart_calls. reflexivity.
Qed.

(** ** Registration handles *)

Lemma registration_handles (r : Registry) (providerImpl : ProviderImpl)
    (lifecycle : ProviderLifecycle) (installation : ProviderInstallation)
    (upd : ProviderUpdate) (autostart : ProviderAutostart) :
  result (registerLifecycle providerImpl lifecycle r)
  = Normal (lifecycleHandle providerImpl lifecycle)
  /\ result (registerInstallation providerImpl installation r)
     = Normal (installationHandle providerImpl)
  /\ result (registerUpdate providerImpl upd r) = Normal (updateHandle providerImpl)
  /\ result (registerAutostart providerImpl autostart r)
     = Normal (autostartHandle providerImpl).
Proof. repeat split. Qed.

Lemma installProvider_run (r : Registry) (providerInternalId : string)
    (provider : ProviderImpl) :
  JSMap.get providerInternalId (providers r) = Some provider ->
  installProvider providerInternalId r
  = match providerInstallations r !! providerInternalId with
    | None =>
        (Throw (JsError ("No matching installation for provider " +:+ internalId provider)),
         r, [])
    | Some providerInstall =>
        (settle (install providerInstall NewLoggerImpl), r,
         [TelemetryTrack "installProvider" [("name", name provider)]])
    end.
Proof.
  intros Hp. unfold installProvider. unfold bind at 1.
  rewrite (getMatchingProvider_tracked _ _ _ Hp). unfold bind at 1, read.
  destruct (providerInstallations r !! providerInternalId) as [i|]; [| reflexivity].
  unfold bind, tell. rewrite await_settle. reflexivity.
Qed.

Lemma updateProvider_run (r : Registry) (providerInternalId : string)
    (provider : ProviderImpl) :
  JSMap.get providerInternalId (providers r) = Some provider ->
  updateProvider providerInternalId r
  = match providerUpdates r !! providerInternalId with
    | None =>
        (Throw (JsError ("No matching update for provider " +:+ internalId provider)),
         r, [])
    | Some providerUpdate =>
        (settle (update providerUpdate NewLoggerImpl), r,
         [TelemetryTrack "updateProvider" [("name", name provider)]])
    end.
Proof.
  intros Hp. unfold updateProvider. unfold bind at 1.
  rewrite (getMatchingProvider_tracked _ _ _ Hp). unfold bind at 1, read.
  destruct (providerUpdates r !! providerInternalId) as [u|]; [| reflexivity].
  unfold bind, tell. rewrite await_settle. reflexivity.
Qed.

(** X5. Once an installation is registered for a tracked provider, the
    provider's descriptor reports [installationSupport] and [installProvider]
    records the [installProvider] telemetry event and calls [install], whose
    outcome it returns. Once the handle is disposed the descriptor no longer
    reports it and [installProvider] throws
    "No matching installation for provider ...". *)
Theorem registerInstallation_roundtrip (r : Registry) (providerImpl tracked : ProviderImpl)
    (installation : ProviderInstallation)
    (Htracked : JSMap.get (internalId providerImpl) (providers r) = Some tracked) :
  let r1 := final (registerInstallation providerImpl installation r) in
  let r2 := final (dispose (installationHandle providerImpl) r1) in
  pi_installationSupport (getProviderInfo r1 providerImpl) = true
  /\ installProvider (internalId providerImpl) r1
     = (settle (install installation NewLoggerImpl), r1,
        [TelemetryTrack "installProvider" [("name", name tracked)]])
  /\ pi_installationSupport (getProviderInfo r2 providerImpl) = false
  /\ installProvider (internalId providerImpl) r2
     = (Throw (JsError ("No matching installation for provider " +:+ internalId tracked)),
        r2, []).
Proof.
  intros r1 r2.
  assert (H1 : providerInstallations r1 !! internalId providerImpl = Some installation)
    by apply lookup_insert_eq.
  assert (H2 : providerInstallations r2 !! internalId providerImpl = None)
    by apply lookup_delete_eq.
  split; [| split; [| split]].
  - cbn [getProviderInfo pi_installationSupport]. rewrite H1.
    apply bool_decide_eq_true_2. eauto.
  - rewrite (installProvider_run r1 _ tracked Htracked), H1. reflexivity.
  - cbn [getProviderInfo pi_installationSupport]. rewrite H2.
    apply bool_decide_eq_false_2. intros [? [=]].
  - rewrite (installProvider_run r2 _ tracked Htracked), H2. reflexivity.
Qed.

(** X6. Once an update is registered for a tracked provider, the provider's
    descriptor carries the update's version as [updateInfo] and
    [updateProvider] records the [updateProvider] telemetry event and calls
    [update], whose outcome it returns. Once the handle is disposed the
    descriptor has no [updateInfo] and [updateProvider] throws
    "No matching update for provider ...". *)
Theorem registerUpdate_roundtrip (r : Registry) (providerImpl tracked : ProviderImpl)
    (upd : ProviderUpdate)
    (Htracked : JSMap.get (internalId providerImpl) (providers r) = Some tracked) :
  let r1 := final (registerUpdate providerImpl upd r) in
  let r2 := final (dispose (updateHandle providerImpl) r1) in
  pi_updateInfo (getProviderInfo r1 providerImpl) = Some (upd_version upd)
  /\ updateProvider (internalId providerImpl) r1
     = (settle (update upd NewLoggerImpl), r1,
        [TelemetryTrack "updateProvider" [("name", name tracked)]])
  /\ pi_updateInfo (getProviderInfo r2 providerImpl) = None
  /\ updateProvider (internalId providerImpl) r2
     = (Throw (JsError ("No matching update for provider " +:+ internalId tracked)),
        r2, []).
Proof.
  intros r1 r2.
  assert (H1 : providerUpdates r1 !! internalId providerImpl = Some upd)
    by apply lookup_insert_eq.
  assert (H2 : providerUpdates r2 !! internalId providerImpl = None)
    by apply lookup_delete_eq.
  split; [| split; [| split]].
  - cbn [getProviderInfo pi_updateInfo]. rewrite H1. reflexivity.
  - rewrite (updateProvider_run r1 _ tracked Htracked), H1. reflexivity.
  - cbn [getProviderInfo pi_updateInfo]. rewrite H2. reflexivity.
  - rewrite (updateProvider_run r2 _ tracked Htracked), H2. reflexivity.
Qed.

(** X7. Registering a second lifecycle for a provider replaces the first,
    and the handle of the first registration still removes whatever is
    registered: disposing it after the second registration leaves the
    provider without lifecycle and without context, and tells the lifecycle
    listeners that the first lifecycle was removed. *)
Theorem stale_lifecycle_handle_removes_newer (r : Registry) (providerImpl : ProviderImpl)
    (first second : ProviderLifecycle) :
  let r1 := final (registerLifecycle providerImpl first r) in
  let r2 := final (registerLifecycle providerImpl second r1) in
  let run := dispose (lifecycleHandle providerImpl first) r2 in
  result (registerLifecycle providerImpl first r)
  = Normal (lifecycleHandle providerImpl first)
  /\ providerLifecycles r2 !! internalId providerImpl = Some second
  /\ providerLifecycles (final run) !! internalId providerImpl = None
  /\ providerLifecycleContexts (final run) !! internalId providerImpl = None
  /\ trace run
     = lifecycleEvents (final run) "provider:removal-lifecycle" providerImpl first.
Proof.
  intros r1 r2 run. split; [reflexivity |]. split; [apply lookup_insert_eq |].
  split; [apply lookup_delete_eq |]. split; [apply lookup_delete_eq |].
  reflexivity.
Qed.

(** ** What each method leaves unchanged *)

Lemma runChecks_preserves {X} (field : Registry -> X) (checks : list InstallCheck) :
  preserves field (runChecks checks).
Proof.
  induction checks as [|check rest IH]; cbn [runChecks]; [apply preserves_ret |].
  frame. exact IH.
Qed.

Lemma startAll_preserves {X} (field : Registry -> X)
    (autostartValues : list ProviderAutostart) :
  preserves field (startAll autostartValues).
Proof.
  induction autostartValues as [|autoStart rest IH]; cbn [startAll];
    [apply preserves_ret |].
  apply preserves_bind; [apply preserves_tell |]. intros _.
  apply preserves_bind.
  - destruct (autostart_start autoStart NewLoggerImpl);
      [apply preserves_ret | apply preserves_throw].
  - intros promise. apply preserves_bind; [exact IH |].
    intros promises. apply preserves_ret.
Qed.

(** Closes [field (after m r) = field r] for a method that does not assign
    [field]. *)
Ltac frame_method :=
  cbn [after];
  match goal with
  | |- ?field (final (?method ?r)) = ?field ?r =>
      refine ((_ : preserves field method) r)
  end;
  unfold createProvider, disposeProvider, registerLifecycle, registerInstallation,
    registerUpdate, registerAutostart, lifecycleHandle, installationHandle,
    updateHandle, autostartHandle, addProviderListener, removeProviderListener,
    addProviderLifecycleListener, removeProviderLifecycleListener,
    addProviderContainerConnectionLifecycleListener,
    removeProviderContainerConnectionLifecycleListener,
    intializeProviderLifecycle, startProviderLifecycle, stopProviderLifecycle,
    runAutostart, runPreflightChecks, installProvider, updateProvider, startProvider,
    initializeProvider, createProviderConnection, startProviderConnection,
    stopProviderConnection, deleteProviderConnection,
    onDidRegisterContainerConnection, onDidChangeContainerProviderConnectionStatus,
    onDidUnregisterContainerConnection, tick, reconcile,
    startFirstContainerConnection, getMatchingContainerConnectionFromProvider,
    getMatchingProvider, getMatchingProviderLifecycle, getMatchingLifecycleContext,
    notifyListeners, notifyLifecycleListeners, notifyContainerConnectionListeners;
  cbn [dispose suspended];
  repeat first
    [ apply runChecks_preserves
    | apply startAll_preserves
    | match goal with |- forall _, _ => intro end
    | progress cbv zeta
    | apply preserves_bind
    | apply preserves_forEach
    | apply preserves_ret | apply preserves_read | apply preserves_tell
    | apply preserves_throw | apply preserves_throwError | apply preserves_await
    | apply preserves_modify; intros; reflexivity
    | match goal with
      | |- preserves _ (match ?x with _ => _ end) => destruct x
      | |- preserves _ (if ?x then _ else _) => destruct x
      end ].

Lemma after_providers (m : Method) (r : Registry) :
  match m with
  | CreateProvider _ | DisposeProvider _ | Tick _ => True
  | _ => providers (after m r) = providers r
  end.
Proof. destruct m; try exact I; frame_method. Qed.

Lemma after_count (m : Method) (r : Registry) :
  match m with
  | CreateProvider _ => True
  | _ => count (after m r) = count r
  end.
Proof. destruct m; try exact I; frame_method. Qed.

Lemma after_lifecycles (m : Method) (r : Registry) :
  match m with
  | RegisterLifecycle _ _ | DisposeLifecycle _ _ => True
  | _ => providerLifecycles (after m r) = providerLifecycles r
         /\ providerLifecycleContexts (after m r) = providerLifecycleContexts r
  end.
Proof. destruct m; try exact I; split; frame_method. Qed.

Lemma after_connectionLifecycleContexts (m : Method) (r : Registry) :
  match m with
  | OnDidRegisterContainerConnection _ _ => True
  | _ => connectionLifecycleContexts (after m r) = connectionLifecycleContexts r
  end.
Proof. destruct m; try exact I; frame_method. Qed.

(** ** Invariants of reachable registries *)

Lemma after_wellFormed (m : Method) (r : Registry) :
  wellFormed r -> wellFormed (after m r).
Proof.
  intros Hwf. pose proof (after_providers m r) as Hsame.
  destruct m;
    try (apply (wellFormed_same_providers r); [exact Hsame | exact Hwf]).
  - exact (perform_wellFormed (DoCreateProvider providerOptions) r Hwf).
  - exact (perform_wellFormed (DoDisposeProvider providerImpl) r Hwf).
  - apply tick_wellFormed, Hwf.
Qed.

(** X8. Every registry that a new registry can become through the methods
    of the class, the timer and the handles it returns keeps its providers
    under pairwise distinct keys, each provider under its own
    [internalId]. *)
Theorem reachable_wellFormed (r : Registry) (Hreachable : reachable r) : wellFormed r.
Proof.
  induction Hreachable as [|m r _ IH].
  - apply newProviderRegistry_wellFormed.
  - apply after_wellFormed, IH.
Qed.

Lemma after_lifecyclesHaveContexts (m : Method) (r : Registry) :
  lifecyclesHaveContexts r -> lifecyclesHaveContexts (after m r).
Proof.
  intros Hinv. pose proof (after_lifecycles m r) as Hsame.
  destruct m;
    try (intros k; rewrite (proj1 Hsame), (proj2 Hsame); apply Hinv).
  - intros k. cbn. destruct (decide (internalId providerImpl = k)) as [<- | Hne].
    + rewrite !lookup_insert_eq. split; eauto.
    + rewrite !lookup_insert_ne by exact Hne. apply Hinv.
  - intros k. cbn. destruct (decide (internalId providerImpl = k)) as [<- | Hne].
    + rewrite !lookup_delete_eq. split; intros [? [=]].
    + rewrite !lookup_delete_ne by exact Hne. apply Hinv.
Qed.

(** X9. In every reachable registry a lifecycle is registered for exactly
    the ids that have a lifecycle context: the two maps are only written
    together, by [registerLifecycle] and by its handle. So where a lifecycle
    is registered, [getMatchingLifecycleContext] returns a context and does
    not throw. *)
Theorem reachable_lifecycle_has_context (r : Registry) (providerId : string)
    (lifecycle : ProviderLifecycle)
    (Hreachable : reachable r)
    (Hlifecycle : providerLifecycles r !! providerId = Some lifecycle) :
  lifecyclesHaveContexts r
  /\ exists context,
       getMatchingLifecycleContext providerId r = (Normal context, r, []).
Proof.
  assert (Hinv : lifecyclesHaveContexts r).
  { clear Hlifecycle. induction Hreachable as [|m r _ IH].
    - intros k. cbn. rewrite !lookup_empty. split; intros [? [=]].
    - apply after_lifecyclesHaveContexts, IH. }
  split; [exact Hinv |].
  destruct (proj1 (Hinv providerId)) as [context Hcontext]; [eauto |].
  exists context. unfold getMatchingLifecycleContext, bind, read. cbn.
  rewrite Hcontext. reflexivity.
Qed.

Lemma JSMap_get_absent {V} (k : string) (m : JSMap.t V) :
  ~ In k (JSMap.keys m) -> JSMap.get k m = None.
Proof.
  intros Hnotin. destruct (JSMap.get k m) eqn:Hget; [| reflexivity].
  destruct Hnotin. apply JSMap_get_in_keys. rewrite Hget. eauto.
Qed.

Lemma JSMap_set_absent {V} (k : string) (v : V) (m : JSMap.t V) :
  JSMap.get k m = None -> JSMap.set k v m = m ++ [(k, v)].
Proof.
  induction m as [|[k0 v0] m IH]; cbn; [reflexivity |].
  destruct (String.eqb k0 k); [discriminate |].
  intros H. rewrite (IH H). reflexivity.
Qed.

Lemma after_keysBelowCount (m : Method) (r : Registry) :
  keysBelowCount r -> keysBelowCount (after m r).
Proof.
  intros Hinv. pose proof (after_providers m r) as Hp.
  pose proof (after_count m r) as Hc.
  destruct m; try (unfold keysBelowCount; rewrite Hp, Hc; exact Hinv).
  - unfold keysBelowCount.
    change (count (after (CreateProvider providerOptions) r)) with (js_incr (count r)).
    change (providers (after (CreateProvider providerOptions) r))
      with (JSMap.set (pretty (count r)) (newProviderImpl (pretty (count r)) providerOptions)
              (providers r)).
    unfold js_incr. destruct (count r <? 2 ^ 53)%N eqn:Hlt.
    + apply N.ltb_lt in Hlt. intros _ k [-> | Hin]%JSMap_in_keys_set.
      * exists (count r). split; [lia | reflexivity].
      * destruct (Hinv Hlt k Hin) as (n & Hn & ->). exists n. split; [lia | reflexivity].
    + apply N.ltb_ge in Hlt. intros Hlt'. lia.
  - unfold keysBelowCount. rewrite Hc.
    change (providers (after (DisposeProvider providerImpl) r))
      with (JSMap.delete (internalId providerImpl) (providers r)).
    intros Hlt k Hin%JSMap_in_keys_delete. exact (Hinv Hlt k Hin).
  - unfold keysBelowCount. rewrite Hc. cbn [after]. rewrite tick_run. unfold final.
    cbn [fst snd]. rewrite reconciledAll_keys. exact Hinv.
Qed.

(** X10. In a reachable registry whose counter is below 2^53 no provider is
    stored under the decimal string of the counter. So [createProvider]
    appends a new entry to the providers: it replaces none, and every
    provider that was tracked is still found under its id. *)
Theorem createProvider_never_replaces (r : Registry) (providerOptions : ProviderOptions)
    (Hreachable : reachable r) (Hexact : (count r < 2 ^ 53)%N) :
  JSMap.get (pretty (count r)) (providers r) = None
  /\ providers (final (createProvider providerOptions r))
     = providers r
       ++ [(pretty (count r), newProviderImpl (pretty (count r)) providerOptions)]
  /\ forall k provider,
       JSMap.get k (providers r) = Some provider ->
       JSMap.get k (providers (final (createProvider providerOptions r))) = Some provider.
Proof.
  assert (Hinv : keysBelowCount r).
  { clear Hexact. induction Hreachable as [|m r _ IH].
    - intros _ k [].
    - apply after_keysBelowCount, IH. }
  assert (Hfresh : JSMap.get (pretty (count r)) (providers r) = None).
  { apply JSMap_get_absent. intros Hin.
    destruct (Hinv Hexact _ Hin) as (n & Hn & Heq).
    apply (inj pretty) in Heq. lia. }
  split; [exact Hfresh |]. split.
  - change (providers (final (createProvider providerOptions r)))
      with (JSMap.set (pretty (count r)) (newProviderImpl (pretty (count r)) providerOptions)
              (providers r)).
    apply JSMap_set_absent, Hfresh.
  - intros k provider Hget.
    change (providers (final (createProvider providerOptions r)))
      with (JSMap.set (pretty (count r)) (newProviderImpl (pretty (count r)) providerOptions)
              (providers r)).
    rewrite JSMap_get_set_ne; [exact Hget |]. intros <-. congruence.
Qed.

(** X11. No method of the registry removes a connection's lifecycle context:
    once [onDidRegisterContainerConnection] has created it, it is there
    after every later call, [onDidUnregisterContainerConnection]
    included. *)
Theorem connection_context_never_removed (m : Method) (r : Registry) (ref : nat)
    (Hcontext : is_Some (connectionLifecycleContexts r !! ref)) :
  is_Some (connectionLifecycleContexts (after m r) !! ref).
Proof.
  pose proof (after_connectionLifecycleContexts m r) as Hsame.
  destruct m; try (rewrite Hsame; exact Hcontext).
  cbn. destruct (decide (conn_ref connection = ref)) as [<- | Hne].
  - rewrite lookup_insert_eq. eauto.
  - rewrite lookup_insert_ne by exact Hne. exact Hcontext.
Qed.

(** ** Provider lifecycle calls *)

Lemma lifecycle_lookups {A} (r : Registry) (providerId : string)
    (provider : ProviderImpl) (lifecycle : ProviderLifecycle)
    (context : LifecycleContextImpl)
    (k : ProviderImpl -> ProviderLifecycle -> LifecycleContextImpl -> M A) :
  JSMap.get providerId (providers r) = Some provider ->
  providerLifecycles r !! providerId = Some lifecycle ->
  providerLifecycleContexts r !! providerId = Some context ->
  (p <- getMatchingProvider providerId ;;
   l <- getMatchingProviderLifecycle providerId ;;
   c <- getMatchingLifecycleContext providerId ;;
   k p l c) r
  = k provider lifecycle context r.
Proof.
  intros Hp Hl Hc. unfold bind at 1. rewrite (getMatchingProvider_tracked _ _ _ Hp).
  unfold bind at 1, getMatchingProviderLifecycle, bind at 1, read. rewrite Hl.
  unfold ret. unfold bind at 1, getMatchingLifecycleContext, bind at 1, read. rewrite Hc.
  unfold ret. destruct (k provider lifecycle context r) as [[c r'] t]. reflexivity.
Qed.

Lemma suspended_interleaved (meanwhile : Interleaving) (provider : ProviderImpl)
    (r : Registry) :
  suspended meanwhile provider r
  = let '(live, r1, shown) := interleaved meanwhile provider r in (Normal live, r1, shown).
Proof.
  revert provider r. induction meanwhile as [|run rest IH]; intros provider r;
    [reflexivity |].
  cbn [suspended interleaved]. unfold bind at 1, detached, final, trace.
  destruct (run r) as [[c r1] t1]. cbn [fst snd].
  unfold bind at 1, read. rewrite IH.
  destruct (interleaved rest _ r1) as [[live r2] t2]. reflexivity.
Qed.

Lemma around_call (meanwhile : Interleaving) (r : Registry) (provider : ProviderImpl)
    (lifecycle : ProviderLifecycle) (before after : string) (call : Event)
    (p : Promise unit) :
  (notifyLifecycleListeners before provider lifecycle ;;
   tell [call] ;;
   live <- suspended meanwhile provider ;;
   await p ;;
   notifyLifecycleListeners after live lifecycle) r
  = let '(live, r1, shown) := interleaved meanwhile provider r in
    (settle p, r1,
     lifecycleEvents r before provider lifecycle ++ [call] ++ shown
     ++ match outcome p with
        | Fulfilled _ => lifecycleEvents r1 after live lifecycle
        | Rejected _ => []
        end).
Proof.
  unfold bind at 1, notifyLifecycleListeners at 1. unfold bind at 1, read, tell.
  unfold bind at 1. unfold bind at 1. rewrite suspended_interleaved.
  destruct (interleaved meanwhile provider r) as [[live r1] shown].
  unfold bind, notifyLifecycleListeners, bind, read, tell, await, settle, lifecycleEvents.
  destruct (outcome p) as [[]|e]; cbn; rewrite ?app_nil_r; reflexivity.
Qed.

(** The timer fires while a call that holds [provider] is suspended, and
    polls a status that is not the recorded one. *)
Lemma interleaved_tick (now : nat) (k : string) (provider : ProviderImpl)
    (lifecycle : ProviderLifecycle) (r : Registry) :
  wellFormed r ->
  JSMap.get k (providers r) = Some provider ->
  providerLifecycles r !! k = Some lifecycle ->
  Some (lc_status lifecycle now) <> providerStatuses r !! k ->
  interleaved [tick now] provider r
  = (updateStatus (lc_status lifecycle now) provider, final (tick now r),
     trace (tick now r))
  /\ forall event,
       lifecycleEvents (final (tick now r)) event
         (updateStatus (lc_status lifecycle now) provider) lifecycle
       = lifecycleEvents r event (updateStatus (lc_status lifecycle now) provider) lifecycle.
Proof.
  intros Hwf Hp Hl Hchange.
  destruct (tick_reconciles now k provider lifecycle r Hwf Hp Hl)
    as (_ & Hrun & (Hls & Hinst & Hupd & _) & _).
  unfold reconcilesAt in Hrun. cbn zeta in Hrun.
  rewrite bool_decide_eq_false_2 in Hrun by exact Hchange.
  destruct Hrun as (Hlive & _ & _).
  assert (Hid : internalId provider = k) by exact (proj2 Hwf k provider Hp).
  split.
  - cbn [interleaved]. rewrite Hid, Hlive, app_nil_r. reflexivity.
  - intros event. unfold lifecycleEvents.
    assert (Hlisteners : lifecycleListeners (final (tick now r)) = lifecycleListeners r).
    { refine ((_ : preserves lifecycleListeners (tick now)) r).
      unfold tick, reconcile, notifyListeners. frame. }
    rewrite Hlisteners. unfold getProviderInfo. rewrite Hls, Hinst, Hupd. reflexivity.
Qed.

(** X12. For a tracked provider with a registered lifecycle and context,
    [startProviderLifecycle] calls every lifecycle listener with
    [provider:before-start-lifecycle] and then calls [start(context)]. While
    it waits the registry goes on. When [start] resolves, the listeners
    registered by then are called with [provider:after-start-lifecycle] and
    the provider as it is by then; a rejection is passed on to the caller
    without this notification. So when the timer fires meanwhile and polls
    a status that is not the recorded one, the after-start notification
    carries that status, which the before-start notification did not have.
    [stopProviderLifecycle] does the same with [stop] and the stop
    events. *)
Theorem start_stop_lifecycle_notifications (meanwhile : Interleaving) (r : Registry)
    (providerId : string) (provider : ProviderImpl) (lifecycle : ProviderLifecycle)
    (context : LifecycleContextImpl)
    (Htracked : JSMap.get providerId (providers r) = Some provider)
    (Hlifecycle : providerLifecycles r !! providerId = Some lifecycle)
    (Hcontext : providerLifecycleContexts r !! providerId = Some context) :
  (let '(live, r1, shown) := interleaved meanwhile provider r in
   startProviderLifecycle meanwhile providerId r
   = (settle (lc_start lifecycle context), r1,
      lifecycleEvents r "provider:before-start-lifecycle" provider lifecycle
      ++ [CallLifecycleStart lifecycle context] ++ shown
      ++ match outcome (lc_start lifecycle context) with
         | Fulfilled _ => lifecycleEvents r1 "provider:after-start-lifecycle" live lifecycle
         | Rejected _ => []
         end)
   /\ stopProviderLifecycle meanwhile providerId r
      = (settle (lc_stop lifecycle context), r1,
         lifecycleEvents r "provider:before-stop-lifecycle" provider lifecycle
         ++ [CallLifecycleStop lifecycle context] ++ shown
         ++ match outcome (lc_stop lifecycle context) with
            | Fulfilled _ => lifecycleEvents r1 "provider:after-stop-lifecycle" live lifecycle
            | Rejected _ => []
            end))
  /\ (forall now,
        wellFormed r ->
        Some (lc_status lifecycle now) <> providerStatuses r !! providerId ->
        let polled := updateStatus (lc_status lifecycle now) provider in
        trace (startProviderLifecycle [tick now] providerId r)
        = lifecycleEvents r "provider:before-start-lifecycle" provider lifecycle
          ++ [CallLifecycleStart lifecycle context] ++ trace (tick now r)
          ++ match outcome (lc_start lifecycle context) with
             | Fulfilled _ =>
                 lifecycleEvents r "provider:after-start-lifecycle" polled lifecycle
             | Rejected _ => []
             end).
Proof.
  assert (Hstart : forall during,
             startProviderLifecycle during providerId r
             = let '(live, r1, shown) := interleaved during provider r in
               (settle (lc_start lifecycle context), r1,
                lifecycleEvents r "provider:before-start-lifecycle" provider lifecycle
                ++ [CallLifecycleStart lifecycle context] ++ shown
                ++ match outcome (lc_start lifecycle context) with
                   | Fulfilled _ =>
                       lifecycleEvents r1 "provider:after-start-lifecycle" live lifecycle
                   | Rejected _ => []
                   end)).
  { intros during. unfold startProviderLifecycle.
    rewrite (lifecycle_lookups r providerId provider lifecycle context _
               Htracked Hlifecycle Hcontext).
    apply around_call. }
  split.
  - specialize (Hstart meanwhile).
    assert (Hstop : stopProviderLifecycle meanwhile providerId r
             = let '(live, r1, shown) := interleaved meanwhile provider r in
               (settle (lc_stop lifecycle context), r1,
                lifecycleEvents r "provider:before-stop-lifecycle" provider lifecycle
                ++ [CallLifecycleStop lifecycle context] ++ shown
                ++ match outcome (lc_stop lifecycle context) with
                   | Fulfilled _ =>
                       lifecycleEvents r1 "provider:after-stop-lifecycle" live lifecycle
                   | Rejected _ => []
                   end)).
    { unfold stopProviderLifecycle.
      rewrite (lifecycle_lookups r providerId provider lifecycle context _
                 Htracked Hlifecycle Hcontext).
      apply around_call. }
    destruct (interleaved meanwhile provider r) as [[live r1] shown].
    split; assumption.
  - intros now Hwf Hchange polled. rewrite (Hstart [tick now]).
    destruct (interleaved_tick now providerId provider lifecycle r
                Hwf Htracked Hlifecycle Hchange) as [-> Hevents].
    cbn [trace snd]. rewrite Hevents. reflexivity.
Qed.

Lemma intializeProviderLifecycle_run (meanwhile : Interleaving) (r : Registry)
    (providerId : string) (provider : ProviderImpl) (lifecycle : ProviderLifecycle)
    (Htracked : JSMap.get providerId (providers r) = Some provider)
    (Hlifecycle : providerLifecycles r !! providerId = Some lifecycle) :
  intializeProviderLifecycle meanwhile providerId r
  = match providerLifecycleContexts r !! providerId with
    | None =>
        (Throw (JsError ("no lifecycle context matching provider id " +:+ providerId)),
         r, [])
    | Some context =>
        match lc_initialize lifecycle with
        | None => (Normal tt, r, [])
        | Some initialize =>
            let '(live, r1, shown) := interleaved meanwhile provider r in
            (settle (initialize context), r1,
             lifecycleEvents r "provider:before-initialize-lifecycle" provider lifecycle
             ++ [CallLifecycleInitialize lifecycle context] ++ shown
             ++ match outcome (initialize context) with
                | Fulfilled _ =>
                    lifecycleEvents r1 "provider:after-initialize-lifecycle"
                      live lifecycle
                | Rejected _ => []
                end)
        end
    end.
Proof.
  destruct (providerLifecycleContexts r !! providerId) as [context|] eqn:Hcontext.
  - unfold intializeProviderLifecycle.
    rewrite (lifecycle_lookups r providerId provider lifecycle context _
               Htracked Hlifecycle Hcontext).
    destruct (lc_initialize lifecycle) as [initialize|]; [| reflexivity].
    apply around_call.
  - unfold intializeProviderLifecycle. unfold bind at 1.
    rewrite (getMatchingProvider_tracked _ _ _ Htracked).
    unfold bind at 1, getMatchingProviderLifecycle, bind at 1, read. rewrite Hlifecycle.
    unfold ret. unfold bind at 1, getMatchingLifecycleContext, bind at 1, read.
    rewrite Hcontext. reflexivity.
Qed.

(** X13. For a tracked provider with a registered lifecycle,
    [intializeProviderLifecycle] first needs the lifecycle context and
    throws without it, also when there is nothing to initialize. With the
    context, a lifecycle without [initialize] makes it return at once,
    calling nobody and without being suspended; otherwise it calls
    [initialize(context)] after the [before-initialize] notification, and
    when [initialize] resolves it sends the [after-initialize] notification
    to the listeners registered by then, with the provider as it is by
    then. *)
Theorem intializeProviderLifecycle_cases (meanwhile : Interleaving) (r : Registry)
    (providerId : string) (provider : ProviderImpl) (lifecycle : ProviderLifecycle)
    (Htracked : JSMap.get providerId (providers r) = Some provider)
    (Hlifecycle : providerLifecycles r !! providerId = Some lifecycle) :
  intializeProviderLifecycle meanwhile providerId r
  = match providerLifecycleContexts r !! providerId with
    | None =>
        (Throw (JsError ("no lifecycle context matching provider id " +:+ providerId)),
         r, [])
    | Some context =>
        match lc_initialize lifecycle with
        | None => (Normal tt, r, [])
        | Some initialize =>
            let '(live, r1, shown) := interleaved meanwhile provider r in
            (settle (initialize context), r1,
             lifecycleEvents r "provider:before-initialize-lifecycle" provider lifecycle
             ++ [CallLifecycleInitialize lifecycle context] ++ shown
             ++ match outcome (initialize context) with
                | Fulfilled _ =>
                    lifecycleEvents r1 "provider:after-initialize-lifecycle"
                      live lifecycle
                | Rejected _ => []
                end)
        end
    end.
Proof.
  destruct (providerLifecycleContexts r !! providerId) as [context|] eqn:Hcontext.
  - unfold intializeProviderLifecycle.
    rewrite (lifecycle_lookups r providerId provider lifecycle context _
               Htracked Hlifecycle Hcontext).
    destruct (lc_initialize lifecycle) as [initialize|]; [| reflexivity].
    apply around_call.
  - unfold intializeProviderLifecycle. unfold bind at 1.
    rewrite (getMatchingProvider_tracked _ _ _ Htracked).
    unfold bind at 1, getMatchingProviderLifecycle, bind at 1, read. rewrite Hlifecycle.
    unfold ret. unfold bind at 1, getMatchingLifecycleContext, bind at 1, read.
    rewrite Hcontext. reflexivity.
Qed.

(** X14. For a tracked provider, [initializeProvider] runs
    [intializeProviderLifecycle] when a lifecycle with an [initialize] method
    is registered, whatever runs while the call is suspended. Otherwise it turns to the provider's connection factory:
    it records the [initializeProvider] telemetry event and calls the
    factory's [initialize()]; without a factory it throws. In particular a
    provider whose lifecycle has no [initialize] and that has no factory
    makes [initializeProvider] throw, where [intializeProviderLifecycle]
    would return without doing anything. *)
Theorem initializeProvider_dispatch (meanwhile : Interleaving) (r : Registry)
    (providerInternalId : string) (provider : ProviderImpl)
    (Htracked : JSMap.get providerInternalId (providers r) = Some provider) :
  (forall lifecycle initialize,
      providerLifecycles r !! providerInternalId = Some lifecycle ->
      lc_initialize lifecycle = Some initialize ->
      initializeProvider meanwhile providerInternalId r
      = intializeProviderLifecycle meanwhile providerInternalId r)
  /\ (providerLifecycles r !! providerInternalId ≫= lc_initialize = None ->
      initializeProvider meanwhile providerInternalId r
      = match containerProviderConnectionFactory provider with
        | Some factory =>
            (settle (factory_initialize factory), r,
             [TelemetryTrack "initializeProvider" [("name", name provider)];
              CallFactoryInitialize factory])
        | None =>
            (Throw (JsError "No initialize implementation found for this provider"),
             r, [])
        end)
  /\ (forall lifecycle context,
        providerLifecycles r !! providerInternalId = Some lifecycle ->
        providerLifecycleContexts r !! providerInternalId = Some context ->
        lc_initialize lifecycle = None ->
        containerProviderConnectionFactory provider = None ->
        result (intializeProviderLifecycle meanwhile providerInternalId r) = Normal tt
        /\ result (initializeProvider meanwhile providerInternalId r)
           = Throw (JsError "No initialize implementation found for this provider")).
Proof.
  assert (Hrun : initializeProvider meanwhile providerInternalId r
                 = if present (providerLifecycles r !! providerInternalId ≫= lc_initialize)
                   then intializeProviderLifecycle meanwhile providerInternalId r
                   else
                     match containerProviderConnectionFactory provider with
                     | Some factory =>
                         (settle (factory_initialize factory), r,
                          [TelemetryTrack "initializeProvider" [("name", name provider)];
                           CallFactoryInitialize factory])
                     | None =>
                         (Throw (JsError
                            "No initialize implementation found for this provider"),
                          r, [])
                     end).
  { unfold initializeProvider. unfold bind at 1.
    rewrite (getMatchingProvider_tracked _ _ _ Htracked). unfold bind at 1, read.
    destruct (present _).
    - destruct (intializeProviderLifecycle meanwhile providerInternalId r)
        as [[c r'] t].
      reflexivity.
    - destruct (containerProviderConnectionFactory provider) as [factory|];
        [| reflexivity].
      unfold bind, tell. rewrite await_settle. reflexivity. }
  split; [| split].
  - intros lifecycle initialize Hl Hi. rewrite Hrun, Hl. cbn. rewrite Hi. reflexivity.
  - intros Hnone. rewrite Hrun, Hnone. reflexivity.
  - intros lifecycle context Hl Hc Hi Hf. split.
    + rewrite (intializeProviderLifecycle_run meanwhile r _ provider lifecycle
                 Htracked Hl), Hc, Hi.
      reflexivity.
    + rewrite Hrun, Hl. cbn. rewrite Hi, Hf. reflexivity.
Qed.

(** ** Container connections *)

Lemma startProviderConnection_run (r : Registry) (internalProviderId : string)
    (provider : ProviderImpl) (info : ProviderContainerConnectionInfo) :
  JSMap.get internalProviderId (providers r) = Some provider ->
  startProviderConnection internalProviderId info r
  = match find (matchesEndpoint info) (containerConnections provider) with
    | None =>
        (Throw (JsError ("no container connection matching provider id "
                         +:+ internalProviderId)), r, [])
    | Some connection =>
        match conn_lifecycle connection ≫= cl_start with
        | None =>
            (Throw (JsError "The container connection does not support start lifecycle"),
             r, [])
        | Some start =>
            match connectionLifecycleContexts r !! conn_ref connection with
            | None =>
                (Throw (JsError "The connection does not have context to start"), r, [])
            | Some context =>
                (settle (start context), r, [CallConnectionStart connection context])
            end
        end
    end.
Proof.
  intros Hp. unfold startProviderConnection. unfold bind at 1.
  rewrite (getMatchingContainerConnectionFromProvider_spec _ _ _ _ Hp).
  destruct (find _ (containerConnections provider)) as [connection|]; [| reflexivity].
  destruct (conn_lifecycle connection ≫= cl_start) as [start|]; [| reflexivity].
  unfold bind at 1, read.
  destruct (connectionLifecycleContexts r !! conn_ref connection) as [context|];
    [| reflexivity].
  unfold bind, tell. rewrite await_settle. reflexivity.
Qed.

Lemma stopProviderConnection_run (r : Registry) (internalProviderId : string)
    (provider : ProviderImpl) (info : ProviderContainerConnectionInfo) :
  JSMap.get internalProviderId (providers r) = Some provider ->
  stopProviderConnection internalProviderId info r
  = match find (matchesEndpoint info) (containerConnections provider) with
    | None =>
        (Throw (JsError ("no container connection matching provider id "
                         +:+ internalProviderId)), r, [])
    | Some connection =>
        match conn_lifecycle connection ≫= cl_stop with
        | None =>
            (Throw (JsError "The container connection does not support stop lifecycle"),
             r, [])
        | Some stop =>
            match connectionLifecycleContexts r !! conn_ref connection with
            | None =>
                (Throw (JsError "The connection does not have context to start"), r, [])
            | Some context =>
                (settle (stop context), r, [CallConnectionStop connection context])
            end
        end
    end.
Proof.
  intros Hp. unfold stopProviderConnection. unfold bind at 1.
  rewrite (getMatchingContainerConnectionFromProvider_spec _ _ _ _ Hp).
  destruct (find _ (containerConnections provider)) as [connection|]; [| reflexivity].
  destruct (conn_lifecycle connection ≫= cl_stop) as [stop|]; [| reflexivity].
  unfold bind at 1, read.
  destruct (connectionLifecycleContexts r !! conn_ref connection) as [context|];
    [| reflexivity].
  unfold bind, tell. rewrite await_settle. reflexivity.
Qed.

Lemma deleteProviderConnection_run (r : Registry) (internalProviderId : string)
    (provider : ProviderImpl) (info : ProviderContainerConnectionInfo) :
  JSMap.get internalProviderId (providers r) = Some provider ->
  deleteProviderConnection internalProviderId info r
  = match find (matchesEndpoint info) (containerConnections provider) with
    | None =>
        (Throw (JsError ("no container connection matching provider id "
                         +:+ internalProviderId)), r, [])
    | Some connection =>
        match conn_lifecycle connection ≫= cl_delete with
        | None =>
            (Throw (JsError "The container connection does not support delete lifecycle"),
             r, [])
        | Some deletion =>
            (settle deletion, r,
             [TelemetryTrack "deleteProviderConnection" [("name", ci_name info)];
              CallConnectionDelete connection])
        end
    end.
Proof.
  intros Hp. unfold deleteProviderConnection. unfold bind at 1.
  rewrite (getMatchingContainerConnectionFromProvider_spec _ _ _ _ Hp).
  destruct (find _ (containerConnections provider)) as [connection|]; [| reflexivity].
  destruct (conn_lifecycle connection ≫= cl_delete) as [deletion|]; [| reflexivity].
  unfold bind, tell. rewrite await_settle. reflexivity.
Qed.



(** X16. For a tracked provider without a registered lifecycle that has at
    least one container connection, [startProvider] does what
    [startProviderConnection] does with the descriptor of the provider's
    first connection, whatever is set to run while a lifecycle call would
    be suspended. *)
Theorem startProvider_is_startProviderConnection (meanwhile : Interleaving)
    (r : Registry) (providerInternalId : string) (provider : ProviderImpl)
    (connection : ContainerProviderConnection)
    (rest : list ContainerProviderConnection)
    (Htracked : JSMap.get providerInternalId (providers r) = Some provider)
    (Hlifecycle : providerLifecycles r !! providerInternalId = None)
    (Hconnections : containerConnections provider = connection :: rest) :
  startProvider meanwhile providerInternalId r
  = startProviderConnection providerInternalId
      (getProviderContainerConnectionInfo connection) r.
Proof.
  rewrite (startProviderConnection_run _ _ _ _ Htracked), Hconnections.
  cbn [find]. unfold matchesEndpoint at 1.
  cbn [ci_socketPath getProviderContainerConnectionInfo]. rewrite String.eqb_refl.
  unfold startProvider. unfold bind at 1.
  rewrite (getMatchingProvider_tracked _ _ _ Htracked). unfold bind at 1, read.
  rewrite bool_decide_eq_false_2 by (rewrite Hlifecycle; intros [? [=]]).
  rewrite startFirstContainerConnection_spec, Hconnections.
  destruct (conn_lifecycle connection ≫= cl_start) as [start|]; [| reflexivity].
  destruct (connectionLifecycleContexts r !! conn_ref connection); reflexivity.
Qed.

(** X17. The lifecycle methods listed in a connection's descriptor are the
    ones the registry will call. For a tracked provider, a descriptor that
    resolves to [connection] and a connection with a lifecycle context:
    ["start"] is listed exactly when [startProviderConnection] calls
    [start], ["stop"] exactly when [stopProviderConnection] calls [stop],
    ["delete"] exactly when [deleteProviderConnection] calls [delete]. *)
Theorem listed_lifecycle_methods_are_callable (r : Registry) (internalProviderId : string)
    (provider : ProviderImpl) (info : ProviderContainerConnectionInfo)
    (connection : ContainerProviderConnection) (context : LifecycleContextImpl)
    (Htracked : JSMap.get internalProviderId (providers r) = Some provider)
    (Hfound : find (matchesEndpoint info) (containerConnections provider) = Some connection)
    (Hcontext : connectionLifecycleContexts r !! conn_ref connection = Some context) :
  let listed method :=
    In method (default [] (ci_lifecycleMethods
                             (getProviderContainerConnectionInfo connection))) in
  (listed MStart
   <-> trace (startProviderConnection internalProviderId info r)
       = [CallConnectionStart connection context])
  /\ (listed MStop
      <-> trace (stopProviderConnection internalProviderId info r)
          = [CallConnectionStop connection context])
  /\ (listed MDelete
      <-> In (CallConnectionDelete connection)
            (trace (deleteProviderConnection internalProviderId info r))).
Proof.
  intros listed. subst listed. cbn beta.
  rewrite (startProviderConnection_run _ _ _ _ Htracked),
    (stopProviderConnection_run _ _ _ _ Htracked),
    (deleteProviderConnection_run _ _ _ _ Htracked), Hfound, Hcontext.
  unfold getProviderContainerConnectionInfo. cbn [ci_lifecycleMethods].
  destruct (conn_lifecycle connection) as [[start stop deletion]|]; cbn.
  - destruct start, stop, deletion; cbn; unfold trace; cbn;
      repeat split; intros; try discriminate; try tauto;
      repeat match goal with
        | H : _ \/ _ |- _ => destruct H; try discriminate
        | H : False |- _ => destruct H
        end;
      auto.
  - unfold trace; cbn. repeat split; intros; try discriminate; tauto.
Qed.

(** ** The timer *)

Lemma reconciled_establishes (now : nat) (k : string) (r : Registry) :
  statusRecorded now k (reconciled now k r).1.
Proof.
  unfold reconciled.
  destruct (JSMap.get k (providers r)) as [provider|] eqn:Hp;
    [| intros p l; cbn; congruence].
  destruct (providerLifecycles r !! k) as [lifecycle|] eqn:Hl;
    [| intros p l; cbn; congruence].
  cbn zeta. destruct (bool_decide _) eqn:Hd.
  - apply bool_decide_eq_true_1 in Hd. intros p l _. cbn. rewrite Hl. intros [= <-].
    symmetry. exact Hd.
  - intros p l _. cbn. rewrite Hl. intros [= <-]. apply lookup_insert_eq.
Qed.

Lemma reconciled_keeps (now : nat) (k key : string) (r : Registry) :
  statusRecorded now k r -> statusRecorded now k (reconciled now key r).1.
Proof.
  intros Hrec. destruct (decide (key = k)) as [-> | Hne];
    [apply reconciled_establishes |].
  unfold reconciled.
  destruct (JSMap.get key (providers r)) as [provider|]; [| exact Hrec].
  destruct (providerLifecycles r !! key) as [lifecycle|]; [| exact Hrec].
  cbn zeta. destruct (bool_decide _); [exact Hrec |].
  intros p l. cbn. rewrite JSMap_get_set_ne, lookup_insert_ne by exact Hne.
  apply Hrec.
Qed.

Lemma reconciledAll_keeps (now : nat) (keys : list string) (k : string) (r : Registry) :
  statusRecorded now k r -> statusRecorded now k (reconciledAll now keys r).1.
Proof.
  revert r. induction keys as [|key rest IH]; intros r Hrec; [exact Hrec |].
  cbn [reconciledAll]. pose proof (reconciled_keeps now k key r Hrec) as H1.
  destruct (reconciled now key r) as [r1 t1]. cbn [fst] in H1.
  specialize (IH r1 H1). destruct (reconciledAll now rest r1) as [r2 t2]. exact IH.
Qed.

Lemma reconciledAll_records (now : nat) (keys : list string) (k : string) (r : Registry) :
  In k keys -> statusRecorded now k (reconciledAll now keys r).1.
Proof.
  revert r. induction keys as [|key rest IH]; intros r; [intros [] |].
  intros [-> | Hin]; cbn [reconciledAll].
  - pose proof (reconciled_establishes now k r) as H1.
    destruct (reconciled now k r) as [r1 t1]. cbn [fst] in H1.
    pose proof (reconciledAll_keeps now rest k r1 H1) as H2.
    destruct (reconciledAll now rest r1) as [r2 t2]. exact H2.
  - destruct (reconciled now key r) as [r1 t1].
    specialize (IH r1 Hin). destruct (reconciledAll now rest r1) as [r2 t2]. exact IH.
Qed.

Lemma reconciled_noop (now : nat) (k : string) (r : Registry) :
  statusRecorded now k r -> reconciled now k r = (r, []).
Proof.
  intros Hrec. unfold reconciled.
  destruct (JSMap.get k (providers r)) as [provider|] eqn:Hp; [| reflexivity].
  destruct (providerLifecycles r !! k) as [lifecycle|] eqn:Hl; [| reflexivity].
  cbn zeta. rewrite (Hrec provider lifecycle Hp Hl).
  rewrite bool_decide_eq_true_2 by reflexivity. reflexivity.
Qed.

Lemma reconciledAll_noop (now : nat) (keys : list string) (r : Registry) :
  (forall k, In k keys -> statusRecorded now k r) -> reconciledAll now keys r = (r, []).
Proof.
  induction keys as [|key rest IH]; intros Hall; [reflexivity |].
  cbn [reconciledAll]. rewrite reconciled_noop by (apply Hall; left; reflexivity).
  rewrite IH by (intros k Hk; apply Hall; right; exact Hk). reflexivity.
Qed.

(** X18. A firing of the timer records the status it polled for every
    tracked provider with a lifecycle. A second firing at the same instant,
    when every [status()] still answers the same, therefore changes nothing
    and notifies nobody. *)
Theorem tick_twice_is_silent (now : nat) (r : Registry) :
  (forall k, In k (JSMap.keys (providers r)) -> statusRecorded now k (final (tick now r)))
  /\ tick now (final (tick now r)) = (Normal tt, final (tick now r), []).
Proof.
  assert (Hrecorded : forall k, In k (JSMap.keys (providers r)) ->
                                statusRecorded now k (final (tick now r))).
  { intros k Hk. rewrite tick_run. unfold final. cbn [fst snd].
    apply reconciledAll_records, Hk. }
  split; [exact Hrecorded |].
  rewrite (tick_run now (final (tick now r))).
  assert (Hkeys : JSMap.keys (providers (final (tick now r))) = JSMap.keys (providers r)).
  { rewrite tick_run. unfold final. cbn [fst snd]. apply reconciledAll_keys. }
  rewrite Hkeys, reconciledAll_noop by exact Hrecorded. reflexivity.
Qed.

Lemma reconciledAll_skips (now : nat) (keys : list string) (k : string) (r : Registry) :
  idsOk r ->
  JSMap.get k (providers r) = None \/ providerLifecycles r !! k = None ->
  JSMap.get k (providers (reconciledAll now keys r).1) = JSMap.get k (providers r)
  /\ providerStatuses (reconciledAll now keys r).1 !! k = providerStatuses r !! k
  /\ statusUpdates k (reconciledAll now keys r).2 = [].
Proof.
  revert r. induction keys as [|key rest IH]; intros r Hids Hskip; [repeat split |].
  cbn [reconciledAll].
  assert (H1 : JSMap.get k (providers (reconciled now key r).1) = JSMap.get k (providers r)
               /\ providerStatuses (reconciled now key r).1 !! k = providerStatuses r !! k
               /\ statusUpdates k (reconciled now key r).2 = []).
  { destruct (decide (k = key)) as [<- | Hne]; [| apply reconciled_other; assumption].
    assert (Hnoop : reconciled now k r = (r, [])).
    { unfold reconciled.
      destruct (JSMap.get k (providers r)) as [provider|] eqn:Hp; [| reflexivity].
      destruct (providerLifecycles r !! k) as [lifecycle|] eqn:Hl; [| reflexivity].
      destruct Hskip; congruence. }
    rewrite Hnoop. repeat split. }
  destruct (reconciled_frame now key r) as [Hsame Hids1].
  destruct (reconciled now key r) as [r1 t1]. cbn [fst snd] in *.
  destruct H1 as (Hp1 & Hs1 & Ht1).
  destruct (IH r1 (Hids1 Hids)) as (Hp2 & Hs2 & Ht2).
  { rewrite Hp1. destruct Hsame as (-> & _). exact Hskip. }
  destruct (reconciledAll now rest r1) as [r2 t2]. cbn [fst snd] in *.
  rewrite statusUpdates_app, Ht1, Ht2. repeat split; congruence.
Qed.

(** X19. The timer only deals with providers that are tracked and have a
    registered lifecycle. For any other id (a provider without lifecycle, or
    a disposed provider whose lifecycle was left registered) a firing sends
    no [provider:update-status] notification and records no status. *)
Theorem tick_skips_without_lifecycle (now : nat) (k : string) (r : Registry)
    (Hwf : wellFormed r)
    (Hskip : JSMap.get k (providers r) = None \/ providerLifecycles r !! k = None) :
  statusUpdates k (trace (tick now r)) = []
  /\ providerStatuses (final (tick now r)) !! k = providerStatuses r !! k
  /\ JSMap.get k (providers (final (tick now r))) = JSMap.get k (providers r).
Proof.
  rewrite tick_run. unfold final, trace. cbn [fst snd].
  destruct (reconciledAll_skips now (JSMap.keys (providers r)) k r (proj2 Hwf) Hskip)
    as (Hp & Hs & Ht).
  repeat split; assumption.
Qed.

(** ** Pre-flight checks that fail without an [Error] *)

(** X20. A pre-flight check that resolves to an unsuccessful result stops
    the run like one that throws: [endCheck] receives the result's own
    description and links, nothing is written to the console, no later
    check is started and the result is [false]. A check that throws a value
    that is not an [Error] is reported with the value's string when it is an
    object, with "unknown error" when it is a primitive, and without
    description when it is [null]. *)
Theorem runPreflightChecks_unsuccessful_check
    (r : Registry) (providerInternalId : string) (runUpdateChecks : bool)
    (installOrUpdate : InstallOrUpdate)
    (pre post : list InstallCheck) (check : InstallCheck)
    (Hselected : selectedCapability r providerInternalId runUpdateChecks
                 = Some installOrUpdate)
    (Hchecks : preflightChecks installOrUpdate = Some (pre ++ check :: post))
    (Hpre : forallb signalsSuccess pre = true) :
  (forall checkResult,
      outcome (execute check) = Fulfilled checkResult ->
      successful checkResult = false ->
      runPreflightChecks providerInternalId runUpdateChecks r
      = (Normal false, r,
         flat_map report pre
         ++ [StartCheck (title check); CallExecute check;
             EndCheck (title check) false (description checkResult)
               (docLinks checkResult)]))
  /\ (forall err,
        outcome (execute check) = Rejected err ->
        runPreflightChecks providerInternalId runUpdateChecks r
        = (Normal false, r,
           flat_map report pre
           ++ [StartCheck (title check); CallExecute check; ConsoleError err;
               EndCheck (title check) false
                 match err with
                 | JsError message => Some message
                 | JsObject text => Some text
                 | JsNull => None
                 | JsPrimitive => Some "unknown error"
                 end None])).
Proof.
  assert (Hrun : signalsSuccess check = false ->
                 runPreflightChecks providerInternalId runUpdateChecks r
                 = (Normal false, r, flat_map report pre ++ report check)).
  { intros Hfail.
    rewrite runPreflightChecks_selected, Hselected, Hchecks, runChecks_spec.
    rewrite executed_app_failure by assumption.
    rewrite forallb_app. cbn [forallb]. rewrite Hfail, andb_false_r.
    rewrite flat_map_app. cbn [flat_map]. rewrite app_nil_r. reflexivity. }
  split.
  - intros checkResult Hres Hfalse. rewrite Hrun.
    + unfold report. rewrite Hres, Hfalse. reflexivity.
    + unfold signalsSuccess. rewrite Hres. exact Hfalse.
  - intros err Herr. rewrite Hrun.
    + unfold report. rewrite Herr. destruct err; reflexivity.
    + unfold signalsSuccess. rewrite Herr. reflexivity.
Qed.

(** ** Creating a connection *)

(** X21. For a tracked provider, [createProviderConnection] throws when the
    provider has no connection factory; otherwise it hands the parameters it
    received to the factory's [create] and returns what [create] settles to.
    The registry is left as it was. *)
Theorem createProviderConnection_delegates (r : Registry) (internalProviderId : string)
    (provider : ProviderImpl) (params : list (string * string))
    (Htracked : JSMap.get internalProviderId (providers r) = Some provider) :
  createProviderConnection internalProviderId params r
  = match containerProviderConnectionFactory provider with
    | None =>
        (Throw (JsError "The provider does not support container connection creation"),
         r, [])
    | Some factory => (settle (factory_create factory params), r, [])
    end.
Proof.
  unfold createProviderConnection. unfold bind.
  rewrite (getMatchingProvider_tracked _ _ _ Htracked).
  destruct (containerProviderConnectionFactory provider) as [factory|]; [| reflexivity].
  rewrite await_settle. reflexivity.
Qed.

(** ** Registering is what makes the calls possible *)

(** X22. After [registerLifecycle] for a tracked provider, the provider's
    descriptor lists the lifecycle methods ["start"] and ["stop"], and
    [startProvider] starts the lifecycle with the context that the
    registration created, after the before-start notification; the
    provider's container connections are not started. When [start]
    resolves, the after-start notification goes to the listeners registered
    by then, with the provider as it is by then. *)
Theorem registerLifecycle_then_startProvider (meanwhile : Interleaving) (r : Registry)
    (providerImpl tracked : ProviderImpl) (lifecycle : ProviderLifecycle)
    (Htracked : JSMap.get (internalId providerImpl) (providers r) = Some tracked) :
  let r1 := final (registerLifecycle providerImpl lifecycle r) in
  pi_lifecycleMethods (getProviderInfo r1 providerImpl) = Some [MStart; MStop]
  /\ let '(live, r2, shown) := interleaved meanwhile tracked r1 in
     startProvider meanwhile (internalId providerImpl) r1
     = (settle (lc_start lifecycle NewLifecycleContextImpl), r2,
        lifecycleEvents r1 "provider:before-start-lifecycle" tracked lifecycle
        ++ [CallLifecycleStart lifecycle NewLifecycleContextImpl] ++ shown
        ++ match outcome (lc_start lifecycle NewLifecycleContextImpl) with
           | Fulfilled _ =>
               lifecycleEvents r2 "provider:after-start-lifecycle" live lifecycle
           | Rejected _ => []
           end).
Proof.
  intros r1.
  assert (Hl : providerLifecycles r1 !! internalId providerImpl = Some lifecycle)
    by apply lookup_insert_eq.
  assert (Hc : providerLifecycleContexts r1 !! internalId providerImpl
               = Some NewLifecycleContextImpl) by apply lookup_insert_eq.
  assert (Hp : JSMap.get (internalId providerImpl) (providers r1) = Some tracked)
    by exact Htracked.
  split.
  - cbn [getProviderInfo pi_lifecycleMethods]. rewrite Hl.
    rewrite bool_decide_eq_true_2 by eauto. reflexivity.
  - assert (Hrun : startProvider meanwhile (internalId providerImpl) r1
                   = startProviderLifecycle meanwhile (internalId providerImpl) r1).
    { unfold startProvider. unfold bind at 1.
      rewrite (getMatchingProvider_tracked _ _ _ Hp). unfold bind at 1, read.
      rewrite bool_decide_eq_true_2 by (rewrite Hl; eauto).
      destruct (startProviderLifecycle meanwhile (internalId providerImpl) r1)
        as [[c r'] t].
      reflexivity. }
    rewrite Hrun. unfold startProviderLifecycle.
    rewrite (lifecycle_lookups r1 _ tracked lifecycle NewLifecycleContextImpl _ Hp Hl Hc).
    rewrite around_call.
    destruct (interleaved meanwhile tracked r1) as [[live r2] shown]. reflexivity.
Qed.

(** X23. Once a provider has announced a connection with
    [onDidRegisterContainerConnection], the connection has a lifecycle
    context: [startProviderConnection] on a descriptor that resolves to it
    reaches the connection's [start] method (when it has one) and never
    throws for a missing context. This is still so after
    [onDidUnregisterContainerConnection]. *)
Theorem registered_connection_is_startable (r : Registry) (internalProviderId : string)
    (provider announcer : ProviderImpl) (info : ProviderContainerConnectionInfo)
    (connection : ContainerProviderConnection)
    (start : LifecycleContextImpl -> Promise unit)
    (Htracked : JSMap.get internalProviderId (providers r) = Some provider)
    (Hfound : find (matchesEndpoint info) (containerConnections provider) = Some connection)
    (Hstart : conn_lifecycle connection ≫= cl_start = Some start) :
  let r1 := final (onDidRegisterContainerConnection announcer connection r) in
  let r2 := final (onDidUnregisterContainerConnection announcer connection r1) in
  startProviderConnection internalProviderId info r1
  = (settle (start NewLifecycleContextImpl), r1,
     [CallConnectionStart connection NewLifecycleContextImpl])
  /\ startProviderConnection internalProviderId info r2
     = (settle (start NewLifecycleContextImpl), r2,
        [CallConnectionStart connection NewLifecycleContextImpl]).
Proof.
  intros r1 r2.
  assert (Hc : connectionLifecycleContexts r1 !! conn_ref connection
               = Some NewLifecycleContextImpl) by apply lookup_insert_eq.
  split.
  - rewrite (startProviderConnection_run r1 _ provider info Htracked), Hfound, Hstart, Hc.
    reflexivity.
  - rewrite (startProviderConnection_run r2 _ provider info Htracked), Hfound, Hstart.
    change (connectionLifecycleContexts r2) with (connectionLifecycleContexts r1).
    rewrite Hc. reflexivity.
Qed.

(** * Properties of the image registry *)

(** ** Image names *)

Lemma split_nonempty (s : string) : ImageRegistry.split s <> [].
Proof.
  induction s as [|c s IH]; cbn; [discriminate |].
  destruct (ImageRegistry.split s) as [|segment segments]; [contradiction |].
  destruct (Ascii.eqb c _); discriminate.
Qed.

Lemma split_without_slash (s : string) :
  String.index 0 "/" s = None -> ImageRegistry.split s = [s].
Proof.
  induction s as [|c s IH]; [reflexivity |].
  cbn [String.index String.prefix].
  match goal with
  | |- context [Ascii.ascii_dec ?a c] => destruct (Ascii.ascii_dec a c) as [Heq | Hne]
  end.
  - destruct s; discriminate.
  - destruct (String.index 0 "/" s); [discriminate |]. intros _.
    cbn [ImageRegistry.split]. rewrite IH by reflexivity.
    destruct (Ascii.eqb c (Ascii.ascii_of_nat 47)) eqn:Heq; [| reflexivity].
    apply Ascii.eqb_eq in Heq. destruct Hne. symmetry. exact Heq.
Qed.

(** X24. An image name with three or more ['/'] gets no credentials,
    whatever registries are registered; so does a name with exactly two
    ['/'] that starts with ['/']. A name with at most one ['/'] is looked
    up under [docker.io]. *)
Theorem getAuthconfigForImage_by_depth (toLowerCase : string -> string)
    (imageName : string) (s : ImageRegistry.State) :
  (3 < length (ImageRegistry.split imageName) ->
   ImageRegistry.getAuthconfigForImage toLowerCase imageName s = None)
  /\ (length (ImageRegistry.split imageName) = 3 ->
      head (ImageRegistry.split imageName) = Some "" ->
      ImageRegistry.getAuthconfigForImage toLowerCase imageName s = None)
  /\ (length (ImageRegistry.split imageName) <= 2 ->
      ImageRegistry.registryServer imageName = Some "docker.io").
Proof.
  unfold ImageRegistry.getAuthconfigForImage, ImageRegistry.registryServer.
  destruct (String.index 0 "/" imageName) as [n|] eqn:Hindex; cbn [present].
  - split; [| split].
    + intros Hdeep.
      destruct (Nat.eqb_spec (length (ImageRegistry.split imageName)) 2); [lia |].
      destruct (Nat.eqb_spec (length (ImageRegistry.split imageName)) 3); [lia |].
      reflexivity.
    + intros Hlen Hhead. rewrite Hlen. cbn. rewrite Hhead. reflexivity.
    + intros Hlen.
      destruct (Nat.eqb_spec (length (ImageRegistry.split imageName)) 2);
        [reflexivity |].
      assert (Hone : length (ImageRegistry.split imageName) <= 1) by lia.
      destruct (ImageRegistry.split imageName) as [|segment [|? ?]] eqn:Hsplit;
        [destruct (split_nonempty _ Hsplit) | | cbn in Hone; lia].
      exfalso. clear -Hindex Hsplit. revert n segment Hindex Hsplit.
      induction imageName as [|c rest IH]; intros n segment Hindex Hsplit;
        [discriminate |].
      cbn [String.index String.prefix] in Hindex. cbn [ImageRegistry.split] in Hsplit.
      destruct (ImageRegistry.split rest) as [|seg segs] eqn:Hrest;
        [destruct (split_nonempty _ Hrest) |].
      destruct (Ascii.eqb c (Ascii.ascii_of_nat 47)) eqn:Hc; [discriminate |].
      match type of Hindex with
      | context [Ascii.ascii_dec ?a c] =>
          destruct (Ascii.ascii_dec a c) as [Heq | Hne];
            [rewrite <- Heq in Hc; discriminate |]
      end.
      destruct (String.index 0 "/" rest) as [m|] eqn:Hm; [| discriminate].
      injection Hsplit as _ Hsegs. subst segs. exact (IH m seg eq_refl eq_refl).
  - rewrite (split_without_slash _ Hindex). cbn.
    split; [lia |]. split; [discriminate | reflexivity].
Qed.

(** X25. The credentials [getAuthconfigForImage] returns are those of a
    registered registry whose url, in lower case, is the server asked for by
    the image name, in lower case; the server address returned is that url
    in lower case, except that [docker.io] is never returned: it is replaced
    by [https://index.docker.io/v2/]. *)
Theorem getAuthconfigForImage_sound (toLowerCase : string -> string)
    (imageName : string) (s : ImageRegistry.State) (auth : ImageRegistry.AuthConfig)
    (Hauth : ImageRegistry.getAuthconfigForImage toLowerCase imageName s = Some auth) :
  exists server registry,
    ImageRegistry.registryServer imageName = Some server
    /\ In registry (ImageRegistry.registries s)
    /\ toLowerCase (ImageRegistry.serverUrl registry) = toLowerCase server
    /\ ImageRegistry.auth_username auth = ImageRegistry.username registry
    /\ ImageRegistry.auth_password auth = ImageRegistry.secret registry
    /\ ImageRegistry.auth_serveraddress auth <> "docker.io"
    /\ (ImageRegistry.auth_serveraddress auth
        = toLowerCase (ImageRegistry.serverUrl registry)
        \/ (toLowerCase (ImageRegistry.serverUrl registry) = "docker.io"
            /\ ImageRegistry.auth_serveraddress auth = "https://index.docker.io/v2/")).
Proof.
  unfold ImageRegistry.getAuthconfigForImage in Hauth.
  destruct (ImageRegistry.registryServer imageName) as [server|]; [| discriminate].
  destruct (String.eqb server ""); [discriminate |].
  destruct (find _ (ImageRegistry.getRegistries s)) as [registry|] eqn:Hfind;
    [| discriminate].
  apply find_some in Hfind as [Hin Hmatch]. apply String.eqb_eq in Hmatch.
  exists server, registry. injection Hauth as <-. cbn.
  split; [reflexivity |]. split; [exact Hin |]. split; [exact Hmatch |].
  split; [reflexivity |]. split; [reflexivity |].
  destruct (String.eqb (toLowerCase (ImageRegistry.serverUrl registry)) "docker.io")
    eqn:Hdocker.
  - apply String.eqb_eq in Hdocker. split; [discriminate |]. right. split; [exact Hdocker |].
    reflexivity.
  - apply String.eqb_neq in Hdocker. split; [exact Hdocker | left; reflexivity].
Qed.

(** ** Registering and unregistering registries *)

Lemma filter_same_length {A} (f : A -> bool) (l : list A) :
  length (List.filter f l) = length l -> List.filter f l = l.
Proof.
  induction l as [|x l IH]; cbn; [reflexivity |].
  destruct (f x); cbn.
  - intros [= H]. rewrite (IH H). reflexivity.
  - intros H. pose proof (List.filter_length_le f l). lia.
Qed.

Lemma filter_shorter {A} (f : A -> bool) (l : list A) :
  length (List.filter f l) <> length l -> exists x, In x l /\ f x = false.
Proof.
  induction l as [|x l IH]; cbn; [intros H; destruct H; reflexivity |].
  destruct (f x) eqn:Hx; cbn.
  - intros Hlen. destruct IH as (y & Hin & Hy); [lia |].
    exists y. split; [right; exact Hin | exact Hy].
  - intros _. exists x. split; [left; reflexivity | exact Hx].
Qed.

Lemma unregisterRegistry_registries (sha512hex : string -> string)
    (registry : ImageRegistry.Registry) (s : ImageRegistry.State) :
  ImageRegistry.registries (ImageRegistry.unregisterRegistry sha512hex registry s).1
  = List.filter (ImageRegistry.kept registry) (ImageRegistry.registries s)
  /\ ImageRegistry.providers (ImageRegistry.unregisterRegistry sha512hex registry s).1
     = ImageRegistry.providers s.
Proof.
  unfold ImageRegistry.unregisterRegistry. cbn.
  destruct (Nat.eqb_spec
              (length (List.filter (ImageRegistry.kept registry) (ImageRegistry.registries s)))
              (length (ImageRegistry.registries s))) as [Heq | Hne]; cbn.
  - rewrite (filter_same_length _ _ Heq). split; reflexivity.
  - split; reflexivity.
Qed.

Lemma kept_false (registry item : ImageRegistry.Registry) :
  ImageRegistry.kept registry item = false
  <-> ImageRegistry.serverUrl item = ImageRegistry.serverUrl registry
      /\ ImageRegistry.source item = ImageRegistry.source registry.
Proof.
  unfold ImageRegistry.kept.
  destruct (String.eqb_spec (ImageRegistry.serverUrl item) (ImageRegistry.serverUrl registry)),
    (String.eqb_spec (ImageRegistry.source registry) (ImageRegistry.source item));
    cbn; split; try discriminate; intuition congruence.
Qed.

Lemma state_eta (s : ImageRegistry.State) :
  {| ImageRegistry.registries := ImageRegistry.registries s;
     ImageRegistry.providers := ImageRegistry.providers s |} = s.
Proof. destruct s. reflexivity. Qed.

(** X26. After [unregisterRegistry] no registry with the url and the source
    of the argument is left, and all the others are kept, in their order.
    The unregister event and the [registry-unregister] message are sent
    exactly when some registry was removed; the telemetry event is always
    recorded. Unregistering again changes nothing and only records the
    telemetry event. *)
Theorem unregisterRegistry_removes_all_matching (sha512hex : string -> string)
    (registry : ImageRegistry.Registry) (s : ImageRegistry.State) :
  let run := ImageRegistry.unregisterRegistry sha512hex registry s in
  let removed :=
    exists item, In item (ImageRegistry.registries s)
                 /\ ImageRegistry.serverUrl item = ImageRegistry.serverUrl registry
                 /\ ImageRegistry.source item = ImageRegistry.source registry in
  let track :=
    ImageRegistry.Track "unregisterRegistry" "serverUrl"
      (sha512hex (ImageRegistry.serverUrl registry))
      (length (ImageRegistry.registries run.1)) in
  ImageRegistry.registries run.1
  = List.filter (ImageRegistry.kept registry) (ImageRegistry.registries s)
  /\ (forall item,
        In item (ImageRegistry.registries run.1)
        <-> In item (ImageRegistry.registries s)
            /\ ~ (ImageRegistry.serverUrl item = ImageRegistry.serverUrl registry
                  /\ ImageRegistry.source item = ImageRegistry.source registry))
  /\ (removed ->
      run.2 = [ImageRegistry.Fire "onDidUnregisterRegistry" registry;
               ImageRegistry.Send "registry-unregister" registry; track])
  /\ (~ removed -> run = (s, [track]))
  /\ ImageRegistry.unregisterRegistry sha512hex registry run.1 = (run.1, [track]).
Proof.
  intros run removed track.
  destruct (unregisterRegistry_registries sha512hex registry s) as [Hregs Hprov].
  fold run in Hregs, Hprov.
  assert (Hmem : forall item,
             In item (List.filter (ImageRegistry.kept registry) (ImageRegistry.registries s))
             <-> In item (ImageRegistry.registries s)
                 /\ ~ (ImageRegistry.serverUrl item = ImageRegistry.serverUrl registry
                       /\ ImageRegistry.source item = ImageRegistry.source registry)).
  { intros item. rewrite List.filter_In, <- kept_false.
    destruct (ImageRegistry.kept registry item); intuition congruence. }
  assert (Hchanged : removed
                     <-> length (List.filter (ImageRegistry.kept registry)
                                   (ImageRegistry.registries s))
                         <> length (ImageRegistry.registries s)).
  { split.
    - intros (item & Hin & Hurl & Hsrc) Hlen. apply filter_same_length in Hlen.
      rewrite <- Hlen in Hin. apply Hmem in Hin. tauto.
    - intros Hlen. apply filter_shorter in Hlen as (item & Hin & Hitem).
      exists item. split; [exact Hin | apply kept_false, Hitem]. }
  split; [exact Hregs |]. split; [intros item; rewrite Hregs; apply Hmem |].
  split; [| split].
  - intros Hrem. apply Hchanged in Hrem. subst track run.
    unfold ImageRegistry.unregisterRegistry. cbn.
    destruct (Nat.eqb_spec
                (length (List.filter (ImageRegistry.kept registry) (ImageRegistry.registries s)))
                (length (ImageRegistry.registries s))); [contradiction | reflexivity].
  - intros Hrem. subst track run. unfold ImageRegistry.unregisterRegistry. cbn.
    destruct (Nat.eqb_spec
                (length (List.filter (ImageRegistry.kept registry) (ImageRegistry.registries s)))
                (length (ImageRegistry.registries s))) as [Heq | Hne]; [reflexivity |].
    destruct Hrem. apply Hchanged. exact Hne.
  - subst track. unfold ImageRegistry.unregisterRegistry at 1. cbn zeta.
    assert (Hagain : List.filter (ImageRegistry.kept registry) (ImageRegistry.registries run.1)
                     = ImageRegistry.registries run.1).
    { rewrite Hregs. clear. induction (ImageRegistry.registries s) as [|x l IH];
        [reflexivity |].
      cbn. destruct (ImageRegistry.kept registry x) eqn:Hx; [| exact IH].
      cbn. rewrite Hx, IH. reflexivity. }
    rewrite Hagain, Nat.eqb_refl. reflexivity.
Qed.

(** X27. [registerRegistry] accepts any registry, also one that is already
    there. The handle it returns undoes the registration when no registry
    with the same url and source was there before; when the same registry
    was registered twice, disposing one handle removes both entries. *)
Theorem registerRegistry_dispose (sha512hex : string -> string)
    (registry : ImageRegistry.Registry) (s : ImageRegistry.State)
    (Hnew : forall item, In item (ImageRegistry.registries s) ->
                         ImageRegistry.kept registry item = true) :
  let first := ImageRegistry.registerRegistry sha512hex registry s in
  let second := ImageRegistry.registerRegistry sha512hex registry first.1.2 in
  first.1.1 = registry
  /\ ImageRegistry.registries first.1.2 = ImageRegistry.registries s ++ [registry]
  /\ (ImageRegistry.unregisterRegistry sha512hex first.1.1 first.1.2).1 = s
  /\ ImageRegistry.registries second.1.2
     = ImageRegistry.registries s ++ [registry; registry]
  /\ (ImageRegistry.unregisterRegistry sha512hex second.1.1 second.1.2).1 = s.
Proof.
  intros first second.
  assert (Hself : ImageRegistry.kept registry registry = false).
  { apply kept_false. split; reflexivity. }
  assert (Hfilter : List.filter (ImageRegistry.kept registry) (ImageRegistry.registries s)
                    = ImageRegistry.registries s).
  { clear -Hnew. induction (ImageRegistry.registries s) as [|x l IH]; [reflexivity |].
    cbn. rewrite (Hnew x) by (left; reflexivity). f_equal. apply IH.
    intros item Hin. apply Hnew. right. exact Hin. }
  assert (Hundo : forall extra,
             (forall item, In item extra -> ImageRegistry.kept registry item = false) ->
             extra <> [] ->
             (ImageRegistry.unregisterRegistry sha512hex registry
                {| ImageRegistry.registries := ImageRegistry.registries s ++ extra;
                   ImageRegistry.providers := ImageRegistry.providers s |}).1 = s).
  { intros extra Hextra Hne. unfold ImageRegistry.unregisterRegistry. cbn.
    rewrite List.filter_app, Hfilter.
    assert (Hnone : List.filter (ImageRegistry.kept registry) extra = []).
    { clear -Hextra. induction extra as [|x l IH]; [reflexivity |].
      cbn. rewrite (Hextra x) by (left; reflexivity). apply IH.
      intros item Hin. apply Hextra. right. exact Hin. }
    rewrite Hnone, app_nil_r, length_app.
    destruct (Nat.eqb_spec (length (ImageRegistry.registries s))
                (length (ImageRegistry.registries s) + length extra)) as [Heq | _].
    - destruct extra; [contradiction | cbn in Heq; lia].
    - cbn. apply state_eta. }
  split; [reflexivity |]. split; [reflexivity |]. split; [| split].
  - apply (Hundo [registry]); [| discriminate].
    intros item [<- | []]. exact Hself.
  - cbn. rewrite <- app_assoc. reflexivity.
  - cbn. rewrite <- app_assoc. apply (Hundo [registry; registry]); [| discriminate].
    intros item [<- | [<- | []]]; exact Hself.
Qed.

(** ** Creating and updating registries *)

(** X28. [createRegistry] throws when no provider has the given name. With a
    provider whose [create] returns a registry that carries the provider's
    name as source and the requested url, a successful [createRegistry]
    appends that registry, and a second [createRegistry] with the same
    options throws "Registry ... already exists" and leaves the state as it
    is. *)
Theorem createRegistry_rejects_duplicates (sha512hex : string -> string)
    (providerName : string) (options : ImageRegistry.RegistryCreateOptions)
    (provider : ImageRegistry.RegistryProvider) (s : ImageRegistry.State)
    (Hprovider : JSMap.get providerName (ImageRegistry.providers s) = Some provider)
    (Hsource : ImageRegistry.source (ImageRegistry.create provider options) = providerName)
    (Hurl : ImageRegistry.serverUrl (ImageRegistry.create provider options)
            = ImageRegistry.opt_serverUrl options) :
  let run := ImageRegistry.createRegistry sha512hex providerName options s in
  let duplicate :=
    Throw (JsError ("Registry " +:+ ImageRegistry.opt_serverUrl options
                    +:+ " already exists")) in
  (forall name s0,
      JSMap.get name (ImageRegistry.providers s0) = None ->
      ImageRegistry.createRegistry sha512hex name options s0
      = (Throw (JsError ("Provider " +:+ name +:+ " not found")), s0, []))
  /\ (run.1.1 = duplicate /\ run.1.2 = s /\ run.2 = []
      \/ run.1.1 = Normal (ImageRegistry.create provider options)
         /\ ImageRegistry.registries run.1.2
            = ImageRegistry.registries s ++ [ImageRegistry.create provider options])
  /\ ImageRegistry.createRegistry sha512hex providerName options run.1.2
     = (duplicate, run.1.2, []).
Proof.
  intros run duplicate.
  set (found := fun registry =>
         String.eqb (ImageRegistry.serverUrl registry) (ImageRegistry.opt_serverUrl options)
         && String.eqb (ImageRegistry.source registry) providerName).
  assert (Hcreated : found (ImageRegistry.create provider options) = true).
  { unfold found. rewrite Hsource, Hurl, !String.eqb_refl. reflexivity. }
  assert (Hexists : forall s0,
             JSMap.get providerName (ImageRegistry.providers s0) = Some provider ->
             is_Some (find found (ImageRegistry.registries s0)) ->
             ImageRegistry.createRegistry sha512hex providerName options s0
             = (duplicate, s0, [])).
  { intros s0 Hp [existing Hfind]. unfold ImageRegistry.createRegistry.
    rewrite Hp. fold found. rewrite Hfind. reflexivity. }
  split; [| split].
  - intros name s0 Hnone. unfold ImageRegistry.createRegistry. rewrite Hnone. reflexivity.
  - subst run. unfold ImageRegistry.createRegistry. rewrite Hprovider. fold found.
    destruct (find found (ImageRegistry.registries s)); [left | right]; repeat split.
  - destruct (find found (ImageRegistry.registries s)) as [existing|] eqn:Hfind.
    + assert (Hrun : run = (duplicate, s, [])) by (apply Hexists; eauto).
      rewrite Hrun. cbn. apply Hexists; eauto.
    + assert (Hrun : run.1.2
                     = {| ImageRegistry.registries :=
                            ImageRegistry.registries s
                            ++ [ImageRegistry.create provider options];
                          ImageRegistry.providers := ImageRegistry.providers s |}).
      { subst run. unfold ImageRegistry.createRegistry. rewrite Hprovider. fold found.
        rewrite Hfind. reflexivity. }
      rewrite Hrun. apply Hexists; [exact Hprovider |]. cbn.
      assert (Hfound : forall l, find found l = None ->
                                 find found (l ++ [ImageRegistry.create provider options])
                                 = Some (ImageRegistry.create provider options)).
      { induction l as [|x l IH]; cbn; [rewrite Hcreated; reflexivity |].
        destruct (found x); [discriminate | exact IH]. }
      rewrite (Hfound _ Hfind). eauto.
Qed.

Lemma find_first {A} (P : A -> bool) (before behind : list A) (x : A) :
  (forall y, In y before -> P y = false) -> P x = true ->
  find P (before ++ x :: behind) = Some x.
Proof.
  intros Hbefore Hx. induction before as [|y before IH]; cbn.
  - rewrite Hx. reflexivity.
  - rewrite (Hbefore y (or_introl eq_refl)).
    apply IH. intros z Hz. apply Hbefore. right. exact Hz.
Qed.

Lemma find_nowhere {A} (P : A -> bool) (l : list A) :
  find P l = None <-> forall y, In y l -> P y = false.
Proof.
  split; [apply find_none |].
  intros Hnone. induction l as [|y l IH]; cbn; [reflexivity |].
  rewrite (Hnone y (or_introl eq_refl)).
  apply IH. intros z Hz. apply Hnone. right. exact Hz.
Qed.

Lemma matchesForUpdate_by_source (registry existing : ImageRegistry.Registry) :
  ImageRegistry.matchesForUpdate registry existing
  = String.eqb (ImageRegistry.source registry) (ImageRegistry.source existing).
Proof. unfold ImageRegistry.matchesForUpdate. rewrite String.eqb_refl. reflexivity. Qed.

(** X29. [updateRegistry] finds the registry to update by its source alone:
    neither the [registryUrl] argument nor the url of the registry passed
    takes part in the search. It throws "was not found" exactly when no
    stored registry has the source of the argument. Otherwise its target is
    the first stored registry with that source, whatever its url. When the
    target is frozen the assignment throws and nothing has changed. When it
    is not, the target receives the username and the secret of the
    argument, which shows in every entry of the list that holds the target;
    the other objects are left as they are, and the argument is frozen. So
    when the argument is the target itself, every later update for that
    source throws. *)
Theorem updateRegistry_matches_source_only (sha512hex : string -> string)
    (registryUrl : string) (registry : nat) (s : ImageRegistry.Store) :
  let run := ImageRegistry.updateRegistry sha512hex registryUrl registry s in
  let given := ImageRegistry.content (ImageRegistry.object s registry) in
  let stored ref := ImageRegistry.content (ImageRegistry.object s ref) in
  ((forall ref, In ref (ImageRegistry.held s) ->
                ImageRegistry.source (stored ref) <> ImageRegistry.source given)
   <-> run = (Throw (JsError ("Registry " +:+ registryUrl +:+ " was not found")), s, []))
  /\ (forall before target behind,
        ImageRegistry.held s = before ++ target :: behind ->
        (forall ref, In ref before ->
                     ImageRegistry.source (stored ref) <> ImageRegistry.source given) ->
        ImageRegistry.source (stored target) = ImageRegistry.source given ->
        if ImageRegistry.frozen (ImageRegistry.object s target)
        then run = (Throw (ImageRegistry.readOnlyProperty "username"), s, [])
        else
          let updated := {| ImageRegistry.source := ImageRegistry.source (stored target);
                            ImageRegistry.serverUrl := ImageRegistry.serverUrl (stored target);
                            ImageRegistry.username := ImageRegistry.username given;
                            ImageRegistry.secret := ImageRegistry.secret given |} in
          let s' := run.1.2 in
          run.1.1 = Normal tt
          /\ ImageRegistry.held s' = ImageRegistry.held s
          /\ (forall ref,
                ImageRegistry.content (ImageRegistry.object s' ref)
                = if Nat.eqb ref target then updated else stored ref)
          /\ (forall ref,
                ImageRegistry.frozen (ImageRegistry.object s' ref)
                = Nat.eqb ref registry || ImageRegistry.frozen (ImageRegistry.object s ref))
          /\ ImageRegistry.contents s'
             = map (fun ref => if Nat.eqb ref target then updated else stored ref)
                 (ImageRegistry.held s)
          /\ run.2
             = [ImageRegistry.Track "updateRegistry" "serverUrl"
                  (sha512hex (ImageRegistry.serverUrl (stored target)))
                  (length (ImageRegistry.held s));
                ImageRegistry.Send "registry-update"
                  (ImageRegistry.content (ImageRegistry.object s' registry));
                ImageRegistry.Fire "onDidUpdateRegistry"
                  (ImageRegistry.content (ImageRegistry.object s' registry))]
          /\ (registry = target ->
              forall url other,
                ImageRegistry.source (ImageRegistry.content (ImageRegistry.object s' other))
                = ImageRegistry.source given ->
                ImageRegistry.updateRegistry sha512hex url other s'
                = (Throw (ImageRegistry.readOnlyProperty "username"), s', [])
                /\ ImageRegistry.contents s' = ImageRegistry.contents s)).
Proof.
  intros run given stored.
  set (matches := fun existringRegistry =>
         ImageRegistry.matchesForUpdate given (stored existringRegistry)).
  assert (Hmatches : forall ref,
             matches ref = false <-> ImageRegistry.source (stored ref)
                                     <> ImageRegistry.source given).
  { intros ref. unfold matches. rewrite matchesForUpdate_by_source.
    destruct (String.eqb_spec (ImageRegistry.source given) (ImageRegistry.source (stored ref)));
      split; congruence. }
  assert (Hrun : run
                 = match find matches (ImageRegistry.held s) with
                   | None =>
                       (Throw (JsError ("Registry " +:+ registryUrl +:+ " was not found")),
                        s, [])
                   | Some target =>
                       if ImageRegistry.frozen (ImageRegistry.object s target)
                       then (Throw (ImageRegistry.readOnlyProperty "username"), s, [])
                       else
                         let s1 := ImageRegistry.assign target
                                     (ImageRegistry.set_username (ImageRegistry.username given))
                                     s in
                         let s2 := ImageRegistry.assign target
                                     (ImageRegistry.set_secret
                                        (ImageRegistry.secret
                                           (ImageRegistry.content
                                              (ImageRegistry.object s1 registry)))) s1 in
                         let s3 := ImageRegistry.assign registry ImageRegistry.freeze s2 in
                         (Normal tt, s3,
                          [ImageRegistry.Track "updateRegistry" "serverUrl"
                             (sha512hex (ImageRegistry.serverUrl
                                (ImageRegistry.content (ImageRegistry.object s2 target))))
                             (length (ImageRegistry.held s2));
                           ImageRegistry.Send "registry-update"
                             (ImageRegistry.content (ImageRegistry.object s2 registry));
                           ImageRegistry.Fire "onDidUpdateRegistry"
                             (ImageRegistry.content (ImageRegistry.object s3 registry))])
                   end) by reflexivity.
  split.
  - rewrite Hrun. split.
    + intros Hnone.
      rewrite (proj2 (find_nowhere matches (ImageRegistry.held s)));
        [reflexivity |].
      intros ref Hin. apply Hmatches, Hnone, Hin.
    + destruct (find matches (ImageRegistry.held s)) as [target|] eqn:Hfind.
      * destruct (ImageRegistry.frozen (ImageRegistry.object s target)); discriminate.
      * intros _ ref Hin. apply Hmatches.
        exact (proj1 (find_nowhere matches _) Hfind ref Hin).
  - intros before target behind Hsplit Hbefore Htarget.
    assert (Hfind : find matches (ImageRegistry.held s) = Some target).
    { rewrite Hsplit. apply find_first.
      - intros ref Hin. apply Hmatches, Hbefore, Hin.
      - destruct (matches target) eqn:Hm; [reflexivity |].
        apply Hmatches in Hm. contradiction. }
    rewrite Hrun, Hfind.
    destruct (ImageRegistry.frozen (ImageRegistry.object s target)) eqn:Hfrozen;
      [reflexivity |].
    cbv zeta.
    assert (Hcontent : forall ref,
               ImageRegistry.content
                 (ImageRegistry.object
                    (ImageRegistry.assign registry ImageRegistry.freeze
                       (ImageRegistry.assign target
                          (ImageRegistry.set_secret
                             (ImageRegistry.secret
                                (ImageRegistry.content
                                   (ImageRegistry.object
                                      (ImageRegistry.assign target
                                         (ImageRegistry.set_username
                                            (ImageRegistry.username given)) s)
                                      registry))))
                          (ImageRegistry.assign target
                             (ImageRegistry.set_username (ImageRegistry.username given)) s)))
                    ref)
               = if Nat.eqb ref target
                 then {| ImageRegistry.source := ImageRegistry.source (stored target);
                         ImageRegistry.serverUrl := ImageRegistry.serverUrl (stored target);
                         ImageRegistry.username := ImageRegistry.username given;
                         ImageRegistry.secret := ImageRegistry.secret given |}
                 else stored ref).
    { intros ref. cbn.
      destruct (Nat.eqb_spec ref registry) as [-> | Href];
        destruct (Nat.eqb_spec registry target) as [-> | Hreg]; cbn;
        rewrite ?Nat.eqb_refl; try reflexivity;
        destruct (Nat.eqb_spec ref target) as [-> | Hne]; reflexivity. }
    cbn [fst snd].
    split; [reflexivity |]. split; [reflexivity |]. split; [exact Hcontent |].
    split.
    { intros ref. cbn.
      destruct (Nat.eqb ref registry), (Nat.eqb ref target); reflexivity. }
    split.
    { unfold ImageRegistry.contents. apply map_ext. intros ref. apply Hcontent. }
    split.
    { cbn. rewrite !Nat.eqb_refl.
      destruct (Nat.eqb_spec registry target) as [-> | Hreg]; cbn;
        rewrite ?Nat.eqb_refl; reflexivity. }
    intros -> url other Hother.
    set (s' := ImageRegistry.assign target ImageRegistry.freeze _) in *.
    assert (Hsame : forall ref, ImageRegistry.content (ImageRegistry.object s' ref)
                                = stored ref).
    { intros ref. rewrite Hcontent. destruct (Nat.eqb_spec ref target) as [-> | Hne];
        [| reflexivity].
      unfold stored, given. destruct (ImageRegistry.content (ImageRegistry.object s target)).
      reflexivity. }
    split.
    + assert (Hfind' : find (fun existringRegistry =>
                               ImageRegistry.matchesForUpdate
                                 (ImageRegistry.content (ImageRegistry.object s' other))
                                 (ImageRegistry.content
                                    (ImageRegistry.object s' existringRegistry)))
                         (ImageRegistry.held s') = Some target).
      { change (ImageRegistry.held s') with (ImageRegistry.held s). rewrite Hsplit.
        apply find_first.
        - intros ref Hin. rewrite matchesForUpdate_by_source, Hother, Hsame.
          apply Hbefore in Hin.
          destruct (String.eqb_spec (ImageRegistry.source given)
                      (ImageRegistry.source (stored ref))); congruence.
        - rewrite matchesForUpdate_by_source, Hother, Hsame.
          apply String.eqb_eq. symmetry. exact Htarget. }
      assert (Hfrozen' : ImageRegistry.frozen (ImageRegistry.object s' target) = true).
      { subst s'. cbn. rewrite Nat.eqb_refl. reflexivity. }
      unfold ImageRegistry.updateRegistry. rewrite Hfind', Hfrozen'. reflexivity.
    + unfold ImageRegistry.contents. apply map_ext. intros ref. apply Hsame.
Qed.

(** * Concrete runs of the further properties *)

Lemma freshRegistry_reachable : reachable freshRegistry.
Proof.
  change freshRegistry
    with (after (RegisterLifecycle podman machineLifecycle)
            (after (CreateProvider podmanOptions)
               (after (AddProviderListener 7) newProviderRegistry))).
  repeat constructor.
Defined.

Lemma freshRegistry_tracked : JSMap.get "0" (providers freshRegistry) = Some podman.
Proof. vm_compute. reflexivity. Defined.

Lemma connectionRegistry_tracked :
  JSMap.get "0" (providers (connectionRegistry resolves))
  = Some (withConnections [machine resolves] podman).
Proof. vm_compute. reflexivity. Defined.

Lemma removeProviderListener_witness :
  final (removeProviderListener 7 (final (addProviderListener 7 newProviderRegistry)))
  = newProviderRegistry.
Proof.
  assert (Hfresh : ~ In 7 (listeners newProviderRegistry)) by (intros []).
  exact (proj1 (proj2 (removeProviderListener_roundtrip newProviderRegistry 7 Hfresh))).
Defined.

Lemma removeProviderLifecycleListener_witness :
  final (removeProviderLifecycleListener 7
           (final (addProviderLifecycleListener 7 newProviderRegistry)))
  = newProviderRegistry.
Proof.
  assert (Hfresh : ~ In 7 (lifecycleListeners newProviderRegistry)) by (intros []).
  exact (proj1 (proj2 (removeProviderLifecycleListener_roundtrip
                         newProviderRegistry 7 Hfresh))).
Defined.

Lemma disposeProvider_witness :
  providerLifecycles (final (disposeProvider (updateStatus Ready podman) observedRegistry))
  = providerLifecycles observedRegistry
  /\ getMatchingProvider "0"
       (final (disposeProvider (updateStatus Ready podman) observedRegistry))
     = (Throw (JsError "no provider matching provider id 0"),
        final (disposeProvider (updateStatus Ready podman) observedRegistry), []).
Proof.
  pose proof (disposeProvider_keeps_capabilities observedRegistry
                (updateStatus Ready podman) observedRegistry_wellFormed) as H.
  cbv zeta in H. destruct H as (_ & _ & Hgone & Hkept & _).
  split; [exact Hkept | exact Hgone].
Defined.

Lemma registerInstallation_witness :
  let r1 := final (registerInstallation podman installation freshRegistry) in
  pi_installationSupport (getProviderInfo r1 podman) = true
  /\ installProvider "0" r1
     = (Normal tt, r1, [TelemetryTrack "installProvider" [("name", "Podman")]]).
Proof.
  pose proof (registerInstallation_roundtrip freshRegistry podman podman installation
                freshRegistry_tracked) as H.
  cbv zeta in H. destruct H as (H1 & H2 & _). split; [exact H1 | exact H2].
Defined.

Lemma registerUpdate_witness :
  let upd := {| upd_version := "4.4.0"; upd_preflightChecks := None;
                update := fun _ => resolves |} in
  pi_updateInfo (getProviderInfo (final (registerUpdate podman upd freshRegistry)) podman)
  = Some "4.4.0".
Proof.
  intros upd.
  exact (proj1 (registerUpdate_roundtrip freshRegistry podman podman upd
                  freshRegistry_tracked)).
Defined.

Lemma reachable_wellFormed_witness : wellFormed freshRegistry.
Proof. exact (reachable_wellFormed freshRegistry freshRegistry_reachable). Defined.

Lemma reachable_lifecycle_has_context_witness :
  exists context,
    getMatchingLifecycleContext "0" freshRegistry = (Normal context, freshRegistry, []).
Proof.
  assert (Hlifecycle : providerLifecycles freshRegistry !! "0" = Some machineLifecycle)
    by (vm_compute; reflexivity).
  exact (proj2 (reachable_lifecycle_has_context freshRegistry "0" machineLifecycle
                  freshRegistry_reachable Hlifecycle)).
Defined.

Lemma createProvider_never_replaces_witness :
  JSMap.get "1" (providers freshRegistry) = None
  /\ JSMap.keys (providers (final (createProvider dockerOptions freshRegistry)))
     = ["0"; "1"].
Proof.
  assert (Hexact : (count freshRegistry < 2 ^ 53)%N) by (vm_compute; reflexivity).
  destruct (createProvider_never_replaces freshRegistry dockerOptions
              freshRegistry_reachable Hexact) as (Hfresh & Happend & _).
  split; [exact Hfresh |]. rewrite Happend. vm_compute. reflexivity.
Defined.

Lemma connection_context_never_removed_witness :
  is_Some (connectionLifecycleContexts
             (after (OnDidUnregisterContainerConnection podman (machine resolves))
                (connectionRegistry resolves)) !! 1).
Proof.
  apply connection_context_never_removed. vm_compute. eauto.
Defined.

Lemma listeningRegistry_tracked :
  JSMap.get "0" (providers listeningRegistry) = Some podman.
Proof. reflexivity. Defined.

(** The timer fires at instant 3 while [start] is pending: the listener is
    told "installed" before the start and "started" after it. *)
Lemma start_stop_lifecycle_witness :
  startProviderLifecycle [tick 3] "0" listeningRegistry
  = (Normal tt, final (tick 3 listeningRegistry),
     [LifecycleEvent 9 "provider:before-start-lifecycle"
        (getProviderInfo listeningRegistry podman) machineLifecycle;
      CallLifecycleStart machineLifecycle NewLifecycleContextImpl;
      ProviderEvent 7 "provider:update-status"
        (getProviderInfo listeningRegistry (updateStatus Started podman));
      LifecycleEvent 9 "provider:after-start-lifecycle"
        (getProviderInfo listeningRegistry (updateStatus Started podman)) machineLifecycle])
  /\ pi_status (getProviderInfo listeningRegistry podman) = Installed
  /\ pi_status (getProviderInfo listeningRegistry (updateStatus Started podman)) = Started.
Proof.
  assert (Hl : providerLifecycles listeningRegistry !! "0" = Some machineLifecycle)
    by (vm_compute; reflexivity).
  assert (Hc : providerLifecycleContexts listeningRegistry !! "0"
               = Some NewLifecycleContextImpl)
    by (vm_compute; reflexivity).
  pose proof (proj1 (start_stop_lifecycle_notifications [tick 3] listeningRegistry "0"
                       podman machineLifecycle NewLifecycleContextImpl
                       listeningRegistry_tracked Hl Hc)) as Hrun.
  split; [| split; reflexivity].
  destruct (interleaved [tick 3] podman listeningRegistry) as [[live r1] shown] eqn:Hi.
  rewrite (proj1 Hrun). vm_compute in Hi. injection Hi as <- <- <-.
  vm_compute. reflexivity.
Defined.

Lemma initializingRegistry_tracked :
  JSMap.get "0" (providers initializingRegistry) = Some podman.
Proof. reflexivity. Defined.

(** The timer fires at instant 3 while [initialize] is pending. *)
Lemma intializeProviderLifecycle_witness :
  intializeProviderLifecycle [tick 3] "0" initializingRegistry
  = (Normal tt, final (tick 3 initializingRegistry),
     [LifecycleEvent 9 "provider:before-initialize-lifecycle"
        (getProviderInfo initializingRegistry podman) initializingLifecycle;
      CallLifecycleInitialize initializingLifecycle NewLifecycleContextImpl;
      ProviderEvent 7 "provider:update-status"
        (getProviderInfo initializingRegistry (updateStatus Started podman));
      LifecycleEvent 9 "provider:after-initialize-lifecycle"
        (getProviderInfo initializingRegistry (updateStatus Started podman))
        initializingLifecycle]).
Proof.
  assert (Hl : providerLifecycles initializingRegistry !! "0" = Some initializingLifecycle)
    by (vm_compute; reflexivity).
  rewrite (intializeProviderLifecycle_cases [tick 3] initializingRegistry "0" podman
             initializingLifecycle initializingRegistry_tracked Hl).
  vm_compute. reflexivity.
Defined.

Lemma initializeProvider_witness :
  result (intializeProviderLifecycle [tick 3] "0" freshRegistry) = Normal tt
  /\ result (initializeProvider [tick 3] "0" freshRegistry)
     = Throw (JsError "No initialize implementation found for this provider").
Proof.
  destruct (initializeProvider_dispatch [tick 3] freshRegistry "0" podman
              freshRegistry_tracked)
    as (_ & _ & H).
  apply (H machineLifecycle NewLifecycleContextImpl); vm_compute; reflexivity.
Defined.


Lemma startProvider_is_startProviderConnection_witness :
  startProvider [tick 1] "0" (connectionRegistry resolves)
  = startProviderConnection "0" (machineInfo resolves) (connectionRegistry resolves).
Proof.
  assert (Hl : providerLifecycles (connectionRegistry resolves) !! "0" = None)
    by (vm_compute; reflexivity).
  exact (startProvider_is_startProviderConnection [tick 1]
           (connectionRegistry resolves) "0"
           (withConnections [machine resolves] podman) (machine resolves) []
           connectionRegistry_tracked Hl eq_refl).
Defined.

Lemma listed_lifecycle_methods_witness :
  trace (startProviderConnection "0" (machineInfo resolves) (connectionRegistry resolves))
  = [CallConnectionStart (machine resolves) NewLifecycleContextImpl].
Proof.
  assert (Hc : connectionLifecycleContexts (connectionRegistry resolves) !! 1
               = Some NewLifecycleContextImpl) by (vm_compute; reflexivity).
  pose proof (listed_lifecycle_methods_are_callable (connectionRegistry resolves) "0"
                (withConnections [machine resolves] podman) (machineInfo resolves)
                (machine resolves) NewLifecycleContextImpl
                connectionRegistry_tracked eq_refl Hc) as H.
  cbv zeta in H. apply (proj1 H). right. left. reflexivity.
Defined.

Lemma tick_skips_witness :
  statusUpdates "7" (trace (tick 1 observedRegistry)) = [].
Proof.
  assert (Hskip : JSMap.get "7" (providers observedRegistry) = None
                  \/ providerLifecycles observedRegistry !! "7" = None)
    by (left; vm_compute; reflexivity).
  exact (proj1 (tick_skips_without_lifecycle 1 "7" observedRegistry
                  observedRegistry_wellFormed Hskip)).
Defined.

Lemma runPreflightChecks_unsuccessful_witness :
  runPreflightChecks "0" false installRegistry
  = (Normal false, installRegistry,
     flat_map report [passingCheck "cpu"]
     ++ [StartCheck "memory"; CallExecute (throwingCheck "memory" "not enough memory");
         ConsoleError (JsError "not enough memory");
         EndCheck "memory" false (Some "not enough memory") None]).
Proof.
  assert (Hselected : selectedCapability installRegistry "0" false
                      = Some (AnInstallation installation))
    by (vm_compute; reflexivity).
  destruct (runPreflightChecks_unsuccessful_check installRegistry "0" false
              (AnInstallation installation) [passingCheck "cpu"] [passingCheck "disk"]
              (throwingCheck "memory" "not enough memory") Hselected eq_refl eq_refl)
    as [_ H].
  exact (H (JsError "not enough memory") eq_refl).
Defined.

Lemma createProviderConnection_witness :
  createProviderConnection "0" [("name", "machine")] freshRegistry
  = (Throw (JsError "The provider does not support container connection creation"),
     freshRegistry, []).
Proof.
  exact (createProviderConnection_delegates freshRegistry "0" podman [("name", "machine")]
           freshRegistry_tracked).
Defined.

(** The provider registers its lifecycle, [startProvider] is called, and
    the timer fires at instant 3 while [start] is pending. *)
Lemma registerLifecycle_then_startProvider_witness :
  let r1 := final (registerLifecycle podman machineLifecycle listeningRegistry) in
  pi_lifecycleMethods (getProviderInfo r1 podman) = Some [MStart; MStop]
  /\ startProvider [tick 3] "0" r1
     = (Normal tt, final (tick 3 r1),
        [LifecycleEvent 9 "provider:before-start-lifecycle"
           (getProviderInfo r1 podman) machineLifecycle;
         CallLifecycleStart machineLifecycle NewLifecycleContextImpl;
         ProviderEvent 7 "provider:update-status"
           (getProviderInfo r1 (updateStatus Started podman));
         LifecycleEvent 9 "provider:after-start-lifecycle"
           (getProviderInfo r1 (updateStatus Started podman)) machineLifecycle]).
Proof.
  intros r1.
  destruct (registerLifecycle_then_startProvider [tick 3] listeningRegistry podman podman
              machineLifecycle listeningRegistry_tracked) as [Hlisted Hrun].
  split; [exact Hlisted |]. fold r1 in Hrun. change (internalId podman) with "0" in Hrun.
  destruct (interleaved [tick 3] podman r1) as [[live r2] shown] eqn:Hi.
  rewrite Hrun. vm_compute in Hi. injection Hi as <- <- <-.
  vm_compute. reflexivity.
Defined.

Lemma registered_connection_witness :
  let r1 := final (onDidRegisterContainerConnection podman (machine resolves)
                     (connectionRegistry resolves)) in
  startProviderConnection "0" (machineInfo resolves) r1
  = (Normal tt, r1, [CallConnectionStart (machine resolves) NewLifecycleContextImpl]).
Proof.
  exact (proj1 (registered_connection_is_startable (connectionRegistry resolves) "0"
                  (withConnections [machine resolves] podman) podman
                  (machineInfo resolves) (machine resolves) (fun _ => resolves)
                  connectionRegistry_tracked eq_refl eq_refl)).
Defined.

Lemma getAuthconfigForImage_witness :
  exists server registry,
    ImageRegistry.registryServer "alpine" = Some server
    /\ In registry (ImageRegistry.registries imageState)
    /\ asciiLower (ImageRegistry.serverUrl registry) = asciiLower server.
Proof.
  assert (Hauth : ImageRegistry.getAuthconfigForImage asciiLower "alpine" imageState
                  = Some {| ImageRegistry.auth_username := "alice";
                            ImageRegistry.auth_password := "s3cret";
                            ImageRegistry.auth_serveraddress :=
                              "https://index.docker.io/v2/" |})
    by (vm_compute; reflexivity).
  destruct (getAuthconfigForImage_sound asciiLower "alpine" imageState _ Hauth)
    as (server & registry & H1 & H2 & H3 & _).
  exists server, registry. repeat split; assumption.
Defined.

Example getAuthconfigForImage_examples :
  ImageRegistry.getAuthconfigForImage asciiLower "quay.io/podman/hello" imageState
  = Some {| ImageRegistry.auth_username := "bob"; ImageRegistry.auth_password := "hunter2";
            ImageRegistry.auth_serveraddress := "quay.io" |}
  /\ ImageRegistry.getAuthconfigForImage asciiLower "quay.io/podman/stable/hello" imageState
     = None
  /\ ImageRegistry.split "quay.io/podman/hello" = ["quay.io"; "podman"; "hello"]
  /\ ImageRegistry.split "" = [""].
Proof. vm_compute. repeat split. Qed.

Lemma registerRegistry_dispose_witness :
  (ImageRegistry.unregisterRegistry noHash quay
     (ImageRegistry.registerRegistry noHash quay ImageRegistry.newImageRegistry).1.2).1
  = ImageRegistry.newImageRegistry.
Proof.
  assert (Hnew : forall item,
             In item (ImageRegistry.registries ImageRegistry.newImageRegistry) ->
             ImageRegistry.kept quay item = true) by (intros item []).
  pose proof (registerRegistry_dispose noHash quay ImageRegistry.newImageRegistry Hnew) as H.
  cbv zeta in H. exact (proj1 (proj2 (proj2 H))).
Defined.

Lemma createRegistry_witness :
  ImageRegistry.createRegistry noHash "podman" quayOptions
    (ImageRegistry.createRegistry noHash "podman" quayOptions imageState).1.2
  = (Throw (JsError "Registry quay.io already exists"),
     (ImageRegistry.createRegistry noHash "podman" quayOptions imageState).1.2, []).
Proof.
  pose proof (createRegistry_rejects_duplicates noHash "podman" quayOptions quayProvider
                imageState eq_refl eq_refl eq_refl) as H.
  cbv zeta in H. exact (proj2 (proj2 H)).
Defined.

(** A registry of source "podman" stored twice, then one of source
    "docker"; the object given is a third one of source "podman", for
    another url. The credentials of the stored object change in both
    entries of the list, and the object given is frozen. *)
Example updateRegistry_updates_every_entry_of_the_target :
  let run := ImageRegistry.updateRegistry noHash "ghcr.io" 2 sharedStore in
  ImageRegistry.contents sharedStore = [quay; quay; dockerHub]
  /\ run.1.1 = Normal tt
  /\ ImageRegistry.contents run.1.2
     = [{| ImageRegistry.source := "podman"; ImageRegistry.serverUrl := "quay.io";
           ImageRegistry.username := "carol"; ImageRegistry.secret := "new" |};
        {| ImageRegistry.source := "podman"; ImageRegistry.serverUrl := "quay.io";
           ImageRegistry.username := "carol"; ImageRegistry.secret := "new" |};
        dockerHub]
  /\ map (fun ref => ImageRegistry.frozen (ImageRegistry.object run.1.2 ref)) [0; 1; 2]
     = [false; false; true].
Proof. repeat split. Qed.

(** The object given is the stored one: the first update freezes it, the
    second one throws. *)
Lemma updateRegistry_witness :
  let run := ImageRegistry.updateRegistry noHash "quay.io" 0 sharedStore in
  run.1.1 = Normal tt
  /\ ImageRegistry.contents run.1.2 = ImageRegistry.contents sharedStore
  /\ ImageRegistry.updateRegistry noHash "quay.io" 0 run.1.2
     = (Throw (ImageRegistry.readOnlyProperty "username"), run.1.2, []).
Proof.
  intros run.
  pose proof (proj2 (updateRegistry_matches_source_only noHash "quay.io" 0 sharedStore)
                [] 0 [0; 1] eq_refl (fun ref (Hin : In ref []) => match Hin with end)
                eq_refl) as H.
  cbv beta iota zeta in H. change (ImageRegistry.frozen (ImageRegistry.object sharedStore 0))
    with false in H. cbv beta iota in H.
  destruct H as (Hresult & _ & _ & _ & _ & _ & Hlater).
  destruct (Hlater eq_refl "quay.io" 0 eq_refl) as [Hthrows Hcontents].
  split; [exact Hresult |]. split; [exact Hcontents | exact Hthrows].
Defined.

(** * The lifecycle of the CRC extension *)

(** X30. The two conversions of the CRC daemon status agree on "Running",
    "Starting", "Stopping" and "Stopped" and give "unknown" for anything
    else, a missing status included; they differ on "No Cluster", which is
    "configured" for the provider and "stopped" for its connection. The
    extension's lifecycle catches the errors of the daemon commands, so for
    a tracked provider registered with it [startProviderLifecycle] and
    [stopProviderLifecycle] return normally whatever the commands settle
    to, and send the after-start and after-stop notifications to the
    listeners registered when the command is over, with the provider as it
    is by then. *)
Theorem crc_lifecycle_never_fails (meanwhile : Interleaving) (r : Registry)
    (providerId : string)
    (provider : ProviderImpl) (context : LifecycleContextImpl)
    (crcStatus : nat -> option string) (commanderStart commanderStop : Promise unit)
    (Htracked : JSMap.get providerId (providers r) = Some provider)
    (Hlifecycle : providerLifecycles r !! providerId
                  = Some (crcProviderLifecycle crcStatus commanderStart commanderStop))
    (Hcontext : providerLifecycleContexts r !! providerId = Some context) :
  let lifecycle := crcProviderLifecycle crcStatus commanderStart commanderStop in
  (forall status,
      match convertToProviderStatus status with
      | Started => status = Some "Running" /\ convertToConnectionStatus status = ConnStarted
      | Starting => status = Some "Starting" /\ convertToConnectionStatus status = ConnStarting
      | Stopping => status = Some "Stopping" /\ convertToConnectionStatus status = ConnStopping
      | Stopped => status = Some "Stopped" /\ convertToConnectionStatus status = ConnStopped
      | Configured =>
          status = Some "No Cluster" /\ convertToConnectionStatus status = ConnStopped
      | UnknownStatus => convertToConnectionStatus status = ConnUnknown
      | _ => False
      end)
  /\ let '(live, r1, shown) := interleaved meanwhile provider r in
     startProviderLifecycle meanwhile providerId r
     = (Normal tt, r1,
        lifecycleEvents r "provider:before-start-lifecycle" provider lifecycle
        ++ [CallLifecycleStart lifecycle context] ++ shown
        ++ lifecycleEvents r1 "provider:after-start-lifecycle" live lifecycle)
     /\ stopProviderLifecycle meanwhile providerId r
        = (Normal tt, r1,
           lifecycleEvents r "provider:before-stop-lifecycle" provider lifecycle
           ++ [CallLifecycleStop lifecycle context] ++ shown
           ++ lifecycleEvents r1 "provider:after-stop-lifecycle" live lifecycle).
Proof.
  intros lifecycle. split.
  - intros [status|]; [| reflexivity].
    destruct (String.eqb_spec status "Running") as [-> | H1]; [split; reflexivity |].
    destruct (String.eqb_spec status "Starting") as [-> | H2]; [split; reflexivity |].
    destruct (String.eqb_spec status "Stopping") as [-> | H3]; [split; reflexivity |].
    destruct (String.eqb_spec status "Stopped") as [-> | H4]; [split; reflexivity |].
    destruct (String.eqb_spec status "No Cluster") as [-> | H5]; [split; reflexivity |].
    assert (Hp : convertToProviderStatus (Some status) = UnknownStatus
                 /\ convertToConnectionStatus (Some status) = ConnUnknown).
    { clear -H1 H2 H3 H4 H5. unfold convertToProviderStatus, convertToConnectionStatus.
      repeat match goal with
        | |- context [match ?s with EmptyString => _ | String _ _ => _ end] =>
            destruct s as [|[[] [] [] [] [] [] [] []] ?]; try (split; reflexivity);
            try congruence
        end. }
    destruct Hp as [-> Hc]. exact Hc.
  - assert (Hstart : startProviderLifecycle meanwhile providerId r
             = let '(live, r1, shown) := interleaved meanwhile provider r in
               (Normal tt, r1,
                lifecycleEvents r "provider:before-start-lifecycle" provider lifecycle
                ++ [CallLifecycleStart lifecycle context] ++ shown
                ++ lifecycleEvents r1 "provider:after-start-lifecycle" live lifecycle)).
    { unfold startProviderLifecycle.
      rewrite (lifecycle_lookups r providerId provider lifecycle context _
                 Htracked Hlifecycle Hcontext).
      rewrite around_call. reflexivity. }
    assert (Hstop : stopProviderLifecycle meanwhile providerId r
             = let '(live, r1, shown) := interleaved meanwhile provider r in
               (Normal tt, r1,
                lifecycleEvents r "provider:before-stop-lifecycle" provider lifecycle
                ++ [CallLifecycleStop lifecycle context] ++ shown
                ++ lifecycleEvents r1 "provider:after-stop-lifecycle" live lifecycle)).
    { unfold stopProviderLifecycle.
      rewrite (lifecycle_lookups r providerId provider lifecycle context _
                 Htracked Hlifecycle Hcontext).
      rewrite around_call. reflexivity. }
    destruct (interleaved meanwhile provider r) as [[live r1] shown].
    split; assumption.
Qed.

(** The daemon is down and [commander.start()] rejects; the timer fires at
    instant 3 while the command is pending and finds the daemon
    "Starting". *)
Lemma crc_lifecycle_witness :
  let lifecycle :=
    crcProviderLifecycle (fun now => if Nat.leb now 2 then Some "Stopped" else Some "Starting")
      (fails "daemon is down") resolves in
  let r := final (registerLifecycle podman lifecycle listeningRegistry) in
  startProviderLifecycle [tick 3] "0" r
  = (Normal tt, final (tick 3 r),
     [LifecycleEvent 9 "provider:before-start-lifecycle" (getProviderInfo r podman) lifecycle;
      CallLifecycleStart lifecycle NewLifecycleContextImpl;
      ProviderEvent 7 "provider:update-status"
        (getProviderInfo r (updateStatus Starting podman));
      LifecycleEvent 9 "provider:after-start-lifecycle"
        (getProviderInfo r (updateStatus Starting podman)) lifecycle]).
Proof.
  intros lifecycle r.
  assert (Hl : providerLifecycles r !! "0" = Some lifecycle) by (vm_compute; reflexivity).
  assert (Hc : providerLifecycleContexts r !! "0" = Some NewLifecycleContextImpl)
    by (vm_compute; reflexivity).
  assert (Hp : JSMap.get "0" (providers r) = Some podman) by (vm_compute; reflexivity).
  pose proof (proj2 (crc_lifecycle_never_fails [tick 3] r "0" podman
                       NewLifecycleContextImpl
                       (fun now => if Nat.leb now 2 then Some "Stopped" else Some "Starting")
                       (fails "daemon is down") resolves Hp Hl Hc)) as Hrun.
  destruct (interleaved [tick 3] podman r) as [[live r1] shown] eqn:Hi.
  rewrite (proj1 Hrun). vm_compute in Hi. injection Hi as <- <- <-.
  vm_compute. reflexivity.
Defined.
